(** * LazyCelery release scripts: package generator and version checker

    A shallow embedding of [packaging/generate_packages.py] and
    [scripts/validate-versions.py].

    Conventions of the embedding.
    - A Python [str] is a [string]; a character is a code point below 256.
      On that range the class [\d] of [re] is exactly [0-9] and
      [str.isspace] is the set [is_space] below.  Python's [\d] also
      takes the decimal digits of other scripts, above that range: a
      text that holds one is not a text of this model, and a statement
      that depends on it says that it is about ASCII text.
    - A metadata value is a [str] or a list of [str] ([pyval]): these are
      the two shapes [parse_toml_simple] produces.
    - A raised exception is an [exn] carried by [result]; the text of its
      message is not kept.
    - The file system is a finite map from paths (relative to the project
      root) to file contents, with a set of directories.  A path that
      exists can be opened and read as text.  A directory cannot be made
      at or below a regular file, and a directory cannot be opened for
      writing: [mkdir] and [open] raise there.  Permissions are not
      modelled.
    - A regular expression is a term of [Re.re], written after the
      pattern in the source and run by a backtracking matcher.
    - The subprocess of [fix_package_versions] is the [main] of the
      generator, run on the same files.
    - A process that an exception ends has exit status 1.
    - [print] is not modelled. *)

From Stdlib Require Import Ascii String ZArith Lia List Bool.
From stdpp Require Import gmap strings list fin_maps.

Local Open Scope string_scope.
Local Open Scope list_scope.

(** ** Python strings *)

Module PyStr.

Definition dq : ascii := "034"%char.
Definition lf : ascii := "010"%char.
Definition bslash : ascii := "092"%char.
Definition squote : ascii := "039"%char.

Definition chr (c : ascii) : string := String c EmptyString.

Definition code (c : ascii) : N := N_of_ascii c.

Definition between (lo hi : N) (c : ascii) : bool :=
  ((lo <=? code c) && (code c <=? hi))%N.

Definition is_digit : ascii -> bool := between 48 57.
Definition is_lower : ascii -> bool := between 97 122.
Definition is_upper : ascii -> bool := between 65 90.
Definition is_alnum (c : ascii) : bool := is_lower c || is_upper c || is_digit c.

(** [str.isspace] on one character (also the class [\s] of [re]). *)
Definition is_space (c : ascii) : bool :=
  between 9 13 c || between 28 32 c || (code c =? 133)%N || (code c =? 160)%N.

(** [c in chars] for a one-character [c]. *)
Fixpoint mem (c : ascii) (chars : string) : bool :=
  match chars with
  | EmptyString => false
  | String d rest => Ascii.eqb c d || mem c rest
  end.

Fixpoint all (p : ascii -> bool) (s : string) : bool :=
  match s with
  | EmptyString => true
  | String c rest => p c && all p rest
  end.

(** [s.startswith(t)] *)
Fixpoint startswith (t s : string) : bool :=
  match t, s with
  | EmptyString, _ => true
  | String a t', String b s' => Ascii.eqb a b && startswith t' s'
  | String _ _, EmptyString => false
  end.

(** [t in s] for strings. *)
Fixpoint contains (t s : string) : bool :=
  startswith t s ||
  match s with
  | EmptyString => false
  | String _ s' => contains t s'
  end.

Fixpoint rev_onto (s acc : string) : string :=
  match s with
  | EmptyString => acc
  | String c rest => rev_onto rest (String c acc)
  end.

Definition rev (s : string) : string := rev_onto s EmptyString.

(** [s.endswith(t)] *)
Definition endswith (t s : string) : bool := startswith (rev t) (rev s).

Fixpoint lstrip_by (p : ascii -> bool) (s : string) : string :=
  match s with
  | EmptyString => EmptyString
  | String c rest => if p c then lstrip_by p rest else s
  end.

Definition rstrip_by (p : ascii -> bool) (s : string) : string :=
  rev (lstrip_by p (rev s)).

Definition strip_by (p : ascii -> bool) (s : string) : string :=
  rstrip_by p (lstrip_by p s).

(** [s.strip()] *)
Definition strip (s : string) : string := strip_by is_space s.

(** [s.strip(chars)] *)
Definition strip_chars (chars s : string) : string :=
  strip_by (fun c => mem c chars) s.

(** [s.split(sep)] for a one-character separator: never empty. *)
Fixpoint split (sep : ascii) (s : string) : list string :=
  match s with
  | EmptyString => [EmptyString]
  | String c rest =>
      if Ascii.eqb c sep then EmptyString :: split sep rest
      else match split sep rest with
           | w :: ws => String c w :: ws
           | [] => [chr c]
           end
  end.

(** [s.split(sep, 1)] when [sep in s]: the text before the first
    separator and the text after it; [None] when there is no separator. *)
Fixpoint split1 (sep : ascii) (s : string) : option (string * string) :=
  match s with
  | EmptyString => None
  | String c rest =>
      if Ascii.eqb c sep then Some (EmptyString, rest)
      else match split1 sep rest with
           | Some (a, b) => Some (String c a, b)
           | None => None
           end
  end.

(** [sep.join(items)] *)
Fixpoint join (sep : string) (items : list string) : string :=
  match items with
  | [] => EmptyString
  | [x] => x
  | x :: rest => x +:+ sep +:+ join sep rest
  end.

Fixpoint chars (s : string) : list string :=
  match s with
  | EmptyString => []
  | String c rest => chr c :: chars rest
  end.

Fixpoint drop_last (s : string) : string :=
  match s with
  | EmptyString => EmptyString
  | String c EmptyString => EmptyString
  | String c rest => String c (drop_last rest)
  end.

(** [s[1:-1]] *)
Definition slice_1_m1 (s : string) : string :=
  match s with
  | EmptyString => EmptyString
  | String _ rest => drop_last rest
  end.

Definition to_upper (c : ascii) : ascii :=
  if is_lower c then ascii_of_N (code c - 32) else c.
Definition to_lower (c : ascii) : ascii :=
  if is_upper c then ascii_of_N (code c + 32) else c.

Fixpoint map_chars (f : ascii -> ascii) (s : string) : string :=
  match s with
  | EmptyString => EmptyString
  | String c rest => String (f c) (map_chars f rest)
  end.

(** [s.capitalize()] on ASCII letters; the generators call it on a name
    that [sanitize_input] has confined to [a-z0-9-]. *)
Definition capitalize (s : string) : string :=
  match s with
  | EmptyString => EmptyString
  | String c rest => String (to_upper c) (map_chars to_lower rest)
  end.

Definition hex_digit (n : N) : ascii :=
  if (n <? 10)%N then ascii_of_N (48 + n) else ascii_of_N (87 + n).

Definition hex2 (c : ascii) : string :=
  String (hex_digit (code c / 16)) (chr (hex_digit (code c mod 16))).

(** [str.isprintable] on one character. *)
Definition is_printable (c : ascii) : bool :=
  between 32 126 c || (between 161 255 c && negb (code c =? 173)%N).

Definition repr_char (quote c : ascii) : string :=
  if Ascii.eqb c quote || Ascii.eqb c bslash then String bslash (chr c)
  else if (code c =? 9)%N then "\t"
  else if (code c =? 10)%N then "\n"
  else if (code c =? 13)%N then "\r"
  else if is_printable c then chr c
  else "\x" +:+ hex2 c.

Fixpoint concat_map (f : ascii -> string) (s : string) : string :=
  match s with
  | EmptyString => EmptyString
  | String c rest => f c +:+ concat_map f rest
  end.

(** [repr(s)] of a [str]: single quotes unless the text holds a single
    quote and no double quote. *)
Definition repr (s : string) : string :=
  let quote := if mem squote s && negb (mem dq s) then dq else squote in
  chr quote +:+ concat_map (repr_char quote) s +:+ chr quote.

End PyStr.

(** ** Regular expressions

    The fragment of [re] the two scripts use, run by a backtracking
    matcher: alternatives are tried in the order [re] tries them (a
    greedy repetition gives back one character at a time, an optional
    group is tried before it is skipped, a search starts at the leftmost
    position first).  Only one-character classes are repeated. *)

Module Re.
Import PyStr.

Inductive re : Type :=
| Eps
| Chr (p : ascii -> bool)      (* one character of a class *)
| Cat (r1 r2 : re)
| Star (p : ascii -> bool)     (* [class]*, greedy *)
| Opt (r : re)                 (* (...)?, greedy *)
| Group (r : re)               (* capturing group 1 *)
| Bos                          (* ^ *)
| Eos.                         (* $ *)

Definition Plus (p : ascii -> bool) : re := Cat (Chr p) (Star p).

Fixpoint Lit (s : string) : re :=
  match s with
  | EmptyString => Eps
  | String c rest => Cat (Chr (Ascii.eqb c)) (Lit rest)
  end.

Fixpoint Seq (rs : list re) : re :=
  match rs with
  | [] => Eps
  | r :: rest => Cat r (Seq rest)
  end.

(** Character classes of the patterns.  [digit] is [\d] on the code
    points below 256, where the only decimal digits are [0-9]. *)
Definition digit : ascii -> bool := is_digit.                     (* \d *)
Definition space : ascii -> bool := is_space.                     (* \s *)
Definition dot (c : ascii) : bool := negb (Ascii.eqb c lf).       (* . *)
Definition one_of (chars : string) (c : ascii) : bool := mem c chars.
Definition none_of (chars : string) (c : ascii) : bool := negb (mem c chars).
Definition digit_or_dot (c : ascii) : bool :=                     (* [0-9.] *)
  is_digit c || Ascii.eqb c ".".
Definition alnum_dash_dot (c : ascii) : bool :=                   (* [a-zA-Z0-9\-\.] *)
  is_alnum c || Ascii.eqb c "-" || Ascii.eqb c ".".

(** What is left of the subject after a match, and group 1. *)
Definition outcome : Type := string * option string.

(** The first [length s - length rest] characters of [s]. *)
Definition consumed (s rest : string) : string :=
  substring 0 (String.length s - String.length rest) s.

(** [$] without MULTILINE: the end of the subject, or just before a
    newline that ends it. *)
Definition at_eos (s : string) : bool :=
  match s with
  | EmptyString => true
  | String c EmptyString => Ascii.eqb c lf
  | _ => false
  end.

Fixpoint star (p : ascii -> bool) (s : string)
    (k : string -> option outcome) : option outcome :=
  match s with
  | String c rest =>
      if p c then
        match star p rest k with
        | Some o => Some o
        | None => k s
        end
      else k s
  | EmptyString => k s
  end.

(** [run subject r s cap k]: match [r] at the front of [s], a suffix of
    [subject], then continue with [k]. *)
Fixpoint run (subject : string) (r : re) (s : string) (cap : option string)
    (k : string -> option string -> option outcome) : option outcome :=
  match r with
  | Eps => k s cap
  | Chr p =>
      match s with
      | String c rest => if p c then k rest cap else None
      | EmptyString => None
      end
  | Cat r1 r2 => run subject r1 s cap (fun s' cap' => run subject r2 s' cap' k)
  | Star p => star p s (fun s' => k s' cap)
  | Opt r1 =>
      match run subject r1 s cap k with
      | Some o => Some o
      | None => k s cap
      end
  | Group r1 => run subject r1 s cap (fun s' _ => k s' (Some (consumed s s')))
  | Bos => if Nat.eqb (String.length s) (String.length subject) then k s cap else None
  | Eos => if at_eos s then k s cap else None
  end.

Definition accept (s : string) (cap : option string) : option outcome :=
  Some (s, cap).

Definition match_at (subject : string) (r : re) (s : string) : option outcome :=
  run subject r s None accept.

(** [re.match(r, s)] *)
Definition re_match (r : re) (s : string) : option outcome := match_at s r s.

Fixpoint search_from (subject : string) (r : re) (s : string) : option outcome :=
  match match_at subject r s with
  | Some o => Some o
  | None =>
      match s with
      | String _ rest => search_from subject r rest
      | EmptyString => None
      end
  end.

(** [re.search(r, s)] *)
Definition re_search (r : re) (s : string) : option outcome := search_from s r s.

(** [m.group(1)] of [re.search(r, s)], [None] when there is no match. *)
Definition search_group1 (r : re) (s : string) : option string :=
  match re_search r s with
  | Some (_, Some g) => Some g
  | _ => None
  end.

(** The scan of [re.sub]: [skip] characters of the last match are still
    to be passed over.  [repl] maps the matched text to its replacement.
    The patterns substituted here never match the empty string; an empty
    match is passed over like a failed one. *)
Fixpoint sub_from (subject : string) (r : re) (repl : string -> string)
    (skip : nat) (s : string) : string :=
  match s with
  | EmptyString => EmptyString
  | String c rest =>
      match skip with
      | S n => sub_from subject r repl n rest
      | O =>
          match match_at subject r s with
          | Some (after, _) =>
              match String.length s - String.length after with
              | S n => repl (consumed s after) +:+ sub_from subject r repl n rest
              | O => String c (sub_from subject r repl 0 rest)
              end
          | None => String c (sub_from subject r repl 0 rest)
          end
      end
  end.

(** [re.sub(r, repl, s)] once the replacement template is expanded. *)
Definition re_sub (r : re) (repl : string -> string) (s : string) : string :=
  sub_from s r repl 0 s.

End Re.

(** ** Files *)

Module Sys.
Import PyStr.

Record fsys : Type := {
  files : gmap string string;
  dirs : gset string
}.

Definition read (fs : fsys) (path : string) : option string := files fs !! path.

(** [Path.exists()] of a path the scripts open as a file. *)
Definition file_exists (fs : fsys) (path : string) : bool :=
  bool_decide (is_Some (files fs !! path)).

Definition dir_exists (fs : fsys) (path : string) : bool :=
  bool_decide (path ∈ dirs fs).

Fixpoint prefixes (acc : string) (parts : list string) : list string :=
  match parts with
  | [] => []
  | [_] => []
  | p :: rest =>
      let here := if String.eqb acc EmptyString then p else acc +:+ "/" +:+ p in
      here :: prefixes here rest
  end.

(** The directories above [path]: what
    [path.parent.mkdir(parents=True, exist_ok=True)] makes sure of. *)
Definition ancestors (path : string) : list string :=
  prefixes EmptyString (split "/" path).

(** One of these directories is a regular file. *)
Definition blocked (fs : fsys) (path : string) : bool :=
  existsb (file_exists fs) (ancestors path).

(** [mkdir] raises ([None]) then, and makes the directories that are
    missing otherwise. *)
Definition mkdir_parents (path : string) (fs : fsys) : option fsys :=
  if blocked fs path then None
  else Some {| files := files fs; dirs := dirs fs ∪ list_to_set (ancestors path) |}.

Definition write (path content : string) (fs : fsys) : fsys :=
  {| files := <[path := content]> (files fs); dirs := dirs fs |}.

(** [open(path, 'w')] and [f.write(content)]: [open] raises ([None]) when
    [path] is a directory. *)
Definition open_write (path content : string) (fs : fsys) : option fsys :=
  if dir_exists fs path then None else Some (write path content fs).

End Sys.

(** ** packaging/generate_packages.py *)

Module GeneratePackages.
Import PyStr Re Sys.

Inductive pyval : Type :=
| VStr (s : string)
| VList (items : list string).

Inductive exn : Type := ValueError | TypeError | IndexError | OSError.

Inductive result (A : Type) : Type :=
| Ok (a : A)
| Raise (e : exn).
Arguments Ok {A} a.
Arguments Raise {A} e.

Definition bind {A B : Type} (m : result A) (k : A -> result B) : result B :=
  match m with
  | Ok a => k a
  | Raise e => Raise e
  end.

Notation "x <- m ;; k" := (bind m (fun x => k))
  (at level 100, m at level 99, right associativity).

(** The two quote characters, double and single, that [strip] is given. *)
Definition quotes : string := String dq (String squote EmptyString).

(** [q s] is [s] between double quotes. *)
Definition q (s : string) : string := chr dq +:+ s +:+ chr dq.

Definition nonempty (s : string) : bool := negb (String.eqb s EmptyString).

(** One turn of the loop of [parse_toml_simple]. *)
Definition parse_line (st : bool * gmap string pyval) (raw : string)
    : bool * gmap string pyval :=
  let '(in_package, package_data) := st in
  let line := strip raw in
  if String.eqb line "[package]" then (true, package_data)
  else if startswith "[" line && negb (String.eqb line "[package]")
  then (false, package_data)
  else if in_package && contains "=" line then
    match split1 "=" line with
    | Some (key, value) =>
        let key := strip key in
        let value := strip_chars quotes (strip value) in
        if startswith "[" value && endswith "]" value then
          let value := slice_1_m1 value in
          if nonempty value then
            let items :=
              map (fun item => strip_chars quotes (strip item)) (split "," value) in
            (in_package, <[key := VList items]> package_data)
          else (in_package, <[key := VList []]> package_data)
        else (in_package, <[key := VStr value]> package_data)
    | None => st
    end
  else st.

Definition parse_toml_simple (content : string) : gmap string pyval :=
  snd (fold_left parse_line (split lf content) (false, ∅)).

Record metadata : Type := {
  md_name : pyval;
  md_version : pyval;
  md_description : pyval;
  md_authors : list string;
  md_license : pyval;
  md_repository : pyval;
  md_homepage : pyval;
  md_keywords : pyval;
  md_categories : pyval
}.

(** [package.get(key, dflt)] *)
Definition get (package : gmap string pyval) (key : string) (dflt : pyval) : pyval :=
  default dflt (package !! key).

Definition metadata_of (package : gmap string pyval) : metadata :=
  let authors := get package "authors" (VList ["Unknown"]) in
  let authors :=
    match authors with
    | VList (first :: _) => first
    | VList [] => "Unknown"
    | VStr s => s
    end in
  {| md_name := get package "name" (VStr "lazycelery");
     md_version := get package "version" (VStr "0.4.0");
     md_description := get package "description" (VStr "Terminal UI for monitoring Celery");
     md_authors := [authors];
     md_license := get package "license" (VStr "MIT");
     md_repository := get package "repository" (VStr "https://github.com/Fguedes90/lazycelery");
     md_homepage := get package "homepage" (VStr "https://github.com/Fguedes90/lazycelery");
     md_keywords := get package "keywords"
                      (VList ["celery"; "tui"; "terminal"; "monitoring"; "redis"]);
     md_categories := get package "categories" (VList ["command-line-utilities"]) |}.

Definition load_cargo_metadata (fs : fsys) (cargo_toml_path : string) : result metadata :=
  match read fs cargo_toml_path with
  | Some content => Ok (metadata_of (parse_toml_simple content))
  | None => Raise OSError
  end.

Definition default_allowed_chars : string :=
  "abcdefghijklmnopqrstuvwxyzABCDEFGHIJKLMNOPQRSTUVWXYZ0123456789.-_/:".

Definition sanitize_input (value : pyval) (max_length : Z)
    (allowed_chars : option string) : result string :=
  match value with
  | VList _ => Raise ValueError
  | VStr s =>
      if (max_length <? Z.of_nat (String.length s))%Z then Raise ValueError
      else
        let allowed := default default_allowed_chars allowed_chars in
        if all (fun char => mem char allowed) s then Ok s else Raise ValueError
  end.

(** [^\d+\.\d+\.\d+(-[a-zA-Z0-9\-\.]+)?$] *)
Definition version_re : re :=
  Seq [Bos; Plus digit; Lit "."; Plus digit; Lit "."; Plus digit;
       Opt (Group (Cat (Lit "-") (Plus alnum_dash_dot))); Eos].

(** The pattern of [validate_url]: [^https?://[a-zA-Z0-9\-\.]+], then an
    optional group of a slash and any run of [.], then [$]. *)
Definition url_re : re :=
  Seq [Bos; Lit "http"; Opt (Lit "s"); Lit "://"; Plus alnum_dash_dot;
       Opt (Group (Cat (Lit "/") (Star dot))); Eos].

(** [re.match] raises TypeError on a subject that is not text. *)
Definition validate_with (pattern : re) (value : pyval) : result string :=
  match value with
  | VList _ => Raise TypeError
  | VStr s =>
      match re_match pattern s with
      | Some _ => Ok s
      | None => Raise ValueError
      end
  end.

Definition validate_version (version : pyval) : result string :=
  validate_with version_re version.

Definition validate_url (url : pyval) : result string :=
  validate_with url_re url.

Definition name_chars : string := "abcdefghijklmnopqrstuvwxyz0123456789-".

Definition PLACEHOLDER_SHA256 : string := "PLACEHOLDER_SHA256".

(** [str(v)], as an f-string formats a value. *)
Definition fmt (v : pyval) : string :=
  match v with
  | VStr s => s
  | VList items => "[" +:+ join ", " (map repr items) +:+ "]"
  end.

(** [metadata['authors'][0]] *)
Definition first_author (md : metadata) : result string :=
  match md_authors md with
  | a :: _ => Ok a
  | [] => Raise IndexError
  end.

Definition unlines (ls : list string) : string := join (chr lf) ls.

(** *** JSON, as [json.dumps(obj, indent=4)] writes it *)

#[local] Set Warnings "-register-all".
Inductive json : Type :=
| JStr (s : string)
| JArr (items : list json)
| JObj (members : list (string * json)).

Definition hex4 (n : N) : string :=
  String (hex_digit (n / 4096 mod 16)) (String (hex_digit (n / 256 mod 16))
    (String (hex_digit (n / 16 mod 16)) (chr (hex_digit (n mod 16))))).

Definition json_char (c : ascii) : string :=
  if Ascii.eqb c bslash then "\\"
  else if Ascii.eqb c dq then String bslash (chr dq)
  else if (code c =? 8)%N then "\b"
  else if (code c =? 12)%N then "\f"
  else if (code c =? 10)%N then "\n"
  else if (code c =? 13)%N then "\r"
  else if (code c =? 9)%N then "\t"
  else if between 32 126 c then chr c
  else "\u" +:+ hex4 (code c).

Definition json_string (s : string) : string := q (concat_map json_char s).

Fixpoint spaces (n : nat) : string :=
  match n with
  | O => EmptyString
  | S m => String " " (spaces m)
  end.

Definition newline_indent (level : nat) : string := String lf (spaces (4 * level)).

Fixpoint dumps (level : nat) (j : json) : string :=
  match j with
  | JStr s => json_string s
  | JArr [] => "[]"
  | JArr items =>
      "[" +:+ newline_indent (S level)
      +:+ join ("," +:+ newline_indent (S level)) (map (dumps (S level)) items)
      +:+ newline_indent level +:+ "]"
  | JObj [] => "{}"
  | JObj members =>
      "{" +:+ newline_indent (S level)
      +:+ join ("," +:+ newline_indent (S level))
            (map (fun kv => match kv with
                            | (k, v) => json_string k +:+ ": " +:+ dumps (S level) v
                            end) members)
      +:+ newline_indent level +:+ "}"
  end.

Definition json_of (v : pyval) : json :=
  match v with
  | VStr s => JStr s
  | VList items => JArr (map JStr items)
  end.

(** *** The generators *)

Section Generators.

(** [calculate_sha256_from_url]: the digest of what the URL serves, or
    [None] when the fetch fails.  It is the one place where a generator
    looks outside its arguments. *)
Variable calculate_sha256_from_url : string -> option string.

(** The hash a generator writes: the placeholder unless hashing is asked
    for and the fetch gives a digest that is not empty. *)
Definition sha256_hash_for (calculate_hashes : bool) (url : string) : string :=
  if calculate_hashes then
    match calculate_sha256_from_url url with
    | Some calculated_hash =>
        if nonempty calculated_hash then calculated_hash else PLACEHOLDER_SHA256
    | None => PLACEHOLDER_SHA256
    end
  else PLACEHOLDER_SHA256.

Definition pkgbuild_source_text (md : metadata)
    (author name version repository homepage sha256_hash : string) : string :=
  unlines [
    "# Maintainer: " +:+ author;
    "pkgname=" +:+ name;
    "pkgver=" +:+ version;
    "pkgrel=1";
    "pkgdesc=" +:+ q (fmt (md_description md));
    "arch=('x86_64')";
    "url=" +:+ q homepage;
    "license=('" +:+ fmt (md_license md) +:+ "')";
    "depends=('gcc-libs')";
    "makedepends=('rust' 'cargo')";
    "source=(" +:+ q ("$pkgname-$pkgver.tar.gz::" +:+ repository +:+ "/archive/v$pkgver.tar.gz") +:+ ")";
    "sha256sums=('" +:+ sha256_hash +:+ "')";
    "";
    "build() {";
    "    cd " +:+ q "$pkgname-$pkgver";
    "    export RUSTUP_TOOLCHAIN=stable";
    "    export CARGO_TARGET_DIR=target";
    "    cargo build --release --locked";
    "}";
    "";
    "check() {";
    "    cd " +:+ q "$pkgname-$pkgver";
    "    export RUSTUP_TOOLCHAIN=stable";
    "    cargo test --release --locked";
    "}";
    "";
    "package() {";
    "    cd " +:+ q "$pkgname-$pkgver";
    "    install -Dm755 target/release/$pkgname " +:+ q "$pkgdir/usr/bin/$pkgname";
    "    install -Dm644 LICENSE " +:+ q "$pkgdir/usr/share/licenses/$pkgname/LICENSE";
    "    install -Dm644 README.md " +:+ q "$pkgdir/usr/share/doc/$pkgname/README.md";
    "}" ].

Definition generate_pkgbuild_source (md : metadata) (calculate_hashes : bool)
    : result string :=
  name <- sanitize_input (md_name md) 50 (Some name_chars) ;;
  version <- validate_version (md_version md) ;;
  repository <- validate_url (md_repository md) ;;
  homepage <- validate_url (md_homepage md) ;;
  let sha256_hash :=
    sha256_hash_for calculate_hashes
      (repository +:+ "/archive/v" +:+ version +:+ ".tar.gz") in
  author <- first_author md ;;
  Ok (pkgbuild_source_text md author name version repository homepage sha256_hash).

Definition pkgbuild_bin_text (md : metadata)
    (author name version repository homepage sha256_hash : string) : string :=
  unlines [
    "# Maintainer: " +:+ author;
    "pkgname=" +:+ name +:+ "-bin";
    "pkgver=" +:+ version;
    "pkgrel=1";
    "pkgdesc=" +:+ q (fmt (md_description md) +:+ " (binary release)");
    "arch=('x86_64')";
    "url=" +:+ q homepage;
    "license=('" +:+ fmt (md_license md) +:+ "')";
    "depends=('gcc-libs')";
    "provides=('" +:+ name +:+ "')";
    "conflicts=('" +:+ name +:+ "')";
    "source_x86_64=(" +:+ q (repository +:+ "/releases/download/v$pkgver/" +:+ name +:+ "-linux-x86_64.tar.gz") +:+ ")";
    "sha256sums_x86_64=('" +:+ sha256_hash +:+ "')";
    "";
    "package() {";
    "    install -Dm755 " +:+ fmt (md_name md) +:+ " " +:+ q ("$pkgdir/usr/bin/" +:+ fmt (md_name md));
    "    ";
    "    # Download and install license and docs";
    "    curl -sL " +:+ q (fmt (md_repository md) +:+ "/raw/v$pkgver/LICENSE") +:+ " -o LICENSE";
    "    curl -sL " +:+ q (fmt (md_repository md) +:+ "/raw/v$pkgver/README.md") +:+ " -o README.md";
    "    ";
    "    install -Dm644 LICENSE " +:+ q "$pkgdir/usr/share/licenses/$pkgname/LICENSE";
    "    install -Dm644 README.md " +:+ q "$pkgdir/usr/share/doc/$pkgname/README.md";
    "}" ].

Definition generate_pkgbuild_bin (md : metadata) (calculate_hashes : bool)
    : result string :=
  name <- sanitize_input (md_name md) 50 (Some name_chars) ;;
  version <- validate_version (md_version md) ;;
  repository <- validate_url (md_repository md) ;;
  homepage <- validate_url (md_homepage md) ;;
  let sha256_hash :=
    sha256_hash_for calculate_hashes
      (repository +:+ "/releases/download/v" +:+ version +:+ "/" +:+ name
       +:+ "-linux-x86_64.tar.gz") in
  author <- first_author md ;;
  Ok (pkgbuild_bin_text md author name version repository homepage sha256_hash).

Definition homebrew_formula_text (md : metadata)
    (name version repository homepage sha256_hash : string) : string :=
  let class_name := capitalize name in
  unlines [
    "class " +:+ class_name +:+ " < Formula";
    "  desc " +:+ q (fmt (md_description md));
    "  homepage " +:+ q homepage;
    "  url " +:+ q (repository +:+ "/archive/v" +:+ version +:+ ".tar.gz");
    "  sha256 " +:+ q sha256_hash;
    "  license " +:+ q (fmt (md_license md));
    "";
    "  depends_on " +:+ q "rust" +:+ " => :build";
    "";
    "  def install";
    "    system " +:+ q "cargo" +:+ ", " +:+ q "install" +:+ ", *std_cargo_args";
    "  end";
    "";
    "  test do";
    "    assert_match " +:+ q (fmt (md_name md)) +:+ ", shell_output("
      +:+ q ("#{bin}/" +:+ fmt (md_name md) +:+ " --help") +:+ ")";
    "  end";
    "end" ].

Definition generate_homebrew_formula (md : metadata) (calculate_hashes : bool)
    : result string :=
  name <- sanitize_input (md_name md) 50 (Some name_chars) ;;
  version <- validate_version (md_version md) ;;
  repository <- validate_url (md_repository md) ;;
  homepage <- validate_url (md_homepage md) ;;
  let sha256_hash :=
    sha256_hash_for calculate_hashes
      (repository +:+ "/archive/v" +:+ version +:+ ".tar.gz") in
  Ok (homebrew_formula_text md name version repository homepage sha256_hash).

(** [' '.join(metadata['keywords'])]: over the items of a list, or over
    the characters of a text. *)
Definition tags_of (keywords : pyval) : string :=
  match keywords with
  | VList items => join " " items
  | VStr s => join " " (chars s)
  end.

Definition chocolatey_nuspec_text (md : metadata)
    (author tags name version repository : string) : string :=
  unlines [
    "<?xml version=" +:+ q "1.0" +:+ " encoding=" +:+ q "utf-8" +:+ "?>";
    "<package xmlns=" +:+ q "http://schemas.microsoft.com/packaging/2015/06/nuspec.xsd" +:+ ">";
    "  <metadata>";
    "    <id>" +:+ name +:+ "</id>";
    "    <version>" +:+ version +:+ "</version>";
    "    <packageSourceUrl>" +:+ repository +:+ "/tree/main/packaging/chocolatey</packageSourceUrl>";
    "    <owners>" +:+ author +:+ "</owners>";
    "    <title>" +:+ capitalize name +:+ "</title>";
    "    <authors>" +:+ author +:+ "</authors>";
    "    <projectUrl>" +:+ repository +:+ "</projectUrl>";
    "    <iconUrl>" +:+ repository +:+ "/raw/main/screenshots/workers-view.png</iconUrl>";
    "    <copyright>2024 " +:+ author +:+ "</copyright>";
    "    <licenseUrl>" +:+ repository +:+ "/blob/main/LICENSE</licenseUrl>";
    "    <requireLicenseAcceptance>false</requireLicenseAcceptance>";
    "    <projectSourceUrl>" +:+ repository +:+ "</projectSourceUrl>";
    "    <docsUrl>" +:+ repository +:+ "/blob/main/README.md</docsUrl>";
    "    <bugTrackerUrl>" +:+ repository +:+ "/issues</bugTrackerUrl>";
    "    <tags>" +:+ tags +:+ "</tags>";
    "    <summary>" +:+ fmt (md_description md) +:+ "</summary>";
    "    <description>";
    fmt (md_description md);
    "";
    "## Features";
    "- Real-time monitoring of Celery workers and tasks";
    "- Task management (retry, revoke, purge queues)";
    "- Redis broker support with real Celery protocol integration";
    "- Intuitive terminal interface with vim-style navigation";
    "- Cross-platform support (Linux, macOS, Windows)";
    "";
    "## Usage";
    "Run `" +:+ name +:+ "` in your terminal to start monitoring your Celery infrastructure.";
    "    </description>";
    "    <releaseNotes>" +:+ repository +:+ "/releases</releaseNotes>";
    "  </metadata>";
    "  <files>";
    "    <file src=" +:+ q "tools\**" +:+ " target=" +:+ q "tools" +:+ " />";
    "  </files>";
    "</package>" ].

Definition generate_chocolatey_nuspec (md : metadata) (calculate_hashes : bool)
    : result string :=
  name <- sanitize_input (md_name md) 50 (Some name_chars) ;;
  version <- validate_version (md_version md) ;;
  repository <- validate_url (md_repository md) ;;
  first <- first_author md ;;
  let author := strip (hd EmptyString (split "<" first)) in
  let tags := tags_of (md_keywords md) in
  Ok (chocolatey_nuspec_text md author tags name version repository).

Definition scoop_manifest (md : metadata)
    (name version repository homepage sha256_hash : string) : json :=
  JObj [
    ("version", JStr version);
    ("description", json_of (md_description md));
    ("homepage", JStr homepage);
    ("license", json_of (md_license md));
    ("architecture", JObj [
      ("64bit", JObj [
        ("url", JStr (repository +:+ "/releases/download/v" +:+ version +:+ "/"
                       +:+ name +:+ "-windows-x86_64.zip"));
        ("hash", JStr sha256_hash);
        ("extract_dir", JStr EmptyString) ]) ]);
    ("bin", JStr (name +:+ ".exe"));
    ("checkver", JObj [ ("github", JStr repository) ]);
    ("autoupdate", JObj [
      ("architecture", JObj [
        ("64bit", JObj [
          ("url", JStr (repository +:+ "/releases/download/v$version/"
                         +:+ name +:+ "-windows-x86_64.zip")) ]) ]) ]) ].

Definition generate_scoop_manifest (md : metadata) (calculate_hashes : bool)
    : result string :=
  name <- sanitize_input (md_name md) 50 (Some name_chars) ;;
  version <- validate_version (md_version md) ;;
  repository <- validate_url (md_repository md) ;;
  homepage <- validate_url (md_homepage md) ;;
  let sha256_hash :=
    sha256_hash_for calculate_hashes
      (repository +:+ "/releases/download/v" +:+ version +:+ "/" +:+ name
       +:+ "-windows-x86_64.zip") in
  Ok (dumps 0 (scoop_manifest md name version repository homepage sha256_hash)).

Definition snapcraft_yaml_text (md : metadata)
    (name version repository : string) : string :=
  unlines [
    "name: " +:+ name;
    "base: core22";
    "version: '" +:+ version +:+ "'";
    "summary: " +:+ fmt (md_description md);
    "description: |";
    "  " +:+ fmt (md_description md);
    "  ";
    "  Features:";
    "  - Real-time monitoring of Celery workers and tasks";
    "  - Task management (retry, revoke, purge queues)";
    "  - Redis broker support with real Celery protocol integration";
    "  - Intuitive terminal interface with vim-style navigation";
    "  - Cross-platform support";
    "";
    "grade: stable";
    "confinement: strict";
    "";
    "architectures:";
    "  - build-on: amd64";
    "  - build-on: arm64";
    "";
    "apps:";
    "  " +:+ name +:+ ":";
    "    command: bin/" +:+ name;
    "    plugs:";
    "      - network";
    "      - network-bind";
    "      - home";
    "";
    "parts:";
    "  " +:+ name +:+ ":";
    "    plugin: rust";
    "    source: " +:+ repository +:+ ".git";
    "    source-tag: v" +:+ version;
    "    rust-features: []";
    "    build-packages:";
    "      - build-essential";
    "      - pkg-config";
    "    override-build: |";
    "      craftctl default";
    "      # Strip the binary to reduce size";
    "      strip $CRAFT_PART_INSTALL/bin/" +:+ name ].

Definition generate_snapcraft_yaml (md : metadata) (calculate_hashes : bool)
    : result string :=
  name <- sanitize_input (md_name md) 50 (Some name_chars) ;;
  version <- validate_version (md_version md) ;;
  repository <- validate_url (md_repository md) ;;
  Ok (snapcraft_yaml_text md name version repository).

(** The list [generators] of [main]: output path under the script's
    directory, and generator. *)
Definition generators : list (string * (metadata -> bool -> result string)) :=
  [ ("aur/PKGBUILD", generate_pkgbuild_source);
    ("aur/PKGBUILD-bin", generate_pkgbuild_bin);
    ("homebrew/lazycelery.rb", generate_homebrew_formula);
    ("chocolatey/lazycelery.nuspec", generate_chocolatey_nuspec);
    ("scoop/lazycelery.json", generate_scoop_manifest);
    ("snap/snapcraft.yaml", generate_snapcraft_yaml) ].

(** The script lives in [packaging/]; the project root is its parent. *)
Definition script_dir : string := "packaging".

(** One turn of the loop of [main]: whatever the generator, [mkdir] or
    [open] raises is caught, and the loop goes on with the next entry.
    The directories [mkdir] has made stay when [open] raises. *)
Definition generate_one (md : metadata) (calculate_hashes : bool) (fs : fsys)
    (entry : string * (metadata -> bool -> result string)) : fsys :=
  let '(file_path, generator) := entry in
  let full_path := script_dir +:+ "/" +:+ file_path in
  match generator md calculate_hashes with
  | Ok content =>
      match mkdir_parents full_path fs with
      | Some fs_made =>
          match open_write full_path content fs_made with
          | Some fs_written => fs_written
          | None => fs_made
          end
      | None => fs
      end
  | Raise _ => fs
  end.

(** The metadata [main] goes on with, after its own checks. *)
Definition checked_metadata (fs : fsys) : result metadata :=
  md <- load_cargo_metadata fs "Cargo.toml" ;;
  _ <- validate_version (md_version md) ;;
  _ <- validate_url (md_repository md) ;;
  _ <- validate_url (md_homepage md) ;;
  _ <- sanitize_input (md_name md) 50 (Some name_chars) ;;
  Ok md.

(** [main]: the exit status and the files left behind.  [sys.exit(1)]
    and an exception that nothing catches both end with status 1. *)
Definition main (argv : list string) (fs : fsys) : Z * fsys :=
  let calculate_hashes := bool_decide ("--calculate-hashes" ∈ argv) in
  if negb (file_exists fs "Cargo.toml") then (1%Z, fs)
  else
    match checked_metadata fs with
    | Raise _ => (1%Z, fs)
    | Ok md => (0%Z, fold_left (generate_one md calculate_hashes) generators fs)
    end.

End Generators.

End GeneratePackages.

(** ** scripts/validate-versions.py *)

Module ValidateVersions.
Import PyStr Re Sys.

Definition quotes : string := GeneratePackages.quotes.
Definition q : string -> string := GeneratePackages.q.
Definition nonempty : string -> bool := GeneratePackages.nonempty.

(** The two lists of a [VersionValidator]; its [project_root] is the
    root the paths of [fsys] are relative to. *)
Record validator : Type := {
  errors : list string;
  warnings : list string
}.

Definition new_validator : validator := {| errors := []; warnings := [] |}.

Definition add_error (msg : string) (v : validator) : validator :=
  {| errors := errors v ++ [msg]; warnings := warnings v |}.

Definition add_warning (msg : string) (v : validator) : validator :=
  {| errors := errors v; warnings := warnings v ++ [msg] |}.

(** [errors.clear()] and [warnings.clear()] *)
Definition clear (v : validator) : validator := {| errors := []; warnings := [] |}.

(** [if x:] on an [Optional[str]]. *)
Definition truthy (x : option string) : bool :=
  match x with
  | Some s => nonempty s
  | None => false
  end.

(** The text an f-string shows for a value that passed [if x:]. *)
Definition str_of (x : option string) : string := default EmptyString x.

Definition parse_line (st : bool * gmap string string) (raw : string)
    : bool * gmap string string :=
  let '(in_package, data) := st in
  let line := strip raw in
  if String.eqb line "[package]" then (true, data)
  else if startswith "[" line && negb (String.eqb line "[package]")
  then (false, data)
  else if in_package && contains "=" line then
    match split1 "=" line with
    | Some (key, value) =>
        let key := strip key in
        let value := strip_chars quotes (strip value) in
        (in_package, <[key := value]> data)
    | None => st
    end
  else st.

Definition parse_toml_simple (content : string) : gmap string string :=
  snd (fold_left parse_line (split lf content) (false, ∅)).

Definition get_cargo_version (fs : fsys) (v : validator) : option string * validator :=
  match read fs "Cargo.toml" with
  | None => (None, add_error "Cargo.toml not found" v)
  | Some content => (parse_toml_simple content !! "version", v)
  end.

Definition get_cargo_rust_version (fs : fsys) : option string :=
  match read fs "Cargo.toml" with
  | None => None
  | Some content => parse_toml_simple content !! "rust-version"
  end.

(** The loop of [get_mise_rust_version]: it returns at the first line of
    the section [tools] that holds both the text rust and an equals sign. *)
Fixpoint mise_scan (in_tools : bool) (lines : list string) : option string :=
  match lines with
  | [] => None
  | raw :: rest =>
      let line := strip raw in
      if String.eqb line "[tools]" then mise_scan true rest
      else if startswith "[" line && negb (String.eqb line "[tools]")
      then mise_scan false rest
      else if in_tools && contains "rust" line && contains "=" line then
        match split1 "=" line with
        | Some (_, value) => Some (strip_chars quotes (strip value))
        | None => mise_scan in_tools rest
        end
      else mise_scan in_tools rest
  end.

Definition get_mise_rust_version (fs : fsys) : option string :=
  match read fs ".mise.toml" with
  | None => None
  | Some content => mise_scan false (split lf content)
  end.

(** [FROM rust:([0-9.]+)] *)
Definition dockerfile_re : re := Seq [Lit "FROM rust:"; Group (Plus digit_or_dot)].

Definition get_dockerfile_rust_version (fs : fsys) : option string :=
  match read fs "Dockerfile" with
  | None => None
  | Some content => search_group1 dockerfile_re content
  end.

Definition rust_mismatch (a va b vb : string) : string :=
  "Rust version mismatch: " +:+ a +:+ "=" +:+ va +:+ ", " +:+ b +:+ "=" +:+ vb.

(** One comparison of [validate_rust_versions]: made when both values
    are there, an error when they differ. *)
Definition compare_rust (a : string) (x : option string) (b : string)
    (y : option string) (st : bool * validator) : bool * validator :=
  if truthy x && truthy y then
    if negb (String.eqb (str_of x) (str_of y))
    then (false, add_error (rust_mismatch a (str_of x) b (str_of y)) (snd st))
    else st
  else st.

Definition validate_rust_versions (fs : fsys) (v : validator) : bool * validator :=
  let cargo_rust := get_cargo_rust_version fs in
  let mise_rust := get_mise_rust_version fs in
  let docker_rust := get_dockerfile_rust_version fs in
  let st := (true, v) in
  let st :=
    if negb (truthy cargo_rust)
    then (false, add_error "No rust-version found in Cargo.toml" (snd st))
    else st in
  let st :=
    if negb (truthy mise_rust)
    then (false, add_error "No Rust version found in .mise.toml" (snd st))
    else st in
  let st :=
    if negb (truthy docker_rust)
    then (fst st, add_warning "No Rust version found in Dockerfile" (snd st))
    else st in
  let st := compare_rust "Cargo.toml" cargo_rust ".mise.toml" mise_rust st in
  let st := compare_rust "Cargo.toml" cargo_rust "Dockerfile" docker_rust st in
  let st := compare_rust ".mise.toml" mise_rust "Dockerfile" docker_rust st in
  st.

(** The list [package_files] of [validate_package_versions]. *)
Definition package_files : list (string * re) :=
  [ ("packaging/chocolatey/lazycelery.nuspec",
       Seq [Lit "<version>"; Group (Plus (none_of "<")); Lit "</version>"]);
    ("packaging/homebrew/lazycelery.rb",
       Seq [Lit ("url " +:+ chr dq); Star dot; Lit "v"; Group (Plus digit_or_dot);
            Lit (".tar.gz" +:+ chr dq)]);
    ("packaging/scoop/lazycelery.json",
       Seq [Lit (q "version" +:+ ":"); Star space; Lit (chr dq);
            Group (Plus (none_of (chr dq))); Lit (chr dq)]);
    ("packaging/snap/snapcraft.yaml",
       Seq [Lit "version:"; Star space; Lit "'"; Group (Plus (none_of "'")); Lit "'"]);
    ("packaging/aur/PKGBUILD", Seq [Lit "pkgver="; Group (Plus digit_or_dot)]);
    ("packaging/aur/PKGBUILD-bin", Seq [Lit "pkgver="; Group (Plus digit_or_dot)]) ].

(** One turn of the loop of [validate_package_versions]. *)
Definition check_package_file (fs : fsys) (cargo_version : string)
    (st : bool * validator) (entry : string * re) : bool * validator :=
  let '(file_path, pattern) := entry in
  match read fs file_path with
  | None => (fst st, add_warning ("Package file not found: " +:+ file_path) (snd st))
  | Some content =>
      match search_group1 pattern content with
      | Some found_version =>
          if negb (String.eqb found_version cargo_version)
          then (false,
                add_error ("Version mismatch in " +:+ file_path +:+ ": found="
                           +:+ found_version +:+ ", expected=" +:+ cargo_version)
                          (snd st))
          else st
      | None =>
          (fst st, add_warning ("Could not find version in " +:+ file_path) (snd st))
      end
  end.

Definition validate_package_versions (fs : fsys) (v : validator) : bool * validator :=
  let '(cargo_version, v) := get_cargo_version fs v in
  if negb (truthy cargo_version)
  then (false, add_error "Could not determine version from Cargo.toml" v)
  else if negb (dir_exists fs "packaging")
  then (true, add_warning "No packaging directory found" v)
  else fold_left (check_package_file fs (str_of cargo_version)) package_files (true, v).

(** [Path.suffix]: from the last dot of the last component, when that
    dot is neither its first nor its last character. *)
Definition suffix (path : string) : string :=
  let name := List.last (split "/" path) EmptyString in
  match split1 "." (rev name) with
  | Some (ext, stem) =>
      if nonempty ext && nonempty stem then String "." (rev ext) else EmptyString
  | None => EmptyString
  end.

Definition hash_suffixes : list string := [".rb"; ".json"; ".yaml"; ".yml"; ".nuspec"].

(** One turn of the loop of [check_placeholder_hashes], over the files
    below [packaging/]. *)
Definition check_placeholder (v : validator) (entry : string * string) : validator :=
  let '(file_path, content) := entry in
  if startswith "packaging/" file_path
     && bool_decide (suffix file_path ∈ hash_suffixes)
     && contains "PLACEHOLDER_SHA256" content
  then add_warning ("Placeholder SHA256 found in " +:+ file_path) v
  else v.

(** The files come in the order of the map; [rglob] promises none. *)
Definition check_placeholder_hashes (fs : fsys) (v : validator) : bool * validator :=
  if negb (dir_exists fs "packaging") then (true, v)
  else (true, fold_left check_placeholder (map_to_list (files fs)) v).

Definition validate_all (fs : fsys) (v : validator) : bool * validator :=
  let '(rust_ok, v) := validate_rust_versions fs v in
  let '(package_ok, v) := validate_package_versions fs v in
  let '(_, v) := check_placeholder_hashes fs v in
  (rust_ok && package_ok, v).

(** *** Fix mode *)

(** What the Checker does to the world outside it. *)
Inductive effect : Type :=
| Wrote (path : string)
| Ran (argv : list string).

Record world : Type := {
  fs : fsys;
  log : list effect
}.

Definition write_file (path content : string) (w : world) : world :=
  {| fs := write path content (fs w); log := log w ++ [Wrote path] |}.

Inductive status : Type :=
| Returned (value : bool)
| ReError.

Section Environment.

(** What [re] makes of a replacement template that holds a backslash:
    [None] when it raises [re.error], else the replacement as a function
    of the matched text. *)
Variable re_template : string -> option (string -> string).

(** The network, as the generator run by [fix_package_versions] sees it. *)
Variable calculate_sha256_from_url : string -> option string.

(** A template without a backslash is used as it stands. *)
Definition expand_template (template : string) : option (string -> string) :=
  if mem bslash template then re_template template else Some (fun _ => template).

(** The two patterns of [fix_rust_versions]: the text [rust-version = ]
    with a double-quoted run of characters other than the double quote,
    and [FROM rust:[0-9.]+]. *)
Definition cargo_rust_re : re :=
  Seq [Lit ("rust-version = " +:+ chr dq); Star (none_of (chr dq)); Lit (chr dq)].
Definition docker_from_re : re := Seq [Lit "FROM rust:"; Plus digit_or_dot].

(** One of the two rewrites of [fix_rust_versions]. *)
Definition fix_file (path : string) (pattern : re) (template : string)
    (st : status * world) : status * world :=
  match st with
  | (ReError, _) => st
  | (Returned fixed_any, w) =>
      match read (fs w) path with
      | None => st
      | Some content =>
          match expand_template template with
          | None => (ReError, w)
          | Some repl =>
              let new_content := re_sub pattern repl content in
              if negb (String.eqb new_content content)
              then (Returned true, write_file path new_content w)
              else st
          end
      end
  end.

Definition fix_rust_versions (target_version : string) (w : world) : status * world :=
  let st := (Returned false, w) in
  let st := fix_file "Cargo.toml" cargo_rust_re
              ("rust-version = " +:+ q target_version) st in
  let st := fix_file "Dockerfile" docker_from_re
              ("FROM rust:" +:+ target_version) st in
  st.

Definition generate_script : string := "packaging/generate_packages.py".

(** The generator is run with its own path as only argument. *)
Definition fix_package_versions (target_version : string) (w : world) : bool * world :=
  if negb (file_exists (fs w) generate_script) then (false, w)
  else
    let argv := [generate_script] in
    let '(returncode, fs') :=
      GeneratePackages.main calculate_sha256_from_url argv (fs w) in
    ((returncode =? 0)%Z, {| fs := fs'; log := log w ++ [Ran argv] |}).

(** How the process ends: its status, the validator and the world. *)
Record finish : Type := {
  exit_status : Z;
  report : validator;
  after : world
}.

Definition exit_with (is_valid : bool) (v : validator) (w : world) : finish :=
  {| exit_status := if is_valid then 0%Z else 1%Z; report := v; after := w |}.

(** [main], with [fix_mode] for [args.fix].  An [re.error] that nothing
    catches ends the process with status 1. *)
Definition main (fix_mode : bool) (fs0 : fsys) : finish :=
  let w := {| fs := fs0; log := [] |} in
  let validator := new_validator in
  let '(is_valid, validator) := validate_all (fs w) validator in
  if fix_mode && negb is_valid then
    let mise_rust := get_mise_rust_version (fs w) in
    let '(cargo_version, validator) := get_cargo_version (fs w) validator in
    let st :=
      if truthy mise_rust then fix_rust_versions (str_of mise_rust) w
      else (Returned false, w) in
    match st with
    | (ReError, w) => {| exit_status := 1%Z; report := validator; after := w |}
    | (Returned _, w) =>
        let w :=
          if truthy cargo_version
          then snd (fix_package_versions (str_of cargo_version) w)
          else w in
        let validator := clear validator in
        let '(is_valid, validator) := validate_all (fs w) validator in
        exit_with is_valid validator w
    end
  else exit_with is_valid validator w.

End Environment.

End ValidateVersions.

(** * Vocabulary of the statements *)

Import PyStr Re Sys GeneratePackages ValidateVersions.

(** ** Predicates and functions of the statements *)

Definition letters (s : string) : list ascii := list_ascii_of_string s.

(** What the six generators return for one metadata mapping, hashing
    disabled, by output path. *)
Definition outputs (net : string -> option string) (md : metadata)
    : list (string * result string) :=
  map (fun entry => (fst entry, snd entry md false)) (generators net).

(** [grows base st]: the pass has appended errors to [base], and its
    verdict so far is good exactly when it has appended none. *)
Definition grows (base : list string) (st : bool * validator) : Prop :=
  exists added, errors (snd st) = base ++ added /\ (fst st = true <-> added = []).

(** [bad msg st]: the verdict is bad and [msg] is among the errors. *)
Definition bad (msg : string) (st : bool * validator) : Prop :=
  fst st = false /\ In msg (errors (snd st)).

(** [part t s]: the text [t] lies somewhere in [s]. *)
Definition part (t s : string) : Prop := exists a b, s = a +:+ t +:+ b.

Fixpoint take_while (p : ascii -> bool) (s : string) : string :=
  match s with
  | EmptyString => EmptyString
  | String c rest => if p c then String c (take_while p rest) else EmptyString
  end.

(** The declaration line the claim is about, for a version [v]. *)
Definition rust_version_line (v : string) : string := "rust-version = " +:+ q v.





(** [s] stops a run of [p]: it is empty or starts outside [p]. *)
Definition stops (p : ascii -> bool) (s : string) : bool :=
  match s with
  | EmptyString => true
  | String c _ => negb (p c)
  end.

(** The grammar of the specification: MAJOR.MINOR.PATCH, then optionally
    a hyphen and a prerelease of alphanumerics, hyphens and dots. *)
Definition number (s : string) : Prop := s <> EmptyString /\ all is_digit s = true.

Definition prerelease (s : string) : Prop :=
  s <> EmptyString /\ all alnum_dash_dot s = true.

Inductive semver : string -> Prop :=
| semver_release (major minor patch : string) :
    number major -> number minor -> number patch ->
    semver (major +:+ "." +:+ minor +:+ "." +:+ patch)
| semver_prerelease (major minor patch pre : string) :
    number major -> number minor -> number patch -> prerelease pre ->
    semver (major +:+ "." +:+ minor +:+ "." +:+ patch +:+ "-" +:+ pre).

(** What follows the patch number in [version_re], and what follows the
    start of the subject. *)
Definition suffix_re : re :=
  Seq [Opt (Group (Cat (Lit "-") (Plus alnum_dash_dot))); Eos].

Definition numbers_re : re :=
  Cat (Plus digit) (Cat (Lit ".") (Cat (Plus digit) (Cat (Lit ".")
    (Cat (Plus digit) suffix_re)))).

(** The end of the subject, as [$] sees it. *)
Definition ending (s : string) : Prop := s = EmptyString \/ s = chr lf.

(** A value between brackets, which the generator takes for a list. *)
Definition bracketed (value : string) : bool :=
  startswith "[" value && endswith "]" value.

(** A line that is not the header of the package section. *)
Definition outside_package (l : string) : Prop := strip l <> "[package]".

(** What the generator and the Checker read for one key agree: the same
    text, or a list for the one and a text between brackets for the
    other, or nothing for both. *)
Definition agree (x : option pyval) (y : option string) : Prop :=
  match x with
  | Some (VStr v) => y = Some v /\ bracketed v = false
  | Some (VList _) => exists w, y = Some w /\ bracketed w = true
  | None => y = None
  end.

(** A character of a bare key: a letter, a digit, a hyphen or an
    underscore. *)
Definition bare (c : ascii) : bool := is_alnum c || Ascii.eqb c "-" || Ascii.eqb c "_".

Definition bare_key (key : string) : Prop := key <> EmptyString /\ all bare key = true.

Definition is_quote (c : ascii) : bool := mem c GeneratePackages.quotes.

(** A value that is read back as it was written between double quotes:
    one line, no quote at either end, not between brackets. *)
Definition plain_value (value : string) : Prop :=
  mem lf value = false
  /\ stops is_quote value = true
  /\ stops is_quote (rev value) = true
  /\ bracketed value = false.

(** A code point of ASCII. *)
Definition is_ascii (c : ascii) : bool := between 0 127 c.



(** The line that declares [key] as [value]. *)
Definition declaration (key value : string) : string :=
  key +:+ " = " +:+ GeneratePackages.q value.

(** A package section of such lines. *)
Definition package_section (pairs : list (string * string)) : string :=
  unlines ("[package]" :: map (fun kv => declaration (fst kv) (snd kv)) pairs).

(** The URLs [validate_url] is written for: a scheme, a host name of
    letters, digits, hyphens and dots, and optionally a slash and a path
    on the same line. *)
Definition hostname (s : string) : Prop :=
  s <> EmptyString /\ all alnum_dash_dot s = true.

Definition scheme (s : string) : Prop := s = "http" \/ s = "https".

Inductive url : string -> Prop :=
| url_host (sch host : string) :
    scheme sch -> hostname host -> url (sch +:+ "://" +:+ host)
| url_path (sch host path : string) :
    scheme sch -> hostname host -> mem lf path = false ->
    url (sch +:+ "://" +:+ host +:+ "/" +:+ path).

(** What follows the host name in [url_re], and what follows the scheme. *)
Definition url_tail_re : re :=
  Seq [Opt (Group (Cat (Lit "/") (Star dot))); Eos].

Definition url_host_re : re := Cat (Plus alnum_dash_dot) url_tail_re.

(** The path [main] of the generator writes an entry of [generators] to. *)
Definition output_path (file_path : string) : string :=
  script_dir +:+ "/" +:+ file_path.

(** The loop of [main] can write the file at [path]: no directory above
    it is a regular file, and it is not a directory itself. *)
Definition writable (disk : fsys) (path : string) : bool :=
  negb (blocked disk path) && negb (dir_exists disk path).

(** What a turn of the loop that has generated [content] leaves at
    [path]: the content where the file can be written, what was there
    otherwise. *)
Definition written (disk : fsys) (path content : string) : option string :=
  if writable disk path then Some content else read disk path.

(** Paths of which none is another, or a directory above another or
    above itself. *)
Definition apart (paths : list string) : Prop :=
  NoDup paths /\ Forall (fun p => Forall (fun q => p ∉ ancestors q) paths) paths.

(** The flag [calculate_hashes] of [main]. *)
Definition hashes_asked (argv : list string) : bool :=
  bool_decide ("--calculate-hashes" ∈ argv).

(** Cargo.toml and .mise.toml both give a toolchain version, the two are
    the same, and the Dockerfile gives that version or none. *)
Definition toolchains_agree (disk : fsys) : Prop :=
  truthy (get_cargo_rust_version disk) = true
  /\ get_mise_rust_version disk = get_cargo_rust_version disk
  /\ (get_dockerfile_rust_version disk = get_cargo_rust_version disk
      \/ truthy (get_dockerfile_rust_version disk) = false).



(** The file at [path] is one [check_placeholder_hashes] warns about. *)
Definition holds_placeholder (disk : fsys) (path : string) : Prop :=
  exists content,
    read disk path = Some content
    /\ startswith "packaging/" path = true
    /\ suffix path ∈ hash_suffixes
    /\ contains "PLACEHOLDER_SHA256" content = true.

(** What a run of the Checker may do, in the order it may do it. *)
Definition fix_effects : list effect :=
  [ Wrote "Cargo.toml"; Wrote "Dockerfile"; Ran [generate_script] ].

(** The files a run of the Checker with the fix flag may write. *)
Definition fix_targets (net : string -> option string) : list string :=
  "Cargo.toml" :: "Dockerfile"
  :: map (fun entry => output_path (fst entry)) (generators net).

(** The line of a Dockerfile that names the image of the toolchain. *)
Definition from_rust_line (version rest : string) : string :=
  "FROM rust:" +:+ version +:+ rest.

(** A version as the patterns of the Dockerfile and of the PKGBUILD take
    it: digits and dots. *)
Definition dotted (version : string) : Prop :=
  version <> EmptyString /\ all digit_or_dot version = true.

(** The patterns of [package_files], by name. *)
Definition nuspec_re : re :=
  Seq [Lit "<version>"; Group (Plus (none_of "<")); Lit "</version>"].

Definition brew_re : re :=
  Seq [Lit ("url " +:+ chr dq); Star dot; Lit "v"; Group (Plus digit_or_dot);
       Lit (".tar.gz" +:+ chr dq)].

Definition scoop_re : re :=
  Seq [Lit (q "version" +:+ ":"); Star space; Lit (chr dq);
       Group (Plus (none_of (chr dq))); Lit (chr dq)].

Definition snap_re : re :=
  Seq [Lit "version:"; Star space; Lit "'"; Group (Plus (none_of "'")); Lit "'"].

Definition pkgver_re : re := Seq [Lit "pkgver="; Group (Plus digit_or_dot)].

(** ** Example projects *)

(** The metadata of a configuration that gives none of the fields. *)
Definition default_metadata : metadata := metadata_of ∅.

(** A configuration whose description is a shell command substitution. *)
Definition injected_cargo_toml : string :=
  unlines [ "[package]";
            "name = 'lazycelery'";
            "version = '0.4.0'";
            "description = '$(id)'" ].

Definition injected_metadata : metadata :=
  metadata_of (GeneratePackages.parse_toml_simple injected_cargo_toml).





(** A project whose three toolchain versions agree, with one generated
    manifest that still holds the placeholder hash. *)
Definition consistent_cargo_toml : string :=
  unlines [ "[package]";
            "name = 'lazycelery'";
            "version = '1.2.3'";
            "rust-version = '1.75.0'" ].

Definition consistent_disk : fsys :=
  {| files :=
       {[ "Cargo.toml" := consistent_cargo_toml;
          ".mise.toml" := unlines [ "[tools]"; "rust = '1.75.0'" ];
          "Dockerfile" := unlines [ "FROM rust:1.75.0 AS builder"; "RUN cargo build" ];
          "packaging/generate_packages.py" := "#!/usr/bin/env python3";
          "packaging/scoop/lazycelery.json" :=
            GeneratePackages.dumps 0
              (GeneratePackages.JObj
                 [ ("version", GeneratePackages.JStr "1.2.3");
                   ("hash", GeneratePackages.JStr "PLACEHOLDER_SHA256") ]) ]};
     dirs := {[ "packaging"; "packaging/scoop" ]} |}.

(** A library environment for the examples: no template with a
    backslash is accepted, and no URL can be fetched. *)
Definition no_template : string -> option (string -> string) := fun _ => None.

Definition offline : string -> option string := fun _ => None.

(** Cargo.toml and .mise.toml agree on 1.75.0 and there is no Dockerfile. *)
Definition no_dockerfile_disk : fsys :=
  {| files :=
       {[ "Cargo.toml" := consistent_cargo_toml;
          ".mise.toml" := unlines [ "[tools]"; "rust = '1.75.0'" ] ]};
     dirs := ∅ |}.

(** Neither file gives a toolchain version. *)
Definition no_versions_disk : fsys :=
  {| files :=
       {[ "Cargo.toml" := unlines [ "[package]"; "version = '1.2.3'" ];
          ".mise.toml" := unlines [ "[tools]"; "node = '20'" ] ]};
     dirs := ∅ |}.


(** Cargo.toml declares 1.74.0 in the expected form, below a comment and
    above another key. *)
Definition drifted_disk : fsys :=
  {| files :=
       {[ "Cargo.toml" :=
            unlines ([ "[package]"; "# minimum toolchain"; "version = '1.2.3'" ]
                     ++ rust_version_line "1.74.0" :: [ "edition = '2021'" ]);
          ".mise.toml" := unlines [ "[tools]"; "rust = '1.75.0'" ] ]};
     dirs := ∅ |}.



(** The version 1.2.3 followed by a newline. *)
Definition version_with_newline : string := "1.2.3" +:+ chr lf.

(** A configuration with no package section. *)
Definition dependencies_only_disk : fsys :=
  {| files := {[ "Cargo.toml" :=
                   unlines [ "[dependencies]"; "version = '9.9.9'"; "name = 'other'" ] ]};
     dirs := ∅ |}.

(** A configuration whose version has two numbers only. *)
Definition short_version_disk : fsys :=
  {| files := {[ "Cargo.toml" := unlines [ "[package]"; "version = '1.2'" ] ]};
     dirs := ∅ |}.


(** A Dockerfile of two stages, the second on a slim image of the
    toolchain. *)
Definition slim_dockerfile_disk : fsys :=
  {| files := {[ "Dockerfile" :=
                   unlines ([ "# build stage"; "FROM debian:12 AS base" ]
                            ++ from_rust_line "1.75" "-slim AS builder"
                            :: [ "RUN cargo build --release" ]) ]};
     dirs := ∅ |}.

(** A .mise.toml that pins three tools below a section of its own. *)
Definition mise_disk : fsys :=
  {| files := {[ ".mise.toml" :=
                   unlines ([ "[env]"; "RUST_LOG = 'info'" ] ++ "[tools]"
                            :: [ "node = '20'" ]
                            ++ declaration "rust" "1.75.0" :: [ "python = '3.12'" ]) ]};
     dirs := ∅ |}.

(** * Properties *)

Import PyStr Re Sys.

(** ** Strings *)

Lemma mem_In (c : ascii) (chars : string) :
  mem c chars = true <-> In c (letters chars).
Proof.
  induction chars as [|d rest IH]; simpl.
  - split; [discriminate | tauto].
  - rewrite orb_true_iff, IH, Ascii.eqb_eq. split; intros [H|H]; auto.
Qed.

Lemma all_Forall (p : ascii -> bool) (s : string) :
  all p s = true <-> (forall c, In c (letters s) -> p c = true).
Proof.
  induction s as [|d rest IH]; simpl.
  - split; [intros _ c [] | reflexivity].
  - rewrite andb_true_iff, IH. split.
    + intros [Hd Hr] c [<-|Hc]; auto.
    + intros H. split; [apply H; auto | intros c Hc; apply H; auto].
Qed.

Lemma all_false_witness (p : ascii -> bool) (s : string) (c : ascii) :
  In c (letters s) -> p c = false -> all p s = false.
Proof.
  intros Hc Hp. destruct (all p s) eqn:E; [|reflexivity].
  rewrite all_Forall in E. rewrite (E c Hc) in Hp. discriminate.
Qed.

(** ** The sanitizer *)

Import GeneratePackages.

Lemma default_allowed_chars_mem (c : ascii) :
  mem c default_allowed_chars = is_alnum c || mem c ".-_/:".
Proof.
  destruct c as [[] [] [] [] [] [] [] []]; reflexivity.
Qed.

Lemma between_spec (lo hi : N) (c : ascii) :
  between lo hi c = true <-> (lo <= code c <= hi)%N.
Proof.
  unfold between. rewrite andb_true_iff, !N.leb_le. tauto.
Qed.

(** C7.  [sanitize_input] returns a text unchanged when it is within
    the length bound and all its characters are in the charset; it
    raises ValueError when a character is outside the charset, when the
    text is longer than [max_length], and when the value is not a text;
    the default charset holds exactly the ASCII letters, the digits and
    the five characters [. - _ / :]. *)
Theorem sanitize_input_spec :
  (forall (s : string) (max_length : Z) (allowed_chars : option string),
      (Z.of_nat (String.length s) <= max_length)%Z ->
      (forall c, In c (letters s) ->
                 In c (letters (default default_allowed_chars allowed_chars))) ->
      sanitize_input (VStr s) max_length allowed_chars = Ok s)
  /\ (forall (s : string) (max_length : Z) (allowed_chars : option string) (c : ascii),
      In c (letters s) ->
      ~ In c (letters (default default_allowed_chars allowed_chars)) ->
      sanitize_input (VStr s) max_length allowed_chars = Raise ValueError)
  /\ (forall (s : string) (max_length : Z) (allowed_chars : option string),
      (max_length < Z.of_nat (String.length s))%Z ->
      sanitize_input (VStr s) max_length allowed_chars = Raise ValueError)
  /\ (forall (items : list string) (max_length : Z) (allowed_chars : option string),
      sanitize_input (VList items) max_length allowed_chars = Raise ValueError)
  /\ (forall c : ascii,
      In c (letters default_allowed_chars) <->
      ((97 <= code c <= 122)%N \/ (65 <= code c <= 90)%N \/ (48 <= code c <= 57)%N
       \/ In c (letters ".-_/:"))).
Proof.
  repeat split.
  - intros s n chars Hlen Hin. unfold sanitize_input.
    destruct (Z.ltb_spec n (Z.of_nat (String.length s))) as [Hlt|_]; [lia|].
    replace (all _ s) with true; [reflexivity|]. symmetry.
    apply all_Forall. intros c Hc. apply mem_In, Hin, Hc.
  - intros s n chars c Hc Hout. unfold sanitize_input.
    destruct (n <? Z.of_nat (String.length s))%Z; [reflexivity|].
    rewrite (all_false_witness _ s c Hc); [reflexivity|].
    destruct (mem c _) eqn:E; [|reflexivity].
    apply mem_In in E. contradiction.
  - intros s n chars Hlt. unfold sanitize_input.
    destruct (Z.ltb_spec n (Z.of_nat (String.length s))) as [_|Hge]; [reflexivity|lia].
  - intros H. apply mem_In in H. rewrite default_allowed_chars_mem in H.
    unfold is_alnum, is_lower, is_upper, is_digit in H.
    rewrite !orb_true_iff, !between_spec, mem_In in H. tauto.
  - intros H. apply mem_In. rewrite default_allowed_chars_mem.
    unfold is_alnum, is_lower, is_upper, is_digit.
    rewrite !orb_true_iff, !between_spec, mem_In. tauto.
Qed.

(** A text of the default charset goes through. *)
Lemma sanitize_input_spec_witness :
  sanitize_input (VStr "lazycelery-0.4.0") 256 None = Ok "lazycelery-0.4.0".
Proof.
  apply (proj1 sanitize_input_spec).
  - simpl. lia.
  - intros c Hc. apply mem_In.
    change (default default_allowed_chars None) with default_allowed_chars.
    simpl in Hc. repeat (destruct Hc as [<-|Hc]; [reflexivity|]). destruct Hc.
Defined.

(** ** The generators *)

Lemma sanitize_input_Ok (v : pyval) (n : Z) (chars : option string) (s : string) :
  sanitize_input v n chars = Ok s -> v = VStr s.
Proof.
  unfold sanitize_input. destruct v as [t|items]; [|discriminate].
  destruct (n <? _)%Z; [discriminate|].
  destruct (all _ t); [|discriminate]. congruence.
Qed.

Lemma validate_with_Ok (pattern : re) (v : pyval) (s : string) :
  validate_with pattern v = Ok s -> v = VStr s.
Proof.
  unfold validate_with. destruct v as [t|items]; [|discriminate].
  destruct (re_match pattern t); [|discriminate]. congruence.
Qed.

(** Take apart a chain of binds that ended in [Ok]. *)
Ltac unbind H :=
  unfold bind in H;
  repeat match type of H with
         | context [match ?m with Ok _ => _ | Raise _ => _ end] =>
             let E := fresh "E" in destruct m eqn:E; [|discriminate H]
         end.

(** Without hashing no generator looks at the network. *)
Lemma sha256_hash_for_false (net : string -> option string) (url : string) :
  sha256_hash_for net false url = PLACEHOLDER_SHA256.
Proof. reflexivity. Qed.

(** C6.  With hashing disabled the six generators are functions of the
    metadata alone: whatever the network would answer (the only thing
    outside its arguments a generator can look at), each of them returns
    the same text, or raises the same exception. *)
Theorem generators_deterministic (net1 net2 : string -> option string)
    (md : metadata) :
  outputs net1 md = outputs net2 md
  /\ generate_pkgbuild_source net1 md false = generate_pkgbuild_source net2 md false
  /\ generate_pkgbuild_bin net1 md false = generate_pkgbuild_bin net2 md false
  /\ generate_homebrew_formula net1 md false = generate_homebrew_formula net2 md false
  /\ generate_scoop_manifest net1 md false = generate_scoop_manifest net2 md false.
Proof.
  repeat split.
Qed.

(** C1, as amended.  A generator that returns has passed the name through
    [sanitize_input] (at most 50 characters of [a-z0-9-]), the version
    through [validate_version] and the repository through [validate_url];
    the four generators that embed the homepage have passed it through
    [validate_url].  The text returned is the template filled with these
    validated values and with the description, the license, the first
    author and the keywords as the metadata holds them. *)
Theorem generators_validate_critical_fields
    (net : string -> option string) (md : metadata) (calc : bool) (out : string) :
  (generate_pkgbuild_source net md calc = Ok out ->
   exists author name version repository homepage,
     sanitize_input (md_name md) 50 (Some name_chars) = Ok name
     /\ validate_version (md_version md) = Ok version
     /\ validate_url (md_repository md) = Ok repository
     /\ validate_url (md_homepage md) = Ok homepage
     /\ first_author md = Ok author
     /\ out = pkgbuild_source_text md author name version repository homepage
                (sha256_hash_for net calc
                   (repository +:+ "/archive/v" +:+ version +:+ ".tar.gz")))
  /\ (generate_pkgbuild_bin net md calc = Ok out ->
   exists author name version repository homepage,
     sanitize_input (md_name md) 50 (Some name_chars) = Ok name
     /\ validate_version (md_version md) = Ok version
     /\ validate_url (md_repository md) = Ok repository
     /\ validate_url (md_homepage md) = Ok homepage
     /\ first_author md = Ok author
     /\ out = pkgbuild_bin_text md author name version repository homepage
                (sha256_hash_for net calc
                   (repository +:+ "/releases/download/v" +:+ version +:+ "/" +:+ name
                    +:+ "-linux-x86_64.tar.gz")))
  /\ (generate_homebrew_formula net md calc = Ok out ->
   exists name version repository homepage,
     sanitize_input (md_name md) 50 (Some name_chars) = Ok name
     /\ validate_version (md_version md) = Ok version
     /\ validate_url (md_repository md) = Ok repository
     /\ validate_url (md_homepage md) = Ok homepage
     /\ out = homebrew_formula_text md name version repository homepage
                (sha256_hash_for net calc
                   (repository +:+ "/archive/v" +:+ version +:+ ".tar.gz")))
  /\ (generate_chocolatey_nuspec md calc = Ok out ->
   exists first name version repository,
     sanitize_input (md_name md) 50 (Some name_chars) = Ok name
     /\ validate_version (md_version md) = Ok version
     /\ validate_url (md_repository md) = Ok repository
     /\ first_author md = Ok first
     /\ out = chocolatey_nuspec_text md (strip (hd EmptyString (split "<" first)))
                (tags_of (md_keywords md)) name version repository)
  /\ (generate_scoop_manifest net md calc = Ok out ->
   exists name version repository homepage,
     sanitize_input (md_name md) 50 (Some name_chars) = Ok name
     /\ validate_version (md_version md) = Ok version
     /\ validate_url (md_repository md) = Ok repository
     /\ validate_url (md_homepage md) = Ok homepage
     /\ out = dumps 0 (scoop_manifest md name version repository homepage
                (sha256_hash_for net calc
                   (repository +:+ "/releases/download/v" +:+ version +:+ "/" +:+ name
                    +:+ "-windows-x86_64.zip"))))
  /\ (generate_snapcraft_yaml md calc = Ok out ->
   exists name version repository,
     sanitize_input (md_name md) 50 (Some name_chars) = Ok name
     /\ validate_version (md_version md) = Ok version
     /\ validate_url (md_repository md) = Ok repository
     /\ out = snapcraft_yaml_text md name version repository).
Proof.
  repeat split; intros H.
  - unfold generate_pkgbuild_source in H. unbind H. injection H as <-.
    repeat eexists; eauto.
  - unfold generate_pkgbuild_bin in H. unbind H. injection H as <-.
    repeat eexists; eauto.
  - unfold generate_homebrew_formula in H. unbind H. injection H as <-.
    repeat eexists; eauto.
  - unfold generate_chocolatey_nuspec in H. unbind H. injection H as <-.
    repeat eexists; eauto.
  - unfold generate_scoop_manifest in H. unbind H. injection H as <-.
    repeat eexists; eauto.
  - unfold generate_snapcraft_yaml in H. unbind H. injection H as <-.
    repeat eexists; eauto.
Qed.

Lemma generators_validate_critical_fields_witness :
  exists name version repository,
    sanitize_input (md_name default_metadata) 50 (Some name_chars) = Ok name
    /\ validate_version (md_version default_metadata) = Ok version
    /\ validate_url (md_repository default_metadata) = Ok repository
    /\ snapcraft_yaml_text default_metadata "lazycelery" "0.4.0"
         "https://github.com/Fguedes90/lazycelery"
       = snapcraft_yaml_text default_metadata name version repository.
Proof.
  apply (generators_validate_critical_fields (fun _ => None) default_metadata false
           (snapcraft_yaml_text default_metadata "lazycelery" "0.4.0"
              "https://github.com/Fguedes90/lazycelery")).
  vm_compute. reflexivity.
Defined.

(** C1 fails as stated: the description of this configuration passes none
    of the validators, and the source PKGBUILD is rendered with it inside
    the double quotes of [pkgdesc]. *)
Lemma description_reaches_pkgbuild_unvalidated :
  md_description injected_metadata = VStr "$(id)"
  /\ sanitize_input (md_description injected_metadata) 256 None = Raise ValueError
  /\ sanitize_input (md_description injected_metadata) 50 (Some name_chars)
     = Raise ValueError
  /\ validate_version (md_description injected_metadata) = Raise ValueError
  /\ validate_url (md_description injected_metadata) = Raise ValueError
  /\ exists out,
       generate_pkgbuild_source (fun _ => None) injected_metadata false = Ok out
       /\ contains ("pkgdesc=" +:+ q "$(id)") out = true.
Proof.
  repeat split; try (vm_compute; reflexivity).
  eexists. split; vm_compute; reflexivity.
Qed.

(** ** The checker: errors and the verdict *)

Import ValidateVersions.

Lemma grows_start (v : validator) : grows (errors v) (true, v).
Proof. exists []. rewrite app_nil_r. tauto. Qed.

Lemma grows_error (base : list string) (st : bool * validator) (msg : string) :
  grows base st -> grows base (false, add_error msg (snd st)).
Proof.
  intros (added & E & _). exists (added ++ [msg]). simpl. rewrite E, app_assoc.
  split; [reflexivity|]. split; [discriminate|].
  intros H. destruct added; discriminate H.
Qed.

Lemma grows_warning (base : list string) (st : bool * validator) (msg : string) :
  grows base st -> grows base (fst st, add_warning msg (snd st)).
Proof. intros (added & E & V). exists added. simpl. auto. Qed.

Lemma grows_compare (base : list string) (a b : string) (x y : option string)
    (st : bool * validator) :
  grows base st -> grows base (compare_rust a x b y st).
Proof.
  intros G. unfold compare_rust.
  destruct (truthy x && truthy y); [|exact G].
  destruct (negb _); [apply grows_error, G | exact G].
Qed.

Lemma validate_rust_versions_grows (disk : fsys) (v : validator) :
  grows (errors v) (validate_rust_versions disk v).
Proof.
  unfold validate_rust_versions.
  repeat apply grows_compare.
  destruct (negb (truthy (get_dockerfile_rust_version disk)));
    [apply grows_warning|];
    (destruct (negb (truthy (get_mise_rust_version disk))); [apply grows_error|]);
    (destruct (negb (truthy (get_cargo_rust_version disk))); [apply grows_error|]);
    apply grows_start.
Qed.




Lemma check_placeholder_errors (v : validator) (entry : string * string) :
  errors (check_placeholder v entry) = errors v.
Proof.
  unfold check_placeholder. destruct entry as [file_path content].
  destruct (_ && _); reflexivity.
Qed.

Lemma check_placeholder_hashes_errors (disk : fsys) (v : validator) :
  errors (snd (check_placeholder_hashes disk v)) = errors v.
Proof.
  unfold check_placeholder_hashes.
  destruct (negb (dir_exists disk "packaging")); [reflexivity|]. simpl.
  generalize (map_to_list (files disk)). intros entries. revert v.
  induction entries as [|entry rest IH]; intros v; simpl; [reflexivity|].
  rewrite IH. apply check_placeholder_errors.
Qed.




Section Checker.

Variable re_template : string -> option (string -> string).
Variable net : string -> option string.

Abbreviation checker_main := (ValidateVersions.main re_template net).


(** C10.  With the fix flag set and a first pass that is good, the
    Checker does what it does without the flag: it writes no file and
    runs no subprocess, and leaves the files as it found them. *)
Theorem fix_skipped_when_valid (disk : fsys) :
  fst (validate_all disk new_validator) = true ->
  checker_main true disk = checker_main false disk
  /\ after (checker_main true disk) = {| fs := disk; log := [] |}.
Proof.
  intros Hvalid. unfold ValidateVersions.main. cbn [fs].
  destruct (validate_all disk new_validator) as [is_valid v1].
  simpl in Hvalid. subst is_valid. simpl. split; reflexivity.
Qed.

End Checker.

(** Warnings alone leave the status at 0. *)
Example warnings_do_not_fail :
  let r := ValidateVersions.main no_template offline false consistent_disk in
  exit_status r = 0%Z
  /\ errors (report r) = []
  /\ In "Placeholder SHA256 found in packaging/scoop/lazycelery.json" (warnings (report r)).
Proof. vm_compute. intuition. Qed.

Lemma fix_skipped_when_valid_witness :
  ValidateVersions.main no_template offline true consistent_disk
  = ValidateVersions.main no_template offline false consistent_disk
  /\ after (ValidateVersions.main no_template offline true consistent_disk)
     = {| fs := consistent_disk; log := [] |}.
Proof.
  apply (fix_skipped_when_valid no_template offline consistent_disk).
  vm_compute. reflexivity.
Defined.

(** ** The checker: toolchain versions *)

Lemma bad_now (msg : string) (st : bool * validator) :
  bad msg (false, add_error msg (snd st)).
Proof. split; [reflexivity|]. simpl. apply in_or_app. right. left. reflexivity. Qed.

Lemma bad_error (msg other : string) (st : bool * validator) :
  bad msg st -> bad msg (false, add_error other (snd st)).
Proof. intros [_ H]. split; [reflexivity|]. simpl. apply in_or_app. auto. Qed.

Lemma bad_warning (msg other : string) (st : bool * validator) :
  bad msg st -> bad msg (fst st, add_warning other (snd st)).
Proof. intros [H1 H2]. split; assumption. Qed.

Lemma bad_compare (msg a b : string) (x y : option string)
    (st : bool * validator) :
  bad msg st -> bad msg (compare_rust a x b y st).
Proof.
  intros H. unfold compare_rust.
  destruct (truthy x && truthy y); [|exact H].
  destruct (negb _); [apply bad_error, H | exact H].
Qed.

Lemma compare_with_absent_r (a b : string) (x y : option string)
    (st : bool * validator) :
  truthy y = false -> compare_rust a x b y st = st.
Proof. intros H. unfold compare_rust. rewrite H, andb_false_r. reflexivity. Qed.

Lemma validate_all_fails_with_rust (disk : fsys) (v : validator) :
  fst (validate_rust_versions disk v) = false -> fst (validate_all disk v) = false.
Proof.
  intros H. unfold validate_all.
  destruct (validate_rust_versions disk v) as [rust_ok v1]. simpl in H. subst.
  destruct (validate_package_versions disk v1) as [package_ok v2].
  destruct (check_placeholder_hashes disk v2). reflexivity.
Qed.

(** C4.  When Cargo.toml and .mise.toml both give a toolchain version
    and the Dockerfile gives none, [validate_rust_versions] appends the
    warning for the Dockerfile and no error for it: its verdict is the
    comparison of the two versions that are there, and its only possible
    error is their mismatch.  When Cargo.toml gives no rust-version, or
    .mise.toml no Rust version, an error says so and the verdict, also
    that of [validate_all], is bad. *)
Theorem missing_toolchain_versions (disk : fsys) (v : validator) :
  (truthy (get_cargo_rust_version disk) = true ->
   truthy (get_mise_rust_version disk) = true ->
   truthy (get_dockerfile_rust_version disk) = false ->
   let cargo_rust := str_of (get_cargo_rust_version disk) in
   let mise_rust := str_of (get_mise_rust_version disk) in
   validate_rust_versions disk v =
     (String.eqb cargo_rust mise_rust,
      {| errors :=
           errors v ++
           (if String.eqb cargo_rust mise_rust then []
            else [rust_mismatch "Cargo.toml" cargo_rust ".mise.toml" mise_rust]);
         warnings := warnings v ++ ["No Rust version found in Dockerfile"] |}))
  /\ (truthy (get_cargo_rust_version disk) = false ->
      fst (validate_rust_versions disk v) = false
      /\ fst (validate_all disk v) = false
      /\ In "No rust-version found in Cargo.toml"
            (errors (snd (validate_rust_versions disk v))))
  /\ (truthy (get_mise_rust_version disk) = false ->
      fst (validate_rust_versions disk v) = false
      /\ fst (validate_all disk v) = false
      /\ In "No Rust version found in .mise.toml"
            (errors (snd (validate_rust_versions disk v)))).
Proof.
  split; [|split].
  - intros Hc Hm Hd. cbv zeta. unfold validate_rust_versions.
    rewrite Hc, Hm, Hd. cbn [negb fst snd].
    rewrite !(compare_with_absent_r _ _ _ _ _ Hd).
    unfold compare_rust. rewrite Hc, Hm. cbn [andb].
    destruct (String.eqb _ _); cbn [negb fst snd].
    + unfold add_warning. simpl. rewrite app_nil_r. destruct v; reflexivity.
    + reflexivity.
  - intros Hc.
    assert (bad "No rust-version found in Cargo.toml" (validate_rust_versions disk v))
      as [H1 H2].
    { unfold validate_rust_versions. rewrite Hc. cbn [negb].
      repeat apply bad_compare.
      destruct (negb (truthy (get_dockerfile_rust_version disk)));
        [apply bad_warning|];
        (destruct (negb (truthy (get_mise_rust_version disk))); [apply bad_error|]);
        apply bad_now. }
    auto using validate_all_fails_with_rust.
  - intros Hm.
    assert (bad "No Rust version found in .mise.toml" (validate_rust_versions disk v))
      as [H1 H2].
    { unfold validate_rust_versions. rewrite Hm. cbn [negb].
      repeat apply bad_compare.
      destruct (negb (truthy (get_dockerfile_rust_version disk)));
        [apply bad_warning|]; apply bad_now. }
    auto using validate_all_fails_with_rust.
Qed.

Lemma missing_toolchain_versions_witness :
  validate_rust_versions no_dockerfile_disk new_validator
  = (true, {| errors := []; warnings := ["No Rust version found in Dockerfile"] |})
  /\ fst (validate_all no_versions_disk new_validator) = false
  /\ In "No rust-version found in Cargo.toml"
        (errors (snd (validate_rust_versions no_versions_disk new_validator)))
  /\ In "No Rust version found in .mise.toml"
        (errors (snd (validate_rust_versions no_versions_disk new_validator))).
Proof.
  destruct (missing_toolchain_versions no_dockerfile_disk new_validator)
    as (Hdocker & _ & _).
  destruct (missing_toolchain_versions no_versions_disk new_validator)
    as (_ & Hcargo & Hmise).
  split; [|split; [|split]].
  - apply Hdocker; reflexivity.
  - apply Hcargo. reflexivity.
  - apply Hcargo. reflexivity.
  - apply Hmise. reflexivity.
Defined.

(** ** Regeneration in fix mode *)

(** The metadata [main] of the generator goes on with has passed every
    check a generator makes, and has a first author. *)
Lemma checked_metadata_Ok (disk : fsys) (md : metadata) :
  checked_metadata disk = Ok md ->
  exists content name version repository homepage author,
    read disk "Cargo.toml" = Some content
    /\ md = metadata_of (GeneratePackages.parse_toml_simple content)
    /\ sanitize_input (md_name md) 50 (Some name_chars) = Ok name
    /\ validate_version (md_version md) = Ok version
    /\ validate_url (md_repository md) = Ok repository
    /\ validate_url (md_homepage md) = Ok homepage
    /\ first_author md = Ok author.
Proof.
  intros H. unfold checked_metadata, load_cargo_metadata in H.
  destruct (read disk "Cargo.toml") as [content|] eqn:Hread; [|discriminate H].
  unfold bind in H at 1.
  unbind H. injection H as <-.
  exists content. do 4 eexists.
  exists (match GeneratePackages.parse_toml_simple content !! "authors" with
          | None => "Unknown"
          | Some (VList []) => "Unknown"
          | Some (VList (first :: _)) => first
          | Some (VStr s) => s
          end).
  repeat split; eauto.
  unfold first_author, metadata_of, get. cbn [md_authors].
  destruct (GeneratePackages.parse_toml_simple content !! "authors")
    as [[s|[|first rest]]|]; reflexivity.
Qed.

(** *** The loop of [main] *)

Lemma checked_metadata_reads (disk disk' : fsys) :
  read disk' "Cargo.toml" = read disk "Cargo.toml" ->
  checked_metadata disk' = checked_metadata disk.
Proof.
  intros H. unfold checked_metadata, load_cargo_metadata. rewrite H. reflexivity.
Qed.

Lemma file_exists_reads (disk disk' : fsys) (path : string) :
  read disk' path = read disk path -> file_exists disk' path = file_exists disk path.
Proof. unfold file_exists, read. intros ->. reflexivity. Qed.

Lemma checked_metadata_exists (disk : fsys) (md : metadata) :
  checked_metadata disk = Ok md -> file_exists disk "Cargo.toml" = true.
Proof.
  intros H. apply checked_metadata_Ok in H.
  destruct H as (content & ? & ? & ? & ? & ? & Hread & _).
  unfold file_exists. apply bool_decide_eq_true_2.
  unfold read in Hread. rewrite Hread. eauto.
Qed.

(** With metadata that has passed the checks, each generator returns its
    template, and with the placeholder when no hash is asked for. *)
Lemma generators_render (net : string -> option string) (md : metadata) (calc : bool)
    (author name version repository homepage : string) :
  sanitize_input (md_name md) 50 (Some name_chars) = Ok name ->
  validate_version (md_version md) = Ok version ->
  validate_url (md_repository md) = Ok repository ->
  validate_url (md_homepage md) = Ok homepage ->
  first_author md = Ok author ->
  exists h1 h2 h3 h4,
    (calc = false ->
     h1 = PLACEHOLDER_SHA256 /\ h2 = PLACEHOLDER_SHA256
     /\ h3 = PLACEHOLDER_SHA256 /\ h4 = PLACEHOLDER_SHA256)
    /\ generate_pkgbuild_source net md calc
       = Ok (pkgbuild_source_text md author name version repository homepage h1)
    /\ generate_pkgbuild_bin net md calc
       = Ok (pkgbuild_bin_text md author name version repository homepage h2)
    /\ generate_homebrew_formula net md calc
       = Ok (homebrew_formula_text md name version repository homepage h3)
    /\ generate_chocolatey_nuspec md calc
       = Ok (chocolatey_nuspec_text md (strip (hd EmptyString (split "<" author)))
               (tags_of (md_keywords md)) name version repository)
    /\ generate_scoop_manifest net md calc
       = Ok (dumps 0 (scoop_manifest md name version repository homepage h4))
    /\ generate_snapcraft_yaml md calc
       = Ok (snapcraft_yaml_text md name version repository).
Proof.
  intros Hn Hv Hr Hh Ha.
  unfold generate_pkgbuild_source, generate_pkgbuild_bin, generate_homebrew_formula,
    generate_chocolatey_nuspec, generate_scoop_manifest, generate_snapcraft_yaml.
  rewrite Hn, Hv, Hr, Hh, Ha. cbn [bind].
  do 4 eexists. split; [|repeat split; reflexivity].
  intros ->. rewrite !sha256_hash_for_false. repeat split; reflexivity.
Qed.

Lemma generators_succeed (net : string -> option string) (disk : fsys) (md : metadata)
    (calc : bool) :
  checked_metadata disk = Ok md ->
  Forall (fun entry => exists out, snd entry md calc = Ok out) (generators net).
Proof.
  intros Hmd.
  destruct (checked_metadata_Ok _ _ Hmd)
    as (content & name & version & repository & homepage & author
        & _ & _ & Hn & Hv & Hr & Hh & Ha).
  destruct (generators_render net md calc author name version repository homepage
              Hn Hv Hr Hh Ha) as (h1 & h2 & h3 & h4 & _ & E1 & E2 & E3 & E4 & E5 & E6).
  unfold generators. repeat constructor; cbn [snd]; eauto.
Qed.

Lemma existsb_agree {A : Type} (f g : A -> bool) (l : list A) :
  Forall (fun a => f a = g a) l -> existsb f l = existsb g l.
Proof.
  induction 1 as [|a l Ha _ IH]; [reflexivity|]. cbn [existsb]. now rewrite Ha, IH.
Qed.

Lemma dir_exists_made (disk : fsys) (path p : string) :
  p ∉ ancestors path ->
  dir_exists {| files := files disk;
                dirs := dirs disk ∪ list_to_set (ancestors path) |} p
  = dir_exists disk p.
Proof.
  intros H. unfold dir_exists. cbn [dirs]. apply bool_decide_ext.
  rewrite elem_of_union, elem_of_list_to_set. tauto.
Qed.

(** One turn of the loop, by what can be written. *)
Lemma generate_one_raises (md : metadata) (calc : bool) (disk : fsys)
    (file_path : string) (generator : metadata -> bool -> result string) (e : exn) :
  generator md calc = Raise e ->
  generate_one md calc disk (file_path, generator) = disk.
Proof. intros H. unfold generate_one. rewrite H. reflexivity. Qed.

Lemma generate_one_blocked (md : metadata) (calc : bool) (disk : fsys)
    (entry : string * (metadata -> bool -> result string)) :
  blocked disk (output_path (fst entry)) = true ->
  generate_one md calc disk entry = disk.
Proof.
  destruct entry as [file_path generator]. cbn [fst]. unfold output_path. intros H.
  unfold generate_one, mkdir_parents. rewrite H.
  destruct (generator md calc); reflexivity.
Qed.

Lemma generate_one_made (md : metadata) (calc : bool) (disk : fsys)
    (entry : string * (metadata -> bool -> result string)) (out : string) :
  output_path (fst entry) ∉ ancestors (output_path (fst entry)) ->
  snd entry md calc = Ok out ->
  blocked disk (output_path (fst entry)) = false ->
  generate_one md calc disk entry
  = {| files := if dir_exists disk (output_path (fst entry)) then files disk
                else <[output_path (fst entry) := out]> (files disk);
       dirs := dirs disk ∪ list_to_set (ancestors (output_path (fst entry))) |}.
Proof.
  destruct entry as [file_path generator]. cbn [fst snd]. unfold output_path.
  intros Hself Hout Hfree.
  unfold generate_one, mkdir_parents, open_write. rewrite Hout, Hfree.
  rewrite (dir_exists_made _ _ _ Hself).
  destruct (dir_exists disk (script_dir +:+ "/" +:+ file_path)); reflexivity.
Qed.

Lemma generate_one_other (md : metadata) (calc : bool) (disk : fsys)
    (entry : string * (metadata -> bool -> result string)) (path : string) :
  path <> output_path (fst entry) ->
  read (generate_one md calc disk entry) path = read disk path.
Proof.
  intros H. destruct entry as [file_path generator]. cbn [fst] in H.
  unfold output_path in H. unfold generate_one, mkdir_parents, open_write.
  destruct (generator md calc); [|reflexivity].
  destruct (blocked disk _); [reflexivity|].
  destruct (dir_exists _ _); [reflexivity|].
  unfold read, write. cbn [files]. apply lookup_insert_ne.
  intros E. apply H. symmetry. exact E.
Qed.

Lemma generate_all_other (md : metadata) (calc : bool)
    (entries : list (string * (metadata -> bool -> result string)))
    (disk : fsys) (path : string) :
  path ∉ map (fun entry => output_path (fst entry)) entries ->
  read (fold_left (generate_one md calc) entries disk) path = read disk path.
Proof.
  revert disk. induction entries as [|entry entries IH]; intros disk H; [reflexivity|].
  cbn [fold_left map] in *. apply not_elem_of_cons in H as [H1 H2].
  rewrite (IH _ H2). apply generate_one_other, H1.
Qed.

Lemma generate_one_dirs (md : metadata) (calc : bool) (disk : fsys)
    (entry : string * (metadata -> bool -> result string)) :
  dirs disk ⊆ dirs (generate_one md calc disk entry).
Proof.
  destruct entry as [file_path generator]. unfold generate_one, mkdir_parents, open_write.
  destruct (generator md calc); [|reflexivity].
  destruct (blocked disk _); [reflexivity|].
  destruct (dir_exists _ _); cbn [dirs write]; apply union_subseteq_l.
Qed.

Lemma generate_all_dirs (md : metadata) (calc : bool)
    (entries : list (string * (metadata -> bool -> result string))) (disk : fsys) :
  dirs disk ⊆ dirs (fold_left (generate_one md calc) entries disk).
Proof.
  revert disk. induction entries as [|entry entries IH]; intros disk; [reflexivity|].
  cbn [fold_left]. etransitivity; [apply generate_one_dirs|apply IH].
Qed.

Lemma generate_one_dir_exists (md : metadata) (calc : bool) (disk : fsys)
    (entry : string * (metadata -> bool -> result string)) (p : string) :
  p ∉ ancestors (output_path (fst entry)) ->
  dir_exists (generate_one md calc disk entry) p = dir_exists disk p.
Proof.
  destruct entry as [file_path generator]. cbn [fst]. unfold output_path. intros H.
  unfold generate_one, mkdir_parents, open_write.
  destruct (generator md calc); [|reflexivity].
  destruct (blocked disk _); [reflexivity|].
  destruct (dir_exists _ (script_dir +:+ "/" +:+ file_path));
    apply (dir_exists_made _ _ _ H).
Qed.

Lemma generate_one_is_blocked (md : metadata) (calc : bool) (disk : fsys)
    (entry : string * (metadata -> bool -> result string)) (p : string) :
  output_path (fst entry) ∉ ancestors p ->
  blocked (generate_one md calc disk entry) p = blocked disk p.
Proof.
  intros H. unfold blocked. apply existsb_agree. apply Forall_forall.
  intros a Ha. apply file_exists_reads, generate_one_other.
  intros ->. apply H. exact Ha.
Qed.

(** A turn of the loop does not change what another turn can write. *)
Lemma generate_one_writable (md : metadata) (calc : bool) (disk : fsys)
    (entry : string * (metadata -> bool -> result string)) (p : string) :
  output_path (fst entry) ∉ ancestors p ->
  p ∉ ancestors (output_path (fst entry)) ->
  writable (generate_one md calc disk entry) p = writable disk p.
Proof.
  intros H1 H2. unfold writable.
  now rewrite generate_one_is_blocked, generate_one_dir_exists.
Qed.

Lemma generate_one_written (md : metadata) (calc : bool) (disk : fsys)
    (entry : string * (metadata -> bool -> result string)) (out : string) :
  output_path (fst entry) ∉ ancestors (output_path (fst entry)) ->
  snd entry md calc = Ok out ->
  read (generate_one md calc disk entry) (output_path (fst entry))
  = written disk (output_path (fst entry)) out.
Proof.
  intros Hself Hout. unfold written, writable.
  destruct (blocked disk (output_path (fst entry))) eqn:Hb.
  - rewrite (generate_one_blocked _ _ _ _ Hb). reflexivity.
  - rewrite (generate_one_made _ _ _ _ _ Hself Hout Hb). unfold read. cbn [files negb andb].
    destruct (dir_exists disk (output_path (fst entry))); [reflexivity|].
    apply lookup_insert_eq.
Qed.

(** Where [mkdir] does not raise, the directories are there afterwards. *)
Lemma generate_one_ancestors (md : metadata) (calc : bool) (disk : fsys)
    (entry : string * (metadata -> bool -> result string)) (out : string) :
  output_path (fst entry) ∉ ancestors (output_path (fst entry)) ->
  snd entry md calc = Ok out ->
  blocked disk (output_path (fst entry)) = false ->
  list_to_set (ancestors (output_path (fst entry)))
  ⊆ dirs (generate_one md calc disk entry).
Proof.
  intros Hself Hout Hb. rewrite (generate_one_made _ _ _ _ _ Hself Hout Hb).
  cbn [dirs]. apply union_subseteq_r.
Qed.

Lemma apart_cons (p : string) (paths : list string) :
  apart (p :: paths) ->
  (p ∉ ancestors p)
  /\ (p ∉ paths)
  /\ Forall (fun q => (p ∉ ancestors q) /\ (q ∉ ancestors p) /\ q <> p) paths
  /\ apart paths.
Proof.
  intros [Hnd Hup]. apply NoDup_cons in Hnd as [Hnot Hnd].
  inversion Hup as [|? ? Hp Hrest]. subst.
  inversion Hp as [|? ? Hpp Hpq]. subst.
  split; [exact Hpp|]. split; [exact Hnot|]. split.
  - rewrite Forall_forall in *. intros q Hq. split; [apply Hpq, Hq|].
    split.
    + specialize (Hrest q Hq). inversion Hrest. assumption.
    + intros ->. apply Hnot, Hq.
  - split; [exact Hnd|].
    rewrite Forall_forall in *. intros q Hq. specialize (Hrest q Hq).
    inversion Hrest. assumption.
Qed.

Lemma generate_all_writable (md : metadata) (calc : bool)
    (entries : list (string * (metadata -> bool -> result string)))
    (disk : fsys) (p : string) :
  Forall (fun q => (q ∉ ancestors p) /\ (p ∉ ancestors q))
         (map (fun entry => output_path (fst entry)) entries) ->
  writable (fold_left (generate_one md calc) entries disk) p = writable disk p.
Proof.
  revert disk. induction entries as [|entry entries IH]; intros disk H; [reflexivity|].
  cbn [map] in H. inversion H as [|? ? [H1 H2] H']. subst.
  cbn [fold_left]. rewrite (IH _ H'). apply generate_one_writable; assumption.
Qed.

Lemma generate_all_is_blocked (md : metadata) (calc : bool)
    (entries : list (string * (metadata -> bool -> result string)))
    (disk : fsys) (p : string) :
  Forall (fun q => q ∉ ancestors p)
         (map (fun entry => output_path (fst entry)) entries) ->
  blocked (fold_left (generate_one md calc) entries disk) p = blocked disk p.
Proof.
  revert disk. induction entries as [|entry entries IH]; intros disk H; [reflexivity|].
  cbn [map] in H. inversion H as [|? ? H1 H']. subst.
  cbn [fold_left]. rewrite (IH _ H'). apply generate_one_is_blocked; assumption.
Qed.

Lemma apart_self (paths : list string) (p : string) :
  apart paths -> p ∈ paths -> p ∉ ancestors p.
Proof.
  intros [_ H] Hin. rewrite Forall_forall in H. specialize (H p Hin).
  rewrite Forall_forall in H. apply H, Hin.
Qed.

(** The whole loop: what is left at each output path, what can still be
    written there, and the directories above it. *)
Lemma generate_all_written (md : metadata) (calc : bool)
    (entries : list (string * (metadata -> bool -> result string))) (disk : fsys) :
  apart (map (fun entry => output_path (fst entry)) entries) ->
  Forall (fun entry => forall out,
            snd entry md calc = Ok out ->
            read (fold_left (generate_one md calc) entries disk) (output_path (fst entry))
            = written disk (output_path (fst entry)) out
            /\ writable (fold_left (generate_one md calc) entries disk)
                 (output_path (fst entry))
               = writable disk (output_path (fst entry))
            /\ blocked (fold_left (generate_one md calc) entries disk)
                 (output_path (fst entry))
               = blocked disk (output_path (fst entry))
            /\ (blocked disk (output_path (fst entry)) = false ->
                list_to_set (ancestors (output_path (fst entry)))
                ⊆ dirs (fold_left (generate_one md calc) entries disk)))
         entries.
Proof.
  revert disk. induction entries as [|entry entries IH]; intros disk Hap; [constructor|].
  cbn [map] in Hap. apply apart_cons in Hap as (Hself & Hnot & Hrest & Hap).
  cbn [fold_left]. constructor.
  - intros out Hout. split; [|split; [|split]].
    + rewrite (generate_all_other _ _ _ _ _ Hnot).
      apply generate_one_written; assumption.
    + rewrite generate_all_writable.
      * apply generate_one_writable; exact Hself.
      * eapply Forall_impl; [exact Hrest|]. cbn beta. intros q (H1 & H2 & _). now split.
    + rewrite generate_all_is_blocked.
      * apply generate_one_is_blocked; exact Hself.
      * eapply Forall_impl; [exact Hrest|]. cbn beta. intros q (H1 & H2 & _). exact H2.
    + intros Hb. etransitivity; [|apply generate_all_dirs].
      apply (generate_one_ancestors _ _ _ _ out); assumption.
  - specialize (IH (generate_one md calc disk entry) Hap).
    rewrite Forall_forall in IH. rewrite Forall_forall in Hrest. apply Forall_forall.
    intros entry' Hin out Hout.
    destruct (IH entry' Hin out Hout) as (Hread & Hw & Hb' & Hdirs).
    assert (output_path (fst entry') ∈ map (fun entry => output_path (fst entry)) entries)
      as Hq by (apply (list_elem_of_fmap_2 (fun entry => output_path (fst entry))), Hin).
    destruct (Hrest _ Hq) as (H1 & H2 & Hne).
    assert (writable (generate_one md calc disk entry) (output_path (fst entry'))
            = writable disk (output_path (fst entry'))) as Ew
      by (apply generate_one_writable; assumption).
    split; [|split; [|split]].
    + rewrite Hread. unfold written. rewrite Ew.
      now rewrite (generate_one_other _ _ _ _ _ Hne).
    + now rewrite Hw.
    + rewrite Hb'. now apply generate_one_is_blocked.
    + intros Hb. apply Hdirs. now rewrite generate_one_is_blocked.
Qed.

Lemma generators_apart (net : string -> option string) :
  apart (map (fun entry => output_path (fst entry)) (generators net)).
Proof.
  unfold generators. cbn [map fst]. split.
  - repeat (apply NoDup_cons; split;
            [rewrite ?not_elem_of_cons; repeat split; try discriminate;
             apply not_elem_of_nil|]).
    apply NoDup_nil_2.
  - repeat constructor;
      match goal with
      | |- _ ∉ ancestors ?q =>
          let l := eval vm_compute in (ancestors q) in
          change (ancestors q) with l
      end;
      rewrite ?not_elem_of_cons; repeat split; try discriminate; apply not_elem_of_nil.
Qed.

(** What [main] leaves at the output path of an entry. *)
Lemma main_written (net : string -> option string) (argv : list string) (disk : fsys)
    (md : metadata) (entry : string * (metadata -> bool -> result string))
    (out : string) :
  checked_metadata disk = Ok md ->
  entry ∈ generators net ->
  snd entry md (hashes_asked argv) = Ok out ->
  fst (GeneratePackages.main net argv disk) = 0%Z
  /\ read (snd (GeneratePackages.main net argv disk)) (output_path (fst entry))
     = written disk (output_path (fst entry)) out
  /\ (blocked disk (output_path (fst entry)) = false ->
      list_to_set (ancestors (output_path (fst entry)))
      ⊆ dirs (snd (GeneratePackages.main net argv disk))).
Proof.
  intros Hmd Hin Hout. unfold GeneratePackages.main. fold (hashes_asked argv).
  rewrite (checked_metadata_exists _ _ Hmd). cbn [negb]. rewrite Hmd. cbn [fst snd].
  split; [reflexivity|].
  pose proof (generate_all_written md (hashes_asked argv) (generators net) disk
                (generators_apart net)) as H.
  rewrite Forall_forall in H. destruct (H entry Hin out Hout) as (Hr & _ & _ & Hd).
  split; assumption.
Qed.



#[local] Arguments String.append !_ _ / : simpl nomatch.

(** ** More on strings *)

Lemma append_nil_r (s : string) : s +:+ EmptyString = s.
Proof. induction s as [|c s IH]; simpl; [reflexivity | now rewrite IH]. Qed.

Lemma append_assoc (a b c : string) : (a +:+ b) +:+ c = a +:+ (b +:+ c).
Proof. induction a as [|x a IH]; simpl; [reflexivity | now rewrite IH]. Qed.

Lemma length_append (a b : string) :
  String.length (a +:+ b) = String.length a + String.length b.
Proof. induction a as [|x a IH]; simpl; [reflexivity | now rewrite IH]. Qed.

Lemma mem_append (c : ascii) (a b : string) : mem c (a +:+ b) = mem c a || mem c b.
Proof.
  induction a as [|x a IH]; simpl; [reflexivity|]. rewrite IH. apply orb_assoc.
Qed.

Lemma all_append (p : ascii -> bool) (a b : string) :
  all p (a +:+ b) = all p a && all p b.
Proof.
  induction a as [|x a IH]; simpl; [reflexivity|]. rewrite IH. apply andb_assoc.
Qed.

Lemma all_not_mem (p : ascii -> bool) (s : string) (c : ascii) :
  all p s = true -> p c = false -> mem c s = false.
Proof.
  intros Hall Hc. induction s as [|x s IH]; simpl in *; [reflexivity|].
  apply andb_true_iff in Hall. destruct Hall as [Hx Hs].
  rewrite (IH Hs), orb_false_r. destruct (Ascii.eqb_spec c x); [congruence|reflexivity].
Qed.

Lemma rev_onto_append (s acc : string) : rev_onto s acc = rev s +:+ acc.
Proof.
  unfold rev. revert acc. induction s as [|c s IH]; intros acc; simpl; [reflexivity|].
  rewrite IH, (IH (String c EmptyString)), append_assoc. reflexivity.
Qed.

Lemma rev_cons (c : ascii) (s : string) : rev (String c s) = rev s +:+ chr c.
Proof. unfold rev at 1. simpl. apply rev_onto_append. Qed.

Lemma rev_append (a b : string) : rev (a +:+ b) = rev b +:+ rev a.
Proof.
  induction a as [|c a IH]; simpl.
  - symmetry. apply append_nil_r.
  - rewrite !rev_cons, IH, append_assoc. reflexivity.
Qed.

Lemma rev_involutive (s : string) : rev (rev s) = s.
Proof.
  induction s as [|c s IH]; [reflexivity|].
  rewrite rev_cons, rev_append, IH. reflexivity.
Qed.

Lemma part_refl (s : string) : part s s.
Proof. exists EmptyString, EmptyString. simpl. now rewrite append_nil_r. Qed.

Lemma part_trans (a b c : string) : part a b -> part b c -> part a c.
Proof.
  intros (x & y & ->) (u & w & ->). exists (u +:+ x), (y +:+ w).
  now rewrite !append_assoc.
Qed.

Lemma part_prefix (a b : string) : part a (a +:+ b).
Proof. exists EmptyString, b. reflexivity. Qed.

Lemma part_suffix (a b : string) : part b (a +:+ b).
Proof. exists a, EmptyString. now rewrite append_nil_r. Qed.

Lemma startswith_append (t b : string) : startswith t (t +:+ b) = true.
Proof.
  induction t as [|c t IH]; simpl; [reflexivity|].
  now rewrite Ascii.eqb_refl, IH.
Qed.

Lemma startswith_split (t s : string) :
  startswith t s = true -> exists b, s = t +:+ b.
Proof.
  revert s. induction t as [|c t IH]; intros s H; simpl in *.
  - now exists s.
  - destruct s as [|d s]; [discriminate|].
    apply andb_true_iff in H. destruct H as [Hc Ht].
    apply Ascii.eqb_eq in Hc. subst d.
    destruct (IH s Ht) as [b ->]. now exists b.
Qed.

Lemma startswith_contains (t s : string) :
  startswith t s = true -> contains t s = true.
Proof. intros H. destruct s; simpl; rewrite H; reflexivity. Qed.

Lemma contains_part (t s : string) : contains t s = true <-> part t s.
Proof.
  split.
  - induction s as [|c s IH]; simpl; rewrite ?orb_false_r.
    + intros H. destruct (startswith_split _ _ H) as [b ->]. apply part_prefix.
    + intros H. apply orb_true_iff in H. destruct H as [H|H].
      * destruct (startswith_split _ _ H) as [b ->]. apply part_prefix.
      * destruct (IH H) as (a & b & ->). exists (String c a), b. reflexivity.
  - intros (a & b & ->). induction a as [|c a IH]; simpl.
    + apply startswith_contains, startswith_append.
    + rewrite IH. apply orb_true_r.
Qed.

Lemma not_contains_part (t s u : string) :
  contains t s = false -> part u s -> contains t u = false.
Proof.
  intros Hs Hu. destruct (contains t u) eqn:E; [|reflexivity].
  apply contains_part in E. rewrite <- Hs. symmetry.
  apply contains_part. eapply part_trans; eassumption.
Qed.

Lemma lstrip_by_part (p : ascii -> bool) (s : string) :
  exists a, s = a +:+ lstrip_by p s.
Proof.
  induction s as [|c s [a IH]]; simpl.
  - now exists EmptyString.
  - destruct (p c).
    + exists (String c a). simpl. now rewrite <- IH.
    + now exists EmptyString.
Qed.

Lemma strip_by_part (p : ascii -> bool) (s : string) : part (strip_by p s) s.
Proof.
  unfold strip_by, rstrip_by.
  destruct (lstrip_by_part p s) as [a Ha].
  destruct (lstrip_by_part p (rev (lstrip_by p s))) as [b Hb].
  exists a, (rev b). rewrite Ha at 1. f_equal.
  rewrite <- (rev_involutive (lstrip_by p s)) at 1.
  rewrite Hb at 1. apply rev_append.
Qed.

Lemma split1_append (sep : ascii) (s a b : string) :
  split1 sep s = Some (a, b) -> s = a +:+ String sep b.
Proof.
  revert a. induction s as [|c s IH]; intros a H; simpl in H; [discriminate|].
  destruct (Ascii.eqb_spec c sep) as [->|_].
  - injection H as <- <-. reflexivity.
  - destruct (split1 sep s) as [[a' b']|]; [|discriminate].
    injection H as <- <-. simpl. now rewrite (IH a' eq_refl).
Qed.

(** Lines *)

Lemma split_plain (sep : ascii) (s : string) :
  mem sep s = false -> split sep s = [s].
Proof.
  induction s as [|c s IH]; simpl; [reflexivity|].
  intros H. apply orb_false_iff in H. destruct H as [Hc Hs].
  rewrite Ascii.eqb_sym, Hc, (IH Hs). reflexivity.
Qed.

Lemma split_append (sep : ascii) (a b : string) :
  mem sep a = false -> split sep (a +:+ String sep b) = a :: split sep b.
Proof.
  induction a as [|c a IH]; simpl.
  - now rewrite Ascii.eqb_refl.
  - intros H. apply orb_false_iff in H. destruct H as [Hc Ha].
    rewrite Ascii.eqb_sym, Hc, (IH Ha). reflexivity.
Qed.

Lemma join_cons (sep x : string) (rest : list string) :
  rest <> [] -> join sep (x :: rest) = x +:+ sep +:+ join sep rest.
Proof. destruct rest; [congruence | reflexivity]. Qed.

Lemma unlines_cons (l : string) (rest : list string) :
  rest <> [] ->
  GeneratePackages.unlines (l :: rest)
  = l +:+ String lf (GeneratePackages.unlines rest).
Proof. destruct rest; [congruence | reflexivity]. Qed.

Lemma split_unlines (ls : list string) :
  ls <> [] -> Forall (fun l => mem lf l = false) ls ->
  split lf (GeneratePackages.unlines ls) = ls.
Proof.
  unfold GeneratePackages.unlines.
  induction ls as [|l rest IH]; [congruence|]. intros _ Hall.
  inversion Hall as [|? ? Hl Hrest]; subst.
  destruct rest as [|l' rest'].
  - simpl. now apply split_plain.
  - rewrite join_cons by discriminate. unfold chr at 1. simpl.
    rewrite split_append by assumption. f_equal. apply IH; [discriminate|assumption].
Qed.

(** ** The matcher *)

Lemma take_while_lstrip (p : ascii -> bool) (s : string) :
  s = take_while p s +:+ lstrip_by p s.
Proof.
  induction s as [|c s IH]; simpl; [reflexivity|].
  destruct (p c); simpl; [now rewrite <- IH | reflexivity].
Qed.

Lemma all_take_while (p : ascii -> bool) (s : string) : all p (take_while p s) = true.
Proof.
  induction s as [|c s IH]; simpl; [reflexivity|].
  destruct (p c) eqn:E; simpl; [now rewrite E, IH | reflexivity].
Qed.

(** A greedy repetition whose longest attempt succeeds stops there. *)
Lemma star_greedy (p : ascii -> bool) (s : string) (k : string -> option outcome) :
  k (lstrip_by p s) <> None -> star p s k = k (lstrip_by p s).
Proof.
  induction s as [|c s IH]; simpl; [reflexivity|].
  destruct (p c); [|reflexivity].
  intros H. rewrite (IH H). destruct (k (lstrip_by p s)); [reflexivity|congruence].
Qed.

(** A greedy repetition followed by something that no character of the
    class can start never gives a character back. *)
Lemma star_committed (p : ascii -> bool) (s : string) (k : string -> option outcome) :
  (forall c rest, p c = true -> k (String c rest) = None) ->
  star p s k = k (lstrip_by p s).
Proof.
  intros Hk. induction s as [|c s IH]; simpl; [reflexivity|].
  destruct (p c) eqn:E; [|reflexivity].
  rewrite IH. destruct (k (lstrip_by p s)); [reflexivity|]. now apply Hk.
Qed.

Lemma run_lit_append (subject t b : string) (cap : option string)
    (k : string -> option string -> option outcome) :
  run subject (Lit t) (t +:+ b) cap k = k b cap.
Proof.
  induction t as [|c t IH]; simpl; [reflexivity|].
  now rewrite Ascii.eqb_refl.
Qed.

Lemma run_lit_Some (subject t s : string) (cap : option string)
    (k : string -> option string -> option outcome) (o : outcome) :
  run subject (Lit t) s cap k = Some o ->
  exists b, s = t +:+ b /\ k b cap = Some o.
Proof.
  revert s. induction t as [|c t IH]; intros s H; simpl in H.
  - now exists s.
  - destruct s as [|d s]; [discriminate|].
    destruct (Ascii.eqb_spec c d) as [<-|_]; [|discriminate].
    destruct (IH s H) as (b & -> & Hk). now exists b.
Qed.

Lemma substring_prefix (a b : string) :
  substring 0 (String.length a) (a +:+ b) = a.
Proof.
  induction a as [|c a IH]; simpl.
  - destruct b; reflexivity.
  - now rewrite IH.
Qed.

Lemma consumed_append (a b : string) : consumed (a +:+ b) b = a.
Proof.
  unfold consumed. rewrite length_append.
  replace (String.length a + String.length b - String.length b) with (String.length a) by lia.
  apply substring_prefix.
Qed.

(** ** Substitution *)

Lemma sub_from_miss (subject : string) (r : re) (repl : string -> string)
    (c : ascii) (rest : string) :
  match_at subject r (String c rest) = None ->
  sub_from subject r repl 0 (String c rest)
  = String c (sub_from subject r repl 0 rest).
Proof. intros H. simpl. now rewrite H. Qed.

Lemma sub_from_skip (subject : string) (r : re) (repl : string -> string)
    (a b : string) :
  sub_from subject r repl (String.length a) (a +:+ b) = sub_from subject r repl 0 b.
Proof.
  induction a as [|c a IH]; simpl; [|exact IH].
  destruct b; reflexivity.
Qed.

Lemma sub_from_hit (subject : string) (r : re) (repl : string -> string)
    (a b : string) (cap : option string) :
  a <> EmptyString ->
  match_at subject r (a +:+ b) = Some (b, cap) ->
  sub_from subject r repl 0 (a +:+ b) = repl a +:+ sub_from subject r repl 0 b.
Proof.
  destruct a as [|c a]; [congruence|]. intros _ H.
  change (String c a +:+ b) with (String c (a +:+ b)) in *.
  cbn [sub_from]. rewrite H.
  replace (String.length (String c (a +:+ b)) - String.length b)
    with (S (String.length a)) by (simpl; rewrite length_append; lia).
  change (String c (a +:+ b)) with (String c a +:+ b).
  rewrite consumed_append, sub_from_skip. reflexivity.
Qed.

Lemma startswith_prefix (t u s : string) :
  startswith (t +:+ u) s = true -> startswith t s = true.
Proof.
  revert s. induction t as [|c t IH]; intros s H; simpl in *; [reflexivity|].
  destruct s as [|d s]; [discriminate|].
  apply andb_true_iff in H. destruct H as [-> H]. simpl. now apply IH.
Qed.

(** A text without the character [x] that starts [l] followed by [x]
    starts [l]. *)
Lemma startswith_before (t l w : string) (x : ascii) :
  mem x t = false -> startswith t (l +:+ String x w) = true -> startswith t l = true.
Proof.
  revert l. induction t as [|c t IH]; intros l Hx H; simpl in *; [reflexivity|].
  apply orb_false_iff in Hx. destruct Hx as [Hc Ht].
  destruct l as [|d l]; simpl in H.
  - apply andb_true_iff in H. destruct H as [H _].
    rewrite Ascii.eqb_sym in Hc. congruence.
  - apply andb_true_iff in H. destruct H as [-> H]. simpl. now apply IH.
Qed.



Section Substitution.

Variable subject : string.
Variable repl : string -> string.

Abbreviation sub := (sub_from subject cargo_rust_re repl 0).







End Substitution.

(** ** The parser of the Checker and the key [rust-version] *)






(** ** What a fix leaves alone *)




Section Fixing.

Variable re_template : string -> option (string -> string).


End Fixing.

(** ** Which errors a pass can record *)









(** ** The version read from the Dockerfile *)




(** ** Fix mode on the toolchain version *)



Section FixMode.

Variable re_template : string -> option (string -> string).
Variable net : string -> option string.

Abbreviation checker_main := (ValidateVersions.main re_template net).


End FixMode.



(** ** The version grammar *)

Lemma lstrip_by_all (p : ascii -> bool) (a b : string) :
  all p a = true -> stops p b = true -> lstrip_by p (a +:+ b) = b.
Proof.
  intros Ha Hb. induction a as [|c a IH]; simpl in *.
  - destruct b as [|d b]; [reflexivity|]. simpl in *.
    apply negb_true_iff in Hb. now rewrite Hb.
  - apply andb_true_iff in Ha. destruct Ha as [-> Ha]. now apply IH.
Qed.

Lemma stops_lstrip_by (p : ascii -> bool) (s : string) : stops p (lstrip_by p s) = true.
Proof.
  induction s as [|c s IH]; simpl; [reflexivity|].
  destruct (p c) eqn:E; [exact IH|]. simpl. now rewrite E.
Qed.

(** One or more of a class, followed by something no character of the
    class can start: the whole run is taken. *)
Lemma run_plus (subject : string) (p : ascii -> bool) (s : string)
    (cap : option string) (k : string -> option string -> option outcome) :
  (forall c rest, p c = true -> k (String c rest) cap = None) ->
  run subject (Plus p) s cap k =
  match s with
  | String c rest => if p c then k (lstrip_by p rest) cap else None
  | EmptyString => None
  end.
Proof.
  intros Hk. unfold Plus. cbn [run]. destruct s as [|c rest]; [reflexivity|].
  destruct (p c); [|reflexivity].
  now apply (star_committed p rest (fun s' => k s' cap)).
Qed.

Lemma run_plus_append (subject : string) (p : ascii -> bool) (a b : string)
    (cap : option string) (k : string -> option string -> option outcome) :
  (forall c rest, p c = true -> k (String c rest) cap = None) ->
  a <> EmptyString -> all p a = true -> stops p b = true ->
  run subject (Plus p) (a +:+ b) cap k = k b cap.
Proof.
  intros Hk Ha Hall Hb. rewrite run_plus by assumption.
  destruct a as [|c a]; [congruence|]. simpl in *.
  apply andb_true_iff in Hall. destruct Hall as [-> Hall].
  now rewrite lstrip_by_all.
Qed.

Lemma run_plus_Some (subject : string) (p : ascii -> bool) (s : string)
    (cap : option string) (k : string -> option string -> option outcome)
    (o : outcome) :
  (forall c rest, p c = true -> k (String c rest) cap = None) ->
  run subject (Plus p) s cap k = Some o ->
  exists a b, s = a +:+ b /\ a <> EmptyString /\ all p a = true
              /\ stops p b = true /\ k b cap = Some o.
Proof.
  intros Hk H. rewrite run_plus in H by assumption.
  destruct s as [|c rest]; [discriminate|].
  destruct (p c) eqn:Hc; [|discriminate].
  exists (String c (take_while p rest)), (lstrip_by p rest).
  repeat split.
  - simpl. now rewrite <- take_while_lstrip.
  - discriminate.
  - simpl. now rewrite Hc, all_take_while.
  - apply stops_lstrip_by.
  - exact H.
Qed.

Lemma digit_not_dot (c : ascii) : is_digit c = true -> Ascii.eqb "." c = false.
Proof. destruct c as [[] [] [] [] [] [] [] []]; (discriminate || reflexivity). Qed.

Lemma digit_not_dash (c : ascii) : is_digit c = true -> Ascii.eqb "-" c = false.
Proof. destruct c as [[] [] [] [] [] [] [] []]; (discriminate || reflexivity). Qed.

Lemma digit_not_lf (c : ascii) : is_digit c = true -> Ascii.eqb c lf = false.
Proof. destruct c as [[] [] [] [] [] [] [] []]; (discriminate || reflexivity). Qed.

Lemma alnum_dash_dot_not_lf (c : ascii) :
  alnum_dash_dot c = true -> Ascii.eqb c lf = false.
Proof. destruct c as [[] [] [] [] [] [] [] []]; (discriminate || reflexivity). Qed.

Lemma digit_alnum_dash_dot (c : ascii) :
  is_digit c = true -> alnum_dash_dot c = true.
Proof. destruct c as [[] [] [] [] [] [] [] []]; (discriminate || reflexivity). Qed.

Lemma version_re_numbers (s : string) :
  re_match version_re s = run s numbers_re s None accept.
Proof.
  unfold re_match, match_at, version_re. cbn [Seq run].
  now rewrite Nat.eqb_refl.
Qed.

Lemma at_eos_ending (s : string) : at_eos s = true <-> ending s.
Proof.
  unfold ending. destruct s as [|c [|d s]]; simpl.
  - tauto.
  - rewrite Ascii.eqb_eq. unfold chr. split; [intros ->; tauto|].
    intros [H|H]; [discriminate | congruence].
  - split; [discriminate|]. intros [H|H]; discriminate.
Qed.

Section Suffix.

Variable subject : string.

Lemma eos_after_prerelease (c : ascii) (rest : string) (cap : option string) :
  alnum_dash_dot c = true ->
  run subject (Seq [Eos]) (String c rest) cap accept = None.
Proof.
  intros Hc. cbn [Seq run]. replace (at_eos (String c rest)) with false; [reflexivity|].
  simpl. destruct rest; [|reflexivity]. symmetry. now apply alnum_dash_dot_not_lf.
Qed.

Lemma suffix_re_after_digit (c : ascii) (rest : string) :
  is_digit c = true -> run subject suffix_re (String c rest) None accept = None.
Proof.
  intros Hc. unfold suffix_re. cbn [Seq run Lit].
  rewrite (digit_not_dash c Hc).
  apply (eos_after_prerelease c rest None), digit_alnum_dash_dot, Hc.
Qed.

Lemma suffix_re_ending (s : string) :
  ending s -> run subject suffix_re s None accept = Some (s, None).
Proof. intros [-> | ->]; reflexivity. Qed.

Lemma suffix_re_prerelease (pre e : string) :
  prerelease pre -> ending e ->
  exists o, run subject suffix_re ("-" +:+ pre +:+ e) None accept = Some o.
Proof.
  intros [Hne Hall] He. unfold suffix_re. cbn [Seq run Lit].
  change ("-" +:+ pre +:+ e) with (String "-" (pre +:+ e)).
  cbn [Ascii.eqb Bool.eqb]. cbn [run].
  rewrite run_plus_append; try assumption.
  - apply at_eos_ending in He. rewrite He. eexists. reflexivity.
  - intros c rest Hc.
    replace (at_eos (String c rest)) with false; [reflexivity|].
    simpl. destruct rest; [|reflexivity]. symmetry. now apply alnum_dash_dot_not_lf.
  - destruct He as [-> | ->]; reflexivity.
Qed.

Lemma suffix_re_Some (s : string) (o : outcome) :
  run subject suffix_re s None accept = Some o ->
  ending s \/ exists pre e, s = "-" +:+ pre +:+ e /\ prerelease pre /\ ending e.
Proof.
  unfold suffix_re. cbn [Seq run Lit]. intros H.
  destruct (at_eos s) eqn:Hs; [left; now apply at_eos_ending|].
  right. destruct s as [|c s]; [discriminate Hs|].
  destruct (Ascii.eqb_spec "-" c) as [<-|Hc].
  - cbn [run] in H.
    destruct (run subject (Plus alnum_dash_dot) s None _) as [o'|] eqn:E;
      [|discriminate H].
    apply run_plus_Some in E.
    + destruct E as (a & b & -> & Ha & Hall & _ & Hb).
      exists a, b. split; [reflexivity|]. split; [split; assumption|].
      apply at_eos_ending. destruct (at_eos b); [reflexivity | discriminate Hb].
    + intros c rest Hc.
      replace (at_eos (String c rest)) with false; [reflexivity|].
      simpl. destruct rest; [|reflexivity]. symmetry. now apply alnum_dash_dot_not_lf.
  - discriminate H.
Qed.

End Suffix.

Section Numbers.

Variable subject : string.

(** After a run of digits, a dot and the pattern [r]. *)
Lemma dot_after_digit (r : re) (c : ascii) (rest : string) (cap : option string)
    (k : string -> option string -> option outcome) :
  is_digit c = true ->
  run subject (Cat (Lit ".") r) (String c rest) cap k = None.
Proof. intros Hc. cbn [run Lit]. now rewrite (digit_not_dot c Hc). Qed.

Lemma stops_dot (s : string) : stops digit (String "." s) = true.
Proof. reflexivity. Qed.

Lemma number_dot (r : re) (n s : string) (k : string -> option string -> option outcome) :
  number n ->
  run subject (Cat (Plus digit) (Cat (Lit ".") r)) (n +:+ "." +:+ s) None k
  = run subject r s None k.
Proof.
  intros [Hne Hall]. cbn [run].
  rewrite run_plus_append; try assumption.
  - cbn [run Lit Ascii.eqb Bool.eqb]. reflexivity.
  - intros c rest Hc. now apply (dot_after_digit r).
  - reflexivity.
Qed.

Lemma number_dot_Some (r : re) (s : string)
    (k : string -> option string -> option outcome) (o : outcome) :
  run subject (Cat (Plus digit) (Cat (Lit ".") r)) s None k = Some o ->
  exists n rest, s = n +:+ "." +:+ rest /\ number n
                 /\ run subject r rest None k = Some o.
Proof.
  cbn [run]. intros H. apply run_plus_Some in H.
  - destruct H as (n & b & -> & Hne & Hall & _ & H).
    change (run subject (Cat (Lit ".") r) b None k = Some o) in H.
    cbn [run] in H. apply run_lit_Some in H. destruct H as (rest & -> & H).
    exists n, rest. split; [reflexivity|]. split; [split; assumption | exact H].
  - intros c rest Hc. now apply (dot_after_digit r).
Qed.

Lemma numbers_re_accepts (major minor patch t : string) (o : outcome) :
  number major -> number minor -> number patch ->
  stops digit t = true ->
  run subject suffix_re t None accept = Some o ->
  run subject numbers_re (major +:+ "." +:+ minor +:+ "." +:+ patch +:+ t) None accept
  = Some o.
Proof.
  intros Hmaj Hmin [Hne Hall] Ht Ho. unfold numbers_re.
  rewrite (number_dot _ major) by assumption.
  rewrite (number_dot _ minor) by assumption. cbn [run].
  rewrite run_plus_append; try assumption.
  intros c rest Hc. now apply suffix_re_after_digit.
Qed.

Lemma numbers_re_Some (s : string) (o : outcome) :
  run subject numbers_re s None accept = Some o ->
  exists major minor patch t,
    s = major +:+ "." +:+ minor +:+ "." +:+ patch +:+ t
    /\ number major /\ number minor /\ number patch
    /\ run subject suffix_re t None accept = Some o.
Proof.
  unfold numbers_re. intros H.
  apply number_dot_Some in H. destruct H as (major & s1 & -> & Hmaj & H).
  apply number_dot_Some in H. destruct H as (minor & s2 & -> & Hmin & H).
  cbn [run] in H. apply run_plus_Some in H.
  - destruct H as (patch & t & -> & Hne & Hall & _ & H).
    exists major, minor, patch, t.
    split; [reflexivity|]. split; [assumption|]. split; [assumption|].
    split; [split; assumption | exact H].
  - intros c rest Hc. now apply suffix_re_after_digit.
Qed.

End Numbers.

(** ** [validate_version] against the grammar *)

Lemma validate_version_matches (s : string) :
  validate_version (VStr s) = Ok s <-> exists o, re_match version_re s = Some o.
Proof.
  unfold validate_version, validate_with.
  destruct (re_match version_re s) as [o|]; split; intros H.
  - now exists o.
  - reflexivity.
  - discriminate H.
  - destruct H as [o H]. discriminate H.
Qed.

(** Every text of the grammar is returned unchanged. *)
Theorem validate_version_accepts_semver (s : string) :
  semver s -> validate_version (VStr s) = Ok s.
Proof.
  intros H. apply validate_version_matches. rewrite version_re_numbers.
  destruct H as [major minor patch Hmaj Hmin Hpat
                | major minor patch pre Hmaj Hmin Hpat Hpre].
  - exists (EmptyString, None).
    rewrite <- (append_nil_r patch) at 2.
    apply numbers_re_accepts; try assumption; reflexivity.
  - destruct (suffix_re_prerelease
                (major +:+ "." +:+ minor +:+ "." +:+ patch +:+ "-" +:+ pre)
                pre EmptyString Hpre (or_introl eq_refl)) as [o Ho].
    exists o. rewrite append_nil_r in Ho.
    apply numbers_re_accepts; try assumption; reflexivity.
Qed.

(** What [validate_version] returns is its argument, and a text of the
    grammar, possibly followed by one newline. *)
Theorem validate_version_Ok (s t : string) :
  validate_version (VStr s) = Ok t ->
  t = s /\ (semver s \/ exists u, s = u +:+ chr lf /\ semver u).
Proof.
  intros H. assert (t = s) as ->.
  { unfold validate_version, validate_with in H.
    destruct (re_match version_re s); [congruence | discriminate H]. }
  split; [reflexivity|].
  apply validate_version_matches in H. destruct H as [o H].
  rewrite version_re_numbers in H. apply numbers_re_Some in H.
  destruct H as (major & minor & patch & tail & Hs & Hmaj & Hmin & Hpat & H).
  apply suffix_re_Some in H.
  destruct H as [[-> | ->] | (pre & e & -> & Hpre & [-> | ->])].
  - left. rewrite append_nil_r in Hs. subst s. now constructor.
  - right. exists (major +:+ "." +:+ minor +:+ "." +:+ patch).
    split; [now rewrite Hs, !append_assoc | now constructor].
  - left. rewrite append_nil_r in Hs. subst s. now constructor.
  - right. exists (major +:+ "." +:+ minor +:+ "." +:+ patch +:+ "-" +:+ pre).
    split; [rewrite Hs, !append_assoc; reflexivity | now constructor].
Qed.

Lemma semver_chars (s : string) : semver s -> all alnum_dash_dot s = true.
Proof.
  assert (forall n, number n -> all alnum_dash_dot n = true) as Hnum.
  { intros n [_ Hn]. induction n as [|c n IH]; [reflexivity|]. simpl in *.
    apply andb_true_iff in Hn. destruct Hn as [Hc Hn].
    now rewrite (digit_alnum_dash_dot c Hc), IH. }
  intros [major minor patch Hmaj Hmin Hpat
         | major minor patch pre Hmaj Hmin Hpat [_ Hpre]];
    rewrite !all_append, ?Hpre, (Hnum major), (Hnum minor), (Hnum patch)
      by assumption; reflexivity.
Qed.

(** C2, where the code departs from it: a text that is not of the
    grammar, because it ends in a newline, is returned as valid, and is
    rendered with its newline into the Snapcraft manifest. *)
Theorem validate_version_accepts_trailing_newline :
  ~ semver version_with_newline
  /\ validate_version (VStr version_with_newline) = Ok version_with_newline
  /\ exists out,
       generate_snapcraft_yaml
         {| md_name := VStr "lazycelery";
            md_version := VStr version_with_newline;
            md_description := VStr "Terminal UI";
            md_authors := ["Unknown"];
            md_license := VStr "MIT";
            md_repository := VStr "https://github.com/Fguedes90/lazycelery";
            md_homepage := VStr "https://github.com/Fguedes90/lazycelery";
            md_keywords := VList [];
            md_categories := VList [] |} false = Ok out
       /\ contains ("version: '1.2.3" +:+ chr lf +:+ "'") out = true.
Proof.
  split; [|split].
  - intros H. apply semver_chars in H. discriminate H.
  - reflexivity.
  - eexists. split; vm_compute; reflexivity.
Qed.

(** ** Searching for a pattern that starts with a literal *)

Lemma match_at_lit (subject t : string) (r : re) (s : string) (o : outcome) :
  match_at subject (Cat (Lit t) r) s = Some o -> startswith t s = true.
Proof.
  unfold match_at. cbn [run]. intros H.
  apply run_lit_Some in H. destruct H as (b & -> & _). apply startswith_append.
Qed.

Lemma contains_mem (c : ascii) (t s : string) :
  mem c t = true -> mem c s = false -> contains t s = false.
Proof.
  intros Ht Hs. destruct (contains t s) eqn:E; [|reflexivity].
  apply contains_part in E. destruct E as (a & b & ->).
  rewrite !mem_append, Ht, orb_true_r in Hs. discriminate Hs.
Qed.

Lemma search_from_hit (subject : string) (r : re) (s : string) (o : outcome) :
  match_at subject r s = Some o -> search_from subject r s = Some o.
Proof. intros H. destruct s; simpl; rewrite H; reflexivity. Qed.

Section Search.

Variable subject : string.
Variable r : re.
Variable t : string.

Hypothesis starts_with_t :
  forall s o, match_at subject r s = Some o -> startswith t s = true.

Lemma match_at_miss (s : string) :
  startswith t s = false -> match_at subject r s = None.
Proof.
  intros H. destruct (match_at subject r s) as [o|] eqn:E; [|reflexivity].
  apply starts_with_t in E. congruence.
Qed.

Lemma search_from_miss (c : ascii) (rest : string) :
  startswith t (String c rest) = false ->
  search_from subject r (String c rest) = search_from subject r rest.
Proof. intros H. simpl. rewrite (match_at_miss _ H). reflexivity. Qed.

(** A text that does not hold [t], closed by a character that is not in
    [t], is passed over. *)
Lemma search_skip (x : ascii) (a w : string) :
  mem x t = false -> contains t a = false ->
  search_from subject r (a +:+ String x w) = search_from subject r w.
Proof.
  intros Hx. induction a as [|c a IH]; intros Ha.
  - simpl. apply search_from_miss.
    destruct t as [|c t']; [discriminate Ha|].
    simpl in Hx. apply orb_false_elim in Hx as [Hx _].
    simpl. rewrite Ascii.eqb_sym, Hx. reflexivity.
  - simpl in Ha. apply orb_false_elim in Ha as [Hs Ha].
    change (String c a +:+ String x w) with (String c (a +:+ String x w)).
    rewrite search_from_miss; [exact (IH Ha)|].
    destruct (startswith t (String c (a +:+ String x w))) eqn:E; [|reflexivity].
    change (String c (a +:+ String x w)) with (String c a +:+ String x w) in E.
    apply (startswith_before _ _ _ _ Hx) in E. congruence.
Qed.

End Search.

Lemma star_greedy_Some (p : ascii -> bool) (s : string) (k : string -> option outcome)
    (o : outcome) :
  k (lstrip_by p s) = Some o -> star p s k = Some o.
Proof. intros H. rewrite star_greedy; rewrite H; [reflexivity|discriminate]. Qed.

Lemma run_plus_greedy (subject : string) (p : ascii -> bool) (a b : string)
    (cap : option string) (k : string -> option string -> option outcome) :
  a <> EmptyString -> all p a = true -> stops p b = true -> k b cap <> None ->
  run subject (Plus p) (a +:+ b) cap k = k b cap.
Proof.
  intros Ha Hall Hb Hk. destruct a as [|c a']; [contradiction|].
  simpl in Hall. apply andb_prop in Hall as [Hc Hall].
  unfold Plus. cbn [run]. simpl. rewrite Hc.
  rewrite star_greedy; rewrite (lstrip_by_all _ _ _ Hall Hb); [reflexivity|exact Hk].
Qed.

Lemma run_group_plus (subject : string) (p : ascii -> bool) (a b : string)
    (cap : option string) (k : string -> option string -> option outcome) :
  a <> EmptyString -> all p a = true -> stops p b = true -> k b (Some a) <> None ->
  run subject (Group (Plus p)) (a +:+ b) cap k = k b (Some a).
Proof.
  intros Ha Hall Hb Hk. cbn [run].
  rewrite run_plus_greedy; try assumption; rewrite consumed_append; auto.
Qed.

(** ** The two parsers *)

(** *** The parsers agree *)

Lemma parse_line_agree (st1 : bool * gmap string pyval) (st2 : bool * gmap string string)
    (raw : string) :
  fst st1 = fst st2 ->
  (forall key, agree (snd st1 !! key) (snd st2 !! key)) ->
  fst (GeneratePackages.parse_line st1 raw) = fst (ValidateVersions.parse_line st2 raw)
  /\ forall key, agree (snd (GeneratePackages.parse_line st1 raw) !! key)
                       (snd (ValidateVersions.parse_line st2 raw) !! key).
Proof.
  destruct st1 as [in_package d1], st2 as [in_package' d2]. cbn [fst snd].
  intros <- H.
  unfold GeneratePackages.parse_line, ValidateVersions.parse_line.
  destruct (String.eqb (strip raw) "[package]"); [split; [reflexivity|exact H]|].
  destruct (startswith "[" (strip raw) && negb false); [split; [reflexivity|exact H]|].
  destruct (in_package && contains "=" (strip raw)); [|split; [reflexivity|exact H]].
  destruct (split1 "=" (strip raw)) as [[key value]|]; [|split; [reflexivity|exact H]].
  fold GeneratePackages.quotes.
  change ValidateVersions.quotes with GeneratePackages.quotes.
  set (k := strip key). set (v := strip_chars GeneratePackages.quotes (strip value)).
  fold (bracketed v).
  destruct (bracketed v) eqn:Hb.
  - destruct (GeneratePackages.nonempty (slice_1_m1 v)); cbn [fst snd];
      (split; [reflexivity|]); intros key'; destruct (decide (key' = k)) as [->|Hne];
      rewrite ?lookup_insert_eq, ?lookup_insert_ne by congruence; try apply H;
      exists v; (split; [reflexivity|exact Hb]).
  - cbn [fst snd]. split; [reflexivity|]. intros key'.
    destruct (decide (key' = k)) as [->|Hne];
      rewrite ?lookup_insert_eq, ?lookup_insert_ne by congruence; try apply H.
    split; [reflexivity|exact Hb].
Qed.

Lemma parse_lines_agree (ls : list string) (st1 : bool * gmap string pyval)
    (st2 : bool * gmap string string) :
  fst st1 = fst st2 ->
  (forall key, agree (snd st1 !! key) (snd st2 !! key)) ->
  forall key,
    agree (snd (fold_left GeneratePackages.parse_line ls st1) !! key)
          (snd (fold_left ValidateVersions.parse_line ls st2) !! key).
Proof.
  revert st1 st2. induction ls as [|l ls IH]; intros st1 st2 Hf H; [exact H|].
  cbn [fold_left]. destruct (parse_line_agree st1 st2 l Hf H) as [Hf' H'].
  apply IH; assumption.
Qed.

(** X1.  The parser of the Checker and the parser of the generator read
    the same keys from the same text: a value the generator takes for a
    text is the Checker's value, and a value the generator takes for a
    list is, for the Checker, a text between brackets. *)
Theorem parsers_agree (content key : string) :
  match GeneratePackages.parse_toml_simple content !! key with
  | Some (VStr value) =>
      ValidateVersions.parse_toml_simple content !! key = Some value
      /\ bracketed value = false
  | Some (VList _) =>
      exists value,
        ValidateVersions.parse_toml_simple content !! key = Some value
        /\ bracketed value = true
  | None => ValidateVersions.parse_toml_simple content !! key = None
  end.
Proof.
  unfold GeneratePackages.parse_toml_simple, ValidateVersions.parse_toml_simple.
  apply (parse_lines_agree (split lf content) (false, ∅) (false, ∅)); [reflexivity|].
  intros k. cbn [snd]. rewrite !lookup_empty. reflexivity.
Qed.

(** *** Lines outside the package section *)

Lemma generator_parse_line_outside (d : gmap string pyval) (raw : string) :
  outside_package raw -> GeneratePackages.parse_line (false, d) raw = (false, d).
Proof.
  unfold outside_package. intros H. unfold GeneratePackages.parse_line.
  destruct (String.eqb_spec (strip raw) "[package]"); [contradiction|].
  destruct (startswith "[" (strip raw) && negb false); reflexivity.
Qed.

Lemma checker_parse_line_outside (d : gmap string string) (raw : string) :
  outside_package raw -> ValidateVersions.parse_line (false, d) raw = (false, d).
Proof.
  unfold outside_package. intros H. unfold ValidateVersions.parse_line.
  destruct (String.eqb_spec (strip raw) "[package]"); [contradiction|].
  destruct (startswith "[" (strip raw) && negb false); reflexivity.
Qed.

Lemma generator_parse_lines_outside (ls : list string) (d : gmap string pyval) :
  Forall outside_package ls ->
  fold_left GeneratePackages.parse_line ls (false, d) = (false, d).
Proof.
  induction 1 as [|l ls Hl _ IH]; [reflexivity|].
  cbn [fold_left]. rewrite generator_parse_line_outside by exact Hl. exact IH.
Qed.

Lemma checker_parse_lines_outside (ls : list string) (d : gmap string string) :
  Forall outside_package ls ->
  fold_left ValidateVersions.parse_line ls (false, d) = (false, d).
Proof.
  induction 1 as [|l ls Hl _ IH]; [reflexivity|].
  cbn [fold_left]. rewrite checker_parse_line_outside by exact Hl. exact IH.
Qed.

(** X2.  A configuration without a line that reads [package] between
    brackets gives no key at all, to either parser, and the loader
    answers with the default of every field. *)
Theorem no_package_section_gives_defaults (disk : fsys) (path content : string) :
  read disk path = Some content ->
  Forall outside_package (split lf content) ->
  GeneratePackages.parse_toml_simple content = ∅
  /\ ValidateVersions.parse_toml_simple content = ∅
  /\ load_cargo_metadata disk path = Ok default_metadata.
Proof.
  intros Hread H.
  assert (GeneratePackages.parse_toml_simple content = ∅) as HG.
  { unfold GeneratePackages.parse_toml_simple.
    rewrite generator_parse_lines_outside by exact H. reflexivity. }
  split; [exact HG|]. split.
  - unfold ValidateVersions.parse_toml_simple.
    rewrite checker_parse_lines_outside by exact H. reflexivity.
  - unfold load_cargo_metadata. rewrite Hread, HG. reflexivity.
Qed.

Lemma no_package_section_gives_defaults_witness :
  GeneratePackages.parse_toml_simple
    (unlines [ "[dependencies]"; "version = '9.9.9'"; "name = 'other'" ]) = ∅
  /\ ValidateVersions.parse_toml_simple
       (unlines [ "[dependencies]"; "version = '9.9.9'"; "name = 'other'" ]) = ∅
  /\ load_cargo_metadata dependencies_only_disk "Cargo.toml" = Ok default_metadata.
Proof.
  apply (no_package_section_gives_defaults dependencies_only_disk "Cargo.toml").
  - reflexivity.
  - vm_compute. repeat constructor; discriminate.
Defined.

(** *** Sections other than the package section *)

Lemma generator_parse_header (st : bool * gmap string pyval) (header : string) :
  startswith "[" (strip header) = true -> outside_package header ->
  GeneratePackages.parse_line st header = (false, snd st).
Proof.
  unfold outside_package. intros Hs H. destruct st as [b d].
  unfold GeneratePackages.parse_line.
  destruct (String.eqb_spec (strip header) "[package]"); [contradiction|].
  rewrite Hs. reflexivity.
Qed.

Lemma checker_parse_header (st : bool * gmap string string) (header : string) :
  startswith "[" (strip header) = true -> outside_package header ->
  ValidateVersions.parse_line st header = (false, snd st).
Proof.
  unfold outside_package. intros Hs H. destruct st as [b d].
  unfold ValidateVersions.parse_line.
  destruct (String.eqb_spec (strip header) "[package]"); [contradiction|].
  rewrite Hs. reflexivity.
Qed.

Lemma split_unlines_or_nil (ls : list string) :
  Forall (fun l => mem lf l = false) ls ->
  split lf (GeneratePackages.unlines ls) = match ls with [] => [EmptyString] | _ => ls end.
Proof.
  intros H. destruct ls as [|l ls]; [reflexivity|].
  apply split_unlines; [discriminate|exact H].
Qed.

(** X3.  What stands below the header of another section, up to the next
    package header, is not read: the text up to that header gives the
    same keys. *)
Theorem other_sections_are_ignored (before after : list string) (header : string) :
  Forall (fun l => mem lf l = false) (before ++ header :: after) ->
  startswith "[" (strip header) = true ->
  outside_package header ->
  Forall outside_package after ->
  GeneratePackages.parse_toml_simple (unlines (before ++ header :: after))
  = GeneratePackages.parse_toml_simple (unlines before)
  /\ ValidateVersions.parse_toml_simple (unlines (before ++ header :: after))
     = ValidateVersions.parse_toml_simple (unlines before).
Proof.
  intros Hlf Hs Hh Hafter.
  pose proof (proj1 (Forall_app _ _ _) Hlf) as [Hbefore _].
  unfold GeneratePackages.parse_toml_simple, ValidateVersions.parse_toml_simple.
  rewrite (split_unlines (before ++ header :: after)); [|destruct before; discriminate|exact Hlf].
  rewrite (split_unlines_or_nil before Hbefore).
  rewrite !fold_left_app. cbn [fold_left].
  rewrite generator_parse_header, checker_parse_header by assumption.
  rewrite generator_parse_lines_outside, checker_parse_lines_outside by assumption.
  destruct before; split; reflexivity.
Qed.

Lemma other_sections_are_ignored_witness :
  GeneratePackages.parse_toml_simple
    (unlines ([ "[package]"; "version = '1.2.3'" ]
              ++ "[dependencies]" :: [ "version = '9.9.9'"; "[dev-dependencies]"; "name = 'x'" ]))
  = GeneratePackages.parse_toml_simple (unlines [ "[package]"; "version = '1.2.3'" ])
  /\ ValidateVersions.parse_toml_simple
       (unlines ([ "[package]"; "version = '1.2.3'" ]
                 ++ "[dependencies]" :: [ "version = '9.9.9'"; "[dev-dependencies]"; "name = 'x'" ]))
     = ValidateVersions.parse_toml_simple (unlines [ "[package]"; "version = '1.2.3'" ]).
Proof.
  apply (other_sections_are_ignored [ "[package]"; "version = '1.2.3'" ]
           [ "version = '9.9.9'"; "[dev-dependencies]"; "name = 'x'" ] "[dependencies]").
  - repeat constructor.
  - reflexivity.
  - vm_compute. discriminate.
  - vm_compute. repeat constructor; discriminate.
Defined.

(** *** Strings *)

Lemma all_rev (p : ascii -> bool) (s : string) : all p (rev s) = all p s.
Proof.
  induction s as [|c s IH]; [reflexivity|].
  rewrite rev_cons, all_append, IH. simpl. rewrite andb_true_r. apply andb_comm.
Qed.

Lemma rev_nonempty (s : string) : s <> EmptyString -> rev s <> EmptyString.
Proof.
  intros H E. apply H. rewrite <- (rev_involutive s), E. reflexivity.
Qed.

Lemma lstrip_by_stops (p : ascii -> bool) (s : string) :
  stops p s = true -> lstrip_by p s = s.
Proof.
  destruct s as [|c s]; [reflexivity|]. simpl. intros H.
  apply negb_true_iff in H. rewrite H. reflexivity.
Qed.

Lemma rstrip_by_stops (p : ascii -> bool) (s : string) :
  stops p (rev s) = true -> rstrip_by p s = s.
Proof.
  intros H. unfold rstrip_by. rewrite (lstrip_by_stops _ _ H). apply rev_involutive.
Qed.

Lemma strip_by_stops (p : ascii -> bool) (s : string) :
  stops p s = true -> stops p (rev s) = true -> strip_by p s = s.
Proof.
  intros H1 H2. unfold strip_by. rewrite (lstrip_by_stops _ _ H1).
  apply rstrip_by_stops, H2.
Qed.

Lemma rev_snoc (s : string) (c : ascii) : rev (s +:+ chr c) = String c (rev s).
Proof. rewrite rev_append. reflexivity. Qed.

Lemma stops_all (f p : ascii -> bool) (s : string) :
  (forall c, f c = true -> p c = false) ->
  s <> EmptyString -> all f s = true -> stops p s = true.
Proof.
  intros Hfp Hs H. destruct s as [|c s]; [contradiction|].
  simpl in *. apply andb_prop in H as [H _]. rewrite (Hfp _ H). reflexivity.
Qed.

Lemma split1_first (sep : ascii) (a b : string) :
  mem sep a = false -> split1 sep (a +:+ String sep b) = Some (a, b).
Proof.
  induction a as [|c a IH]; simpl; intros H.
  - rewrite Ascii.eqb_refl. reflexivity.
  - apply orb_false_elim in H as [Hc H]. rewrite Ascii.eqb_sym, Hc, (IH H). reflexivity.
Qed.

Lemma bare_not (c : ascii) :
  bare c = true ->
  is_space c = false /\ Ascii.eqb "=" c = false /\ Ascii.eqb "[" c = false
  /\ Ascii.eqb lf c = false.
Proof.
  destruct c as [[] [] [] [] [] [] [] []]; vm_compute; intros H;
    try discriminate H; repeat split.
Qed.

(** *** A declaration, as the parsers take it apart *)

Lemma declaration_parts (key value : string) :
  bare_key key -> plain_value value ->
  strip (declaration key value) = declaration key value
  /\ String.eqb (declaration key value) "[package]" = false
  /\ startswith "[" (declaration key value) = false
  /\ contains "=" (declaration key value) = true
  /\ split1 "=" (declaration key value)
     = Some (key +:+ " ", " " +:+ GeneratePackages.q value)
  /\ strip (key +:+ " ") = key
  /\ strip_chars GeneratePackages.quotes (strip (" " +:+ GeneratePackages.q value)) = value
  /\ mem lf (declaration key value) = false.
Proof.
  intros [Hne Hkey] (Hlf & Hfront & Hback & _).
  assert (forall c, bare c = true -> is_space c = false) as Hspace
    by (intros c Hc; apply (bare_not c Hc)).
  assert (stops is_space key = true) as Hk1 by (apply (stops_all bare); assumption).
  assert (stops is_space (rev key) = true) as Hk2.
  { apply (stops_all bare); [assumption|apply rev_nonempty, Hne|].
    rewrite all_rev. exact Hkey. }
  assert (mem "=" key = false) as Heq.
  { apply (all_not_mem bare); [exact Hkey|reflexivity]. }
  assert (mem lf key = false) as Hklf.
  { apply (all_not_mem bare); [exact Hkey|reflexivity]. }
  destruct key as [|c key']; [contradiction|].
  simpl in Hkey. apply andb_prop in Hkey as [Hc Hkey].
  destruct (bare_not c Hc) as (Hc1 & Hc2 & Hc3 & Hc4).
  assert (strip (GeneratePackages.q value) = GeneratePackages.q value) as Hq.
  { unfold strip. apply strip_by_stops; [reflexivity|].
    unfold GeneratePackages.q. rewrite <- append_assoc, rev_snoc. reflexivity. }
  repeat split.
  - unfold strip. apply strip_by_stops.
    + simpl. rewrite Hc1. reflexivity.
    + unfold declaration, GeneratePackages.q.
      rewrite <- !append_assoc, rev_snoc. reflexivity.
  - simpl. rewrite Ascii.eqb_sym, Hc3. reflexivity.
  - unfold declaration. cbn [String.append startswith]. rewrite Hc3. reflexivity.
  - apply contains_part. exists (String c key' +:+ " "), (" " +:+ GeneratePackages.q value).
    unfold declaration. rewrite !append_assoc. reflexivity.
  - unfold declaration.
    change (" = " +:+ GeneratePackages.q value)
      with (" " +:+ String "=" (" " +:+ GeneratePackages.q value)).
    rewrite <- append_assoc. apply split1_first.
    rewrite mem_append, Heq. reflexivity.
  - unfold strip, strip_by. rewrite lstrip_by_stops.
    + unfold rstrip_by.
      change (String c key' +:+ " ") with (String c key' +:+ chr " ").
      rewrite rev_snoc. simpl lstrip_by.
      rewrite (lstrip_by_stops _ _ Hk2). apply rev_involutive.
    + simpl. rewrite Hc1. reflexivity.
  - assert (strip (" " +:+ GeneratePackages.q value) = GeneratePackages.q value) as ->.
    { unfold strip, strip_by. simpl lstrip_by. exact Hq. }
    unfold strip_chars, strip_by. fold is_quote.
    unfold GeneratePackages.q. simpl lstrip_by.
    destruct value as [|v value']; [reflexivity|].
    rewrite lstrip_by_stops.
    + unfold rstrip_by. rewrite rev_snoc. simpl lstrip_by.
      rewrite (lstrip_by_stops _ _ Hback). apply rev_involutive.
    + exact Hfront.
  - unfold declaration, GeneratePackages.q.
    rewrite !mem_append, Hklf, Hlf. reflexivity.
Qed.

Lemma generator_parse_declaration (d : gmap string pyval) (key value : string) :
  bare_key key -> plain_value value ->
  GeneratePackages.parse_line (true, d) (declaration key value)
  = (true, <[key := VStr value]> d).
Proof.
  intros Hk Hv.
  destruct (declaration_parts key value Hk Hv)
    as (H1 & H2 & H3 & H4 & H5 & H6 & H7 & _).
  destruct Hv as (_ & _ & _ & Hb). unfold bracketed in Hb.
  unfold GeneratePackages.parse_line.
  rewrite H1, H2, H3, H4, H5, H6, H7, Hb. reflexivity.
Qed.

Lemma checker_parse_declaration (d : gmap string string) (key value : string) :
  bare_key key -> plain_value value ->
  ValidateVersions.parse_line (true, d) (declaration key value)
  = (true, <[key := value]> d).
Proof.
  intros Hk Hv.
  destruct (declaration_parts key value Hk Hv)
    as (H1 & H2 & H3 & H4 & H5 & H6 & H7 & _).
  unfold ValidateVersions.parse_line.
  change ValidateVersions.quotes with GeneratePackages.quotes.
  rewrite H1, H2, H3, H4, H5, H6, H7. reflexivity.
Qed.

Lemma generator_parse_declarations (pairs : list (string * string))
    (d : gmap string pyval) :
  Forall (fun kv => bare_key (fst kv) /\ plain_value (snd kv)) pairs ->
  fold_left GeneratePackages.parse_line
    (map (fun kv => declaration (fst kv) (snd kv)) pairs) (true, d)
  = (true, fold_left (fun m kv => <[fst kv := VStr (snd kv)]> m) pairs d).
Proof.
  intros H. revert d. induction H as [|kv pairs [Hk Hv] _ IH]; intros d; [reflexivity|].
  cbn [map fold_left]. rewrite generator_parse_declaration by assumption. apply IH.
Qed.

Lemma checker_parse_declarations (pairs : list (string * string))
    (d : gmap string string) :
  Forall (fun kv => bare_key (fst kv) /\ plain_value (snd kv)) pairs ->
  fold_left ValidateVersions.parse_line
    (map (fun kv => declaration (fst kv) (snd kv)) pairs) (true, d)
  = (true, fold_left (fun m kv => <[fst kv := snd kv]> m) pairs d).
Proof.
  intros H. revert d. induction H as [|kv pairs [Hk Hv] _ IH]; intros d; [reflexivity|].
  cbn [map fold_left]. rewrite checker_parse_declaration by assumption. apply IH.
Qed.

Lemma package_section_lines (pairs : list (string * string)) :
  Forall (fun kv => bare_key (fst kv) /\ plain_value (snd kv)) pairs ->
  split lf (package_section pairs)
  = "[package]" :: map (fun kv => declaration (fst kv) (snd kv)) pairs.
Proof.
  intros H. unfold package_section. apply split_unlines; [discriminate|].
  constructor; [reflexivity|].
  apply Forall_map. eapply Forall_impl; [exact H|].
  intros kv [Hk Hv]. apply (declaration_parts _ _ Hk Hv).
Qed.

(** X4.  A package section of bare keys with double-quoted values is read
    back pair by pair, by both parsers; a key that is declared again
    takes its later value. *)
Theorem package_section_round_trip (pairs : list (string * string)) :
  Forall (fun kv => bare_key (fst kv) /\ plain_value (snd kv)) pairs ->
  GeneratePackages.parse_toml_simple (package_section pairs)
  = fold_left (fun m kv => <[fst kv := VStr (snd kv)]> m) pairs ∅
  /\ ValidateVersions.parse_toml_simple (package_section pairs)
     = fold_left (fun m kv => <[fst kv := snd kv]> m) pairs ∅.
Proof.
  intros H.
  unfold GeneratePackages.parse_toml_simple, ValidateVersions.parse_toml_simple.
  rewrite (package_section_lines pairs H). cbn [fold_left].
  change (GeneratePackages.parse_line (false, ∅) "[package]") with (true, ∅ : gmap string pyval).
  change (ValidateVersions.parse_line (false, ∅) "[package]") with (true, ∅ : gmap string string).
  rewrite generator_parse_declarations, checker_parse_declarations by exact H.
  split; reflexivity.
Qed.

Lemma package_section_round_trip_witness :
  GeneratePackages.parse_toml_simple
    (package_section [ ("name", "lazycelery"); ("version", "0.1.0"); ("version", "1.2.3") ])
  = fold_left (fun m kv => <[fst kv := VStr (snd kv)]> m)
      [ ("name", "lazycelery"); ("version", "0.1.0"); ("version", "1.2.3") ] ∅
  /\ ValidateVersions.parse_toml_simple
       (package_section [ ("name", "lazycelery"); ("version", "0.1.0"); ("version", "1.2.3") ])
     = fold_left (fun m kv => <[fst kv := snd kv]> m)
         [ ("name", "lazycelery"); ("version", "0.1.0"); ("version", "1.2.3") ] ∅.
Proof.
  apply package_section_round_trip.
  repeat constructor; try discriminate.
Defined.

(** *** The authors the loader keeps *)












(** ** [validate_url] against the grammar *)

Lemma alnum_dash_dot_not_slash (c : ascii) :
  alnum_dash_dot c = true -> Ascii.eqb "/" c = false.
Proof. destruct c as [[] [] [] [] [] [] [] []]; (discriminate || reflexivity). Qed.

Lemma all_dot (s : string) : all dot s = true <-> mem lf s = false.
Proof.
  induction s as [|c s IH]; cbn [all mem]; [tauto|].
  unfold dot at 1. rewrite andb_true_iff, orb_false_iff, IH, negb_true_iff.
  rewrite (Ascii.eqb_sym lf c). tauto.
Qed.

Lemma at_eos_after (p : ascii -> bool) (c : ascii) (rest : string) :
  (p c = true -> Ascii.eqb c lf = false) -> p c = true ->
  at_eos (String c rest) = false.
Proof. intros H Hc. simpl. destruct rest; [apply H, Hc|reflexivity]. Qed.

Section Url.

Variable subject : string.

Lemma url_tail_after_host (c : ascii) (rest : string) :
  alnum_dash_dot c = true ->
  run subject url_tail_re (String c rest) None accept = None.
Proof.
  intros Hc. unfold url_tail_re. cbn [Seq run Lit].
  rewrite (alnum_dash_dot_not_slash c Hc).
  rewrite (at_eos_after alnum_dash_dot c rest (alnum_dash_dot_not_lf c) Hc).
  reflexivity.
Qed.

Lemma url_tail_ending (s : string) :
  ending s -> run subject url_tail_re s None accept = Some (s, None).
Proof. intros [-> | ->]; reflexivity. Qed.

Lemma eos_after_dot (cap : option string) (c : ascii) (rest : string) :
  dot c = true -> run subject (Seq [Eos]) (String c rest) cap accept = None.
Proof.
  intros Hc. cbn [Seq run].
  rewrite (at_eos_after dot c rest); [reflexivity| |exact Hc].
  unfold dot. intros H. apply negb_true_iff in H. exact H.
Qed.

Lemma url_tail_path (path e : string) :
  mem lf path = false -> ending e ->
  exists o, run subject url_tail_re ("/" +:+ path +:+ e) None accept = Some o.
Proof.
  intros Hpath He. unfold url_tail_re. cbn [Seq run Lit].
  change ("/" +:+ path +:+ e) with (String "/" (path +:+ e)).
  cbn [Ascii.eqb Bool.eqb]. cbn [run].
  rewrite star_committed.
  - rewrite lstrip_by_all.
    + apply at_eos_ending in He. rewrite He. eexists. reflexivity.
    + apply all_dot, Hpath.
    + destruct He as [-> | ->]; reflexivity.
  - intros c rest Hc. apply (eos_after_dot _ c rest Hc).
Qed.

Lemma url_tail_Some (s : string) (o : outcome) :
  run subject url_tail_re s None accept = Some o ->
  ending s
  \/ exists path e, s = "/" +:+ path +:+ e /\ mem lf path = false /\ ending e.
Proof.
  unfold url_tail_re. cbn [Seq run Lit]. intros H.
  destruct (at_eos s) eqn:Hs; [left; now apply at_eos_ending|].
  right. destruct s as [|c s]; [discriminate Hs|].
  destruct (Ascii.eqb_spec "/" c) as [<-|Hc]; [|discriminate H].
  cbn [run] in H.
  rewrite star_committed in H.
  - exists (take_while dot s), (lstrip_by dot s).
    split; [simpl; f_equal; apply take_while_lstrip|].
    split; [apply all_dot, all_take_while|].
    apply at_eos_ending.
    destruct (at_eos (lstrip_by dot s)); [reflexivity|].
    destruct (at_eos (String "/" s)); discriminate H.
  - intros c rest Hc. apply (eos_after_dot _ c rest Hc).
Qed.

Lemma url_host_accepts (host t : string) (o : outcome) :
  hostname host -> stops alnum_dash_dot t = true ->
  run subject url_tail_re t None accept = Some o ->
  run subject url_host_re (host +:+ t) None accept = Some o.
Proof.
  intros [Hne Hall] Ht Ho. unfold url_host_re. cbn [run].
  rewrite run_plus_append; try assumption.
  intros c rest Hc. now apply url_tail_after_host.
Qed.

Lemma url_host_Some (s : string) (o : outcome) :
  run subject url_host_re s None accept = Some o ->
  exists host t, s = host +:+ t /\ hostname host
                 /\ run subject url_tail_re t None accept = Some o.
Proof.
  unfold url_host_re. cbn [run]. intros H. apply run_plus_Some in H.
  - destruct H as (host & t & -> & Hne & Hall & _ & H).
    exists host, t. split; [reflexivity|]. split; [split; assumption|exact H].
  - intros c rest Hc. now apply url_tail_after_host.
Qed.

End Url.

Lemma run_lit_fail (subject t s : string) (cap : option string)
    (k : string -> option string -> option outcome) :
  startswith t s = false -> run subject (Lit t) s cap k = None.
Proof.
  intros H. destruct (run subject (Lit t) s cap k) as [o|] eqn:E; [|reflexivity].
  apply run_lit_Some in E. destruct E as (b & -> & _).
  rewrite startswith_append in H. discriminate H.
Qed.

Lemma url_re_host (subject sch x : string) :
  scheme sch ->
  run subject (Seq [Lit "http"; Opt (Lit "s"); Lit "://"; Plus alnum_dash_dot;
                    Opt (Group (Cat (Lit "/") (Star dot))); Eos])
      (sch +:+ "://" +:+ x) None accept
  = run subject url_host_re x None accept.
Proof.
  intros Hsch.
  change (Seq [Lit "http"; Opt (Lit "s"); Lit "://"; Plus alnum_dash_dot;
               Opt (Group (Cat (Lit "/") (Star dot))); Eos])
    with (Cat (Lit "http") (Cat (Opt (Lit "s")) (Cat (Lit "://") url_host_re))).
  destruct Hsch as [-> | ->].
  - cbn [run]. rewrite run_lit_append.
    rewrite (run_lit_fail subject "s") by reflexivity.
    rewrite run_lit_append. reflexivity.
  - change ("https" +:+ "://" +:+ x) with ("http" +:+ ("s" +:+ ("://" +:+ x))).
    cbn [run]. rewrite run_lit_append, run_lit_append, run_lit_append.
    rewrite (run_lit_fail subject "://") by reflexivity.
    destruct (run subject url_host_re x None accept); reflexivity.
Qed.

Lemma url_re_host_Some (subject s : string) (o : outcome) :
  run subject (Seq [Lit "http"; Opt (Lit "s"); Lit "://"; Plus alnum_dash_dot;
                    Opt (Group (Cat (Lit "/") (Star dot))); Eos]) s None accept
  = Some o ->
  exists sch x, s = sch +:+ "://" +:+ x /\ scheme sch
                /\ run subject url_host_re x None accept = Some o.
Proof.
  change (Seq [Lit "http"; Opt (Lit "s"); Lit "://"; Plus alnum_dash_dot;
               Opt (Group (Cat (Lit "/") (Star dot))); Eos])
    with (Cat (Lit "http") (Cat (Opt (Lit "s")) (Cat (Lit "://") url_host_re))).
  cbn [run]. intros H.
  apply run_lit_Some in H. destruct H as (b & -> & H).
  destruct (run subject (Lit "s") b None _) as [o'|] eqn:E.
  - injection H as ->. apply run_lit_Some in E. destruct E as (b' & -> & E).
    apply run_lit_Some in E. destruct E as (x & -> & E).
    exists "https", x. split; [reflexivity|]. split; [right; reflexivity|exact E].
  - apply run_lit_Some in H. destruct H as (x & -> & H).
    exists "http", x. split; [reflexivity|]. split; [left; reflexivity|exact H].
Qed.

Lemma url_re_host_re (s : string) :
  re_match url_re s
  = run s (Seq [Lit "http"; Opt (Lit "s"); Lit "://"; Plus alnum_dash_dot;
                Opt (Group (Cat (Lit "/") (Star dot))); Eos]) s None accept.
Proof.
  unfold re_match, match_at, url_re. cbn [Seq run].
  now rewrite Nat.eqb_refl.
Qed.

Lemma validate_url_matches (s : string) :
  validate_url (VStr s) = Ok s <-> exists o, re_match url_re s = Some o.
Proof.
  unfold validate_url, validate_with.
  destruct (re_match url_re s) as [o|]; split; intros H.
  - now exists o.
  - reflexivity.
  - discriminate H.
  - destruct H as [o H]. discriminate H.
Qed.

Lemma stops_ending (p : ascii -> bool) (e : string) :
  p lf = false -> ending e -> stops p e = true.
Proof. intros Hp [-> | ->]; [reflexivity|]. simpl. rewrite Hp. reflexivity. Qed.

(** X5.  Every URL of the grammar is returned unchanged. *)
Theorem validate_url_accepts (s : string) :
  url s -> validate_url (VStr s) = Ok s.
Proof.
  intros H. apply validate_url_matches. rewrite url_re_host_re.
  destruct H as [sch host Hsch Hhost | sch host path Hsch Hhost Hpath].
  - exists (EmptyString, None).
    rewrite (url_re_host _ sch host Hsch).
    rewrite <- (append_nil_r host) at 2.
    apply url_host_accepts; [exact Hhost|reflexivity|reflexivity].
  - destruct (url_tail_path (sch +:+ "://" +:+ host +:+ "/" +:+ path) path EmptyString
                Hpath (or_introl eq_refl)) as [o Ho].
    rewrite append_nil_r in Ho.
    exists o. rewrite (url_re_host _ sch (host +:+ "/" +:+ path) Hsch).
    apply url_host_accepts; [exact Hhost|reflexivity|exact Ho].
Qed.

Lemma validate_url_accepts_witness :
  validate_url (VStr "https://github.com/Fguedes90/lazycelery")
  = Ok "https://github.com/Fguedes90/lazycelery".
Proof.
  apply validate_url_accepts.
  apply (url_path "https" "github.com" "Fguedes90/lazycelery").
  - right. reflexivity.
  - split; [discriminate | reflexivity].
  - reflexivity.
Defined.

(** X6.  What [validate_url] returns is its argument, and a URL of the
    grammar, possibly followed by one newline. *)
Theorem validate_url_Ok (s t : string) :
  validate_url (VStr s) = Ok t ->
  t = s /\ (url s \/ exists u, s = u +:+ chr lf /\ url u).
Proof.
  intros H. assert (t = s) as ->.
  { unfold validate_url, validate_with in H.
    destruct (re_match url_re s); [congruence | discriminate H]. }
  split; [reflexivity|].
  apply validate_url_matches in H. destruct H as [o H].
  rewrite url_re_host_re in H. apply url_re_host_Some in H.
  destruct H as (sch & x & Hs & Hsch & H).
  apply url_host_Some in H. destruct H as (host & tail & -> & Hhost & H).
  apply url_tail_Some in H.
  destruct H as [[-> | ->] | (path & e & -> & Hpath & [-> | ->])].
  - left. rewrite append_nil_r in Hs. subst s. now constructor.
  - right. exists (sch +:+ "://" +:+ host).
    split; [now rewrite Hs, !append_assoc | now constructor].
  - left. rewrite append_nil_r in Hs. subst s. now constructor.
  - right. exists (sch +:+ "://" +:+ host +:+ "/" +:+ path).
    split; [rewrite Hs, !append_assoc; reflexivity | now constructor].
Qed.

Lemma validate_url_Ok_witness :
  "https://github.com" +:+ chr lf = "https://github.com" +:+ chr lf
  /\ (url ("https://github.com" +:+ chr lf)
      \/ exists u, "https://github.com" +:+ chr lf = u +:+ chr lf /\ url u).
Proof.
  apply (validate_url_Ok ("https://github.com" +:+ chr lf)).
  vm_compute. reflexivity.
Defined.

(** ** [main] of the generator *)

(** X7.  When [main] ends with status 0, every generator has returned a
    text: with metadata that has passed the checks of [main], no
    generator raises.  The file of each generator then holds that text
    where it can be written; where [mkdir] or [open] raises (a regular
    file stands for a directory above the file, or a directory for the
    file) the loop goes on, and what is at that path is left as it
    was. *)
Theorem generator_main_writes_every_output (net : string -> option string)
    (argv : list string) (disk : fsys) :
  fst (GeneratePackages.main net argv disk) = 0%Z ->
  exists md,
    checked_metadata disk = Ok md
    /\ Forall (fun entry =>
                 exists out,
                   snd entry md (hashes_asked argv) = Ok out
                   /\ read (snd (GeneratePackages.main net argv disk))
                        (output_path (fst entry))
                      = (if writable disk (output_path (fst entry))
                         then Some out
                         else read disk (output_path (fst entry))))
              (generators net).
Proof.
  intros Hstatus.
  destruct (checked_metadata disk) as [md|e] eqn:Hmd.
  - exists md. split; [reflexivity|].
    pose proof (generators_succeed net disk md (hashes_asked argv) Hmd) as Hok.
    rewrite Forall_forall in Hok. apply Forall_forall. intros entry Hin.
    destruct (Hok entry Hin) as [out Hout]. exists out. split; [exact Hout|].
    apply (main_written net argv disk md entry out Hmd Hin Hout).
  - exfalso. revert Hstatus. unfold GeneratePackages.main. rewrite Hmd.
    destruct (negb (file_exists disk "Cargo.toml")); discriminate.
Qed.

Lemma generator_main_writes_every_output_witness :
  exists md,
    checked_metadata consistent_disk = Ok md
    /\ Forall (fun entry =>
                 exists out,
                   snd entry md (hashes_asked ["--calculate-hashes"]) = Ok out
                   /\ read (snd (GeneratePackages.main offline ["--calculate-hashes"]
                                   consistent_disk))
                        (output_path (fst entry))
                      = (if writable consistent_disk (output_path (fst entry))
                         then Some out
                         else read consistent_disk (output_path (fst entry))))
              (generators offline).
Proof.
  apply (generator_main_writes_every_output offline ["--calculate-hashes"] consistent_disk).
  vm_compute. reflexivity.
Defined.

(** X8.  [main] ends with status 0 or 1; with 0 exactly when Cargo.toml is
    there and its name, version, repository and home page, or their
    defaults, pass the four checks; and with status 1 it has written
    nothing. *)
Theorem generator_main_exit_status (net : string -> option string)
    (argv : list string) (disk : fsys) :
  (fst (GeneratePackages.main net argv disk) = 0%Z
   \/ fst (GeneratePackages.main net argv disk) = 1%Z)
  /\ (fst (GeneratePackages.main net argv disk) = 0%Z <->
      exists content,
        read disk "Cargo.toml" = Some content
        /\ (exists version,
              validate_version
                (md_version (metadata_of (GeneratePackages.parse_toml_simple content)))
              = Ok version)
        /\ (exists repository,
              validate_url
                (md_repository (metadata_of (GeneratePackages.parse_toml_simple content)))
              = Ok repository)
        /\ (exists homepage,
              validate_url
                (md_homepage (metadata_of (GeneratePackages.parse_toml_simple content)))
              = Ok homepage)
        /\ (exists name,
              sanitize_input
                (md_name (metadata_of (GeneratePackages.parse_toml_simple content)))
                50 (Some name_chars)
              = Ok name))
  /\ (fst (GeneratePackages.main net argv disk) = 1%Z ->
      snd (GeneratePackages.main net argv disk) = disk).
Proof.
  unfold GeneratePackages.main.
  destruct (file_exists disk "Cargo.toml") eqn:Hex; cbn [negb].
  - unfold file_exists in Hex. apply bool_decide_eq_true_1 in Hex.
    destruct Hex as [content Hread]. fold (read disk "Cargo.toml") in Hread.
    unfold checked_metadata, load_cargo_metadata. rewrite Hread. cbn [bind].
    set (md := metadata_of (GeneratePackages.parse_toml_simple content)).
    destruct (validate_version (md_version md)) as [version|e1] eqn:Hv; cbn [bind].
    2:{ split; [right; reflexivity|]. split; [|reflexivity].
        split; [discriminate|]. intros (c & Hc & [v Hv'] & _).
        assert (c = content) as -> by congruence. fold md in Hv'. congruence. }
    destruct (validate_url (md_repository md)) as [repository|e2] eqn:Hr; cbn [bind].
    2:{ split; [right; reflexivity|]. split; [|reflexivity].
        split; [discriminate|]. intros (c & Hc & _ & [r Hr'] & _).
        assert (c = content) as -> by congruence. fold md in Hr'. congruence. }
    destruct (validate_url (md_homepage md)) as [homepage|e3] eqn:Hh; cbn [bind].
    2:{ split; [right; reflexivity|]. split; [|reflexivity].
        split; [discriminate|]. intros (c & Hc & _ & _ & [h Hh'] & _).
        assert (c = content) as -> by congruence. fold md in Hh'. congruence. }
    destruct (sanitize_input (md_name md) 50 (Some name_chars)) as [name|e4] eqn:Hn;
      cbn [bind].
    2:{ split; [right; reflexivity|]. split; [|reflexivity].
        split; [discriminate|]. intros (c & Hc & _ & _ & _ & [n Hn']).
        assert (c = content) as -> by congruence. fold md in Hn'. congruence. }
    split; [left; reflexivity|]. split; [|discriminate].
    split; [|reflexivity]. intros _. exists content. fold md. eauto 10.
  - split; [right; reflexivity|]. split; [|reflexivity].
    split; [discriminate|]. intros (c & Hc & _).
    unfold file_exists in Hex. apply bool_decide_eq_false_1 in Hex.
    exfalso. apply Hex. unfold read in Hc. rewrite Hc. eauto.
Qed.

Lemma generator_main_exit_status_witness :
  snd (GeneratePackages.main offline [] short_version_disk) = short_version_disk.
Proof.
  apply (proj2 (proj2 (generator_main_exit_status offline [] short_version_disk))).
  vm_compute. reflexivity.
Defined.

(** X9.  [main] leaves every file other than its six outputs as it was,
    and removes no directory. *)
Theorem generator_main_keeps_other_files (net : string -> option string)
    (argv : list string) (disk : fsys) (path : string) :
  path ∉ map (fun entry => output_path (fst entry)) (generators net) ->
  read (snd (GeneratePackages.main net argv disk)) path = read disk path
  /\ dirs disk ⊆ dirs (snd (GeneratePackages.main net argv disk)).
Proof.
  intros H. unfold GeneratePackages.main.
  destruct (negb (file_exists disk "Cargo.toml")); [split; reflexivity|].
  destruct (checked_metadata disk) as [md|e]; [|split; reflexivity].
  cbn [snd]. split; [apply generate_all_other, H|apply generate_all_dirs].
Qed.

Lemma generator_main_keeps_other_files_witness :
  read (snd (GeneratePackages.main offline [] consistent_disk)) "Cargo.toml"
  = read consistent_disk "Cargo.toml"
  /\ dirs consistent_disk ⊆ dirs (snd (GeneratePackages.main offline [] consistent_disk)).
Proof.
  apply (generator_main_keeps_other_files offline [] consistent_disk "Cargo.toml").
  unfold generators. cbn [map fst].
  rewrite !not_elem_of_cons. repeat split; try discriminate. apply not_elem_of_nil.
Defined.

(** *** Hashing *)

Lemma sha256_hash_for_offline (net : string -> option string) (calc : bool)
    (url : string) :
  (forall u, net u = None) -> sha256_hash_for net calc url = PLACEHOLDER_SHA256.
Proof. intros H. unfold sha256_hash_for. rewrite H. destruct calc; reflexivity. Qed.

Lemma generators_offline (net : string -> option string) (md : metadata) (calc : bool) :
  (forall u, net u = None) ->
  Forall (fun entry => snd entry md calc = snd entry md false) (generators net).
Proof.
  intros H. unfold generators.
  repeat constructor; cbn [snd];
    unfold generate_pkgbuild_source, generate_pkgbuild_bin, generate_homebrew_formula,
      generate_chocolatey_nuspec, generate_scoop_manifest, generate_snapcraft_yaml;
    try reflexivity;
    destruct (sanitize_input (md_name md) 50 (Some name_chars)); try reflexivity;
    destruct (validate_version (md_version md)); try reflexivity;
    destruct (validate_url (md_repository md)); try reflexivity;
    destruct (validate_url (md_homepage md)); try reflexivity;
    cbn [bind]; rewrite !(sha256_hash_for_offline net _ _ H); reflexivity.
Qed.

Lemma generate_all_ext (md : metadata) (calc calc' : bool)
    (entries : list (string * (metadata -> bool -> result string))) (disk : fsys) :
  Forall (fun entry => snd entry md calc = snd entry md calc') entries ->
  fold_left (generate_one md calc) entries disk
  = fold_left (generate_one md calc') entries disk.
Proof.
  intros H. revert disk. induction H as [|[file_path generator] entries He _ IH];
    intros disk; [reflexivity|].
  cbn [fold_left]. rewrite IH. f_equal. unfold generate_one.
  cbn [snd] in He. rewrite He. reflexivity.
Qed.

(** X10.  When no URL can be fetched, asking for hashes changes nothing:
    every generator returns what it returns without hashing, and [main]
    does the same whatever its arguments. *)
Theorem hashing_offline (net : string -> option string) (md : metadata)
    (argv argv' : list string) (disk : fsys) :
  (forall url, net url = None) ->
  Forall (fun entry => snd entry md true = snd entry md false) (generators net)
  /\ GeneratePackages.main net argv disk = GeneratePackages.main net argv' disk.
Proof.
  intros H. split; [apply generators_offline, H|].
  unfold GeneratePackages.main.
  destruct (negb (file_exists disk "Cargo.toml")); [reflexivity|].
  destruct (checked_metadata disk) as [md'|e]; [|reflexivity].
  f_equal.
  rewrite (generate_all_ext md' (bool_decide ("--calculate-hashes" ∈ argv)) false)
    by apply generators_offline, H.
  rewrite (generate_all_ext md' (bool_decide ("--calculate-hashes" ∈ argv')) false)
    by apply generators_offline, H.
  reflexivity.
Qed.

Lemma hashing_offline_witness :
  Forall (fun entry => snd entry default_metadata true = snd entry default_metadata false)
         (generators offline)
  /\ GeneratePackages.main offline ["--calculate-hashes"] consistent_disk
     = GeneratePackages.main offline [] consistent_disk.
Proof.
  apply (hashing_offline offline default_metadata ["--calculate-hashes"] []
           consistent_disk).
  reflexivity.
Defined.

(** *** Running the generator again *)

Lemma generate_one_absorbed (md : metadata) (calc : bool) (disk : fsys)
    (entry : string * (metadata -> bool -> result string)) :
  output_path (fst entry) ∉ ancestors (output_path (fst entry)) ->
  (forall out, snd entry md calc = Ok out ->
     (writable disk (output_path (fst entry)) = true ->
      read disk (output_path (fst entry)) = Some out)
     /\ (blocked disk (output_path (fst entry)) = false ->
         list_to_set (ancestors (output_path (fst entry))) ⊆ dirs disk)) ->
  generate_one md calc disk entry = disk.
Proof.
  intros Hself H. destruct (snd entry md calc) as [out|e] eqn:Hout.
  - destruct (H out eq_refl) as [Hread Hdirs].
    destruct (blocked disk (output_path (fst entry))) eqn:Hb.
    + apply generate_one_blocked, Hb.
    + rewrite (generate_one_made _ _ _ _ _ Hself Hout Hb).
      unfold writable in Hread. rewrite Hb in Hread.
      destruct disk as [fl ds]. unfold read in Hread. cbn [files dirs negb andb] in *.
      f_equal.
      * destruct (dir_exists _ _); [reflexivity|]. apply insert_id, Hread. reflexivity.
      * rewrite (comm_L (∪)). apply subseteq_union_1_L, Hdirs. reflexivity.
  - destruct entry as [file_path generator]. apply (generate_one_raises _ _ _ _ _ e Hout).
Qed.

Lemma generate_all_absorbed (md : metadata) (calc : bool)
    (entries : list (string * (metadata -> bool -> result string))) (disk : fsys) :
  Forall (fun entry =>
            (output_path (fst entry) ∉ ancestors (output_path (fst entry)))
            /\ forall out, snd entry md calc = Ok out ->
                 (writable disk (output_path (fst entry)) = true ->
                  read disk (output_path (fst entry)) = Some out)
                 /\ (blocked disk (output_path (fst entry)) = false ->
                     list_to_set (ancestors (output_path (fst entry))) ⊆ dirs disk))
         entries ->
  fold_left (generate_one md calc) entries disk = disk.
Proof.
  induction 1 as [|entry entries [Hself He] _ IH]; [reflexivity|].
  cbn [fold_left]. rewrite (generate_one_absorbed _ _ _ _ Hself He). exact IH.
Qed.

(** X11.  Running the generator a second time changes nothing: [main] on
    the files it has left gives the same status and the same files. *)
Theorem generator_main_idempotent (net : string -> option string)
    (argv : list string) (disk : fsys) :
  GeneratePackages.main net argv (snd (GeneratePackages.main net argv disk))
  = GeneratePackages.main net argv disk.
Proof.
  assert ("Cargo.toml" ∉ map (fun entry => output_path (fst entry)) (generators net))
    as Hcargo.
  { unfold generators. cbn [map fst].
    rewrite !not_elem_of_cons. repeat split; try discriminate. apply not_elem_of_nil. }
  unfold GeneratePackages.main at 2 3.
  destruct (negb (file_exists disk "Cargo.toml")) eqn:Hex; cbn [snd].
  { unfold GeneratePackages.main. rewrite Hex. reflexivity. }
  destruct (checked_metadata disk) as [md|e] eqn:Hmd; cbn [snd].
  2:{ unfold GeneratePackages.main. rewrite Hex, Hmd. reflexivity. }
  set (calc := bool_decide ("--calculate-hashes" ∈ argv)).
  set (disk' := fold_left (generate_one md calc) (generators net) disk).
  assert (read disk' "Cargo.toml" = read disk "Cargo.toml") as Hread
    by apply generate_all_other, Hcargo.
  unfold GeneratePackages.main. fold calc.
  rewrite (file_exists_reads _ _ _ Hread), Hex.
  rewrite (checked_metadata_reads _ _ Hread), Hmd.
  f_equal. apply generate_all_absorbed.
  pose proof (generate_all_written md calc (generators net) disk (generators_apart net))
    as Hw.
  fold disk' in Hw. rewrite Forall_forall in Hw. apply Forall_forall.
  intros entry Hin. split.
  - apply (apart_self _ _ (generators_apart net)).
    apply (list_elem_of_fmap_2 (fun entry => output_path (fst entry))), Hin.
  - intros out Hout. destruct (Hw entry Hin out Hout) as (Hr & Hwr & Hb & Hd).
    split.
    + intros H. rewrite Hr. unfold written. rewrite <- Hwr, H. reflexivity.
    + intros H. apply Hd. rewrite <- Hb. exact H.
Qed.

(** ** The verdict on the toolchain versions *)

Lemma truthy_Some (x : option string) :
  truthy x = true -> x = Some (str_of x).
Proof. destruct x; [reflexivity|discriminate]. Qed.

Lemma grows_unchanged (base : list string) (st : bool * validator) :
  grows base st -> (fst st = true <-> errors (snd st) = base).
Proof.
  intros (added & -> & H). rewrite H. split.
  - intros ->. apply app_nil_r.
  - intros E. rewrite <- (app_nil_r base) in E at 2. exact (app_inv_head _ _ _ E).
Qed.

Lemma toolchains_agree_iff (disk : fsys) (v : validator) :
  fst (validate_rust_versions disk v) = true <-> toolchains_agree disk.
Proof.
  unfold toolchains_agree, validate_rust_versions, compare_rust.
  destruct (get_cargo_rust_version disk) as [c|];
    destruct (get_mise_rust_version disk) as [m|];
    destruct (get_dockerfile_rust_version disk) as [d|];
    cbn [truthy str_of default];
    repeat match goal with
           | |- context [nonempty ?x] => destruct (nonempty x) eqn:?
           end;
    cbn [negb andb fst snd];
    repeat match goal with
           | |- context [String.eqb ?a ?b] => destruct (String.eqb_spec a b)
           end;
    cbn [negb andb fst snd]; unfold id in *; subst;
    split; try discriminate; try tauto;
    intuition (try discriminate; try congruence).
Qed.

(** X12.  [validate_rust_versions] returns True exactly when Cargo.toml and
    .mise.toml both give a toolchain version, the two are the same, and
    the Dockerfile gives that version or none; and exactly then it has
    recorded no error. *)
Theorem rust_versions_verdict (disk : fsys) (v : validator) :
  (fst (validate_rust_versions disk v) = true <-> toolchains_agree disk)
  /\ (fst (validate_rust_versions disk v) = true <->
      errors (snd (validate_rust_versions disk v)) = errors v).
Proof.
  split.
  - apply toolchains_agree_iff.
  - apply grows_unchanged, validate_rust_versions_grows.
Qed.

(** ** The verdict on the package files *)







(** ** Placeholder hashes *)

(** The warnings of the loop: one for each entry that holds the
    placeholder, in the order of the entries. *)
Lemma check_placeholders_warnings (entries : list (string * string)) (v : validator) :
  exists paths,
    warnings (fold_left check_placeholder entries v)
    = warnings v ++ map (fun path => "Placeholder SHA256 found in " +:+ path) paths
    /\ paths `sublist_of` map fst entries
    /\ forall path,
         path ∈ paths
         <-> exists content,
               (path, content) ∈ entries
               /\ startswith "packaging/" path = true
               /\ suffix path ∈ hash_suffixes
               /\ contains "PLACEHOLDER_SHA256" content = true.
Proof.
  revert v. induction entries as [|[p c] entries IH]; intros v; cbn [fold_left map fst].
  - exists []. split; [symmetry; apply app_nil_r|]. split; [constructor|].
    intros path. split; [intros H; inversion H|].
    intros (content & H & _). inversion H.
  - assert (warnings (check_placeholder v (p, c))
            = warnings v
              ++ (if startswith "packaging/" p && bool_decide (suffix p ∈ hash_suffixes)
                     && contains "PLACEHOLDER_SHA256" c
                  then ["Placeholder SHA256 found in " +:+ p] else [])) as Hv.
    { unfold check_placeholder. destruct (_ && _); [reflexivity|].
      symmetry. apply app_nil_r. }
    destruct (IH (check_placeholder v (p, c))) as (paths & Hw & Hsub & Hin).
    rewrite Hv in Hw. clear Hv.
    destruct (startswith "packaging/" p && bool_decide (suffix p ∈ hash_suffixes)
              && contains "PLACEHOLDER_SHA256" c) eqn:Hsel.
    + exists (p :: paths). split; [|split].
      * rewrite Hw. cbn [map]. rewrite <- app_assoc. reflexivity.
      * apply sublist_skip, Hsub.
      * apply andb_prop in Hsel as [Hsel H3]. apply andb_prop in Hsel as [H1 H2].
        apply bool_decide_eq_true_1 in H2.
        intros path. rewrite elem_of_cons, Hin. split.
        -- intros [-> | (content & H & Hrest)].
           ++ exists c. split; [left|]. auto.
           ++ exists content. split; [right; exact H|exact Hrest].
        -- intros (content & H & Hrest). apply elem_of_cons in H as [H | H].
           ++ injection H as -> ->. left. reflexivity.
           ++ right. exists content. split; assumption.
    + rewrite app_nil_r in Hw.
      exists paths. split; [exact Hw|]. split; [apply sublist_cons, Hsub|].
      intros path. rewrite Hin. split.
      * intros (content & H & Hrest). exists content. split; [right; exact H|exact Hrest].
      * intros (content & H & H1 & H2 & H3). apply elem_of_cons in H as [H | H].
        -- injection H as -> ->.
           rewrite H1, H3, (bool_decide_eq_true_2 _ H2) in Hsel. discriminate Hsel.
        -- exists content. split; [exact H|]. auto.
Qed.

(** X14.  [check_placeholder_hashes] returns True and records no error.
    The warnings it appends are exactly one for each file below
    [packaging/] with one of the five suffixes whose text holds
    [PLACEHOLDER_SHA256], each file once and in some order, when there is
    a packaging directory, and none otherwise. *)
Theorem placeholder_hashes_only_warn (disk : fsys) (v : validator) :
  fst (check_placeholder_hashes disk v) = true
  /\ errors (snd (check_placeholder_hashes disk v)) = errors v
  /\ exists paths,
       warnings (snd (check_placeholder_hashes disk v))
       = warnings v ++ map (fun path => "Placeholder SHA256 found in " +:+ path) paths
       /\ NoDup paths
       /\ forall path,
            path ∈ paths
            <-> dir_exists disk "packaging" = true /\ holds_placeholder disk path.
Proof.
  split; [unfold check_placeholder_hashes; destruct (negb _); reflexivity|].
  split; [apply check_placeholder_hashes_errors|].
  unfold check_placeholder_hashes.
  destruct (dir_exists disk "packaging"); cbn [negb snd].
  - destruct (check_placeholders_warnings (map_to_list (files disk)) v)
      as (paths & Hw & Hsub & Hin).
    exists paths. split; [exact Hw|]. split.
    + eapply sublist_NoDup; [|exact Hsub]. apply NoDup_fst_map_to_list.
    + intros path. rewrite Hin. unfold holds_placeholder, read. split.
      * intros (content & H & Hrest). split; [reflexivity|].
        exists content. split; [apply elem_of_map_to_list, H|exact Hrest].
      * intros (_ & content & H & Hrest).
        exists content. split; [apply elem_of_map_to_list, H|exact Hrest].
  - exists []. split; [symmetry; apply app_nil_r|]. split; [constructor|].
    intros path. split; [intros H; inversion H|]. intros [H _]. discriminate H.
Qed.

(** ** What the Checker does to the files *)

Lemma generator_main_other (net : string -> option string) (argv : list string)
    (disk : fsys) (path : string) :
  path ∉ map (fun entry => output_path (fst entry)) (generators net) ->
  read (snd (GeneratePackages.main net argv disk)) path = read disk path.
Proof.
  intros H. unfold GeneratePackages.main.
  destruct (negb (file_exists disk "Cargo.toml")); [reflexivity|].
  destruct (checked_metadata disk) as [md|e]; [|reflexivity].
  cbn [snd]. apply generate_all_other, H.
Qed.

Section Effects.

Variable re_template : string -> option (string -> string).
Variable net : string -> option string.

Abbreviation checker_main := (ValidateVersions.main re_template net).

Lemma fix_file_effect (path : string) (pattern : re) (template : string)
    (st : status * world) :
  exists l,
    log (snd (fix_file re_template path pattern template st)) = log (snd st) ++ l
    /\ (l = [] \/ l = [Wrote path])
    /\ forall other, other <> path ->
         read (fs (snd (fix_file re_template path pattern template st))) other
         = read (fs (snd st)) other.
Proof.
  assert (exists l, log (snd st) = log (snd st) ++ l
                    /\ (l = [] \/ l = [Wrote path])
                    /\ forall other, other <> path ->
                         read (fs (snd st)) other = read (fs (snd st)) other) as Hsame.
  { exists []. rewrite app_nil_r. auto. }
  destruct st as [[fixed_any|] w]; unfold fix_file; [|exact Hsame].
  destruct (read (fs w) path) as [content|]; [|exact Hsame].
  destruct (expand_template re_template template) as [repl|]; [|exact Hsame].
  destruct (negb _); [|exact Hsame].
  exists [Wrote path]. cbn [snd write_file log fs]. split; [reflexivity|].
  split; [auto|]. intros other H. unfold read, write. cbn [files].
  apply lookup_insert_ne. congruence.
Qed.

Lemma fix_rust_versions_effect (target_version : string) (w : world) :
  exists l,
    log (snd (fix_rust_versions re_template target_version w)) = log w ++ l
    /\ l `sublist_of` [Wrote "Cargo.toml"; Wrote "Dockerfile"]
    /\ forall other, other <> "Cargo.toml" -> other <> "Dockerfile" ->
         read (fs (snd (fix_rust_versions re_template target_version w))) other
         = read (fs w) other.
Proof.
  unfold fix_rust_versions.
  destruct (fix_file_effect "Cargo.toml" cargo_rust_re
              ("rust-version = " +:+ q target_version) (Returned false, w))
    as (l1 & H1 & Hl1 & Hr1).
  destruct (fix_file_effect "Dockerfile" docker_from_re ("FROM rust:" +:+ target_version)
              (fix_file re_template "Cargo.toml" cargo_rust_re
                 ("rust-version = " +:+ q target_version) (Returned false, w)))
    as (l2 & H2 & Hl2 & Hr2).
  exists (l1 ++ l2). rewrite H2, H1, app_assoc. split; [reflexivity|]. split.
  - destruct Hl1 as [-> | ->], Hl2 as [-> | ->]; cbn [app]; repeat constructor.
  - intros other Hc Hd. rewrite (Hr2 other Hd). apply (Hr1 other Hc).
Qed.

Lemma fix_package_versions_effect (target_version : string) (w : world) :
  exists l,
    log (snd (fix_package_versions net target_version w)) = log w ++ l
    /\ l `sublist_of` [Ran [generate_script]]
    /\ forall other,
         other ∉ map (fun entry => output_path (fst entry)) (generators net) ->
         read (fs (snd (fix_package_versions net target_version w))) other
         = read (fs w) other.
Proof.
  unfold fix_package_versions.
  destruct (negb (file_exists (fs w) generate_script)).
  - exists []. rewrite app_nil_r. cbn [snd].
    split; [reflexivity|]. split; [repeat constructor|auto].
  - pose proof (generator_main_other net [generate_script] (fs w)) as H.
    destruct (GeneratePackages.main net [generate_script] (fs w)) as [returncode disk'].
    exists [Ran [generate_script]]. cbn [snd log fs] in *.
    split; [reflexivity|]. split; [repeat constructor|exact H].
Qed.

Lemma checker_main_effect (fix_mode : bool) (disk : fsys) :
  log (after (checker_main fix_mode disk)) `sublist_of` fix_effects
  /\ forall other, other ∉ fix_targets net ->
       read (fs (after (checker_main fix_mode disk))) other = read disk other.
Proof.
  unfold ValidateVersions.main. cbn [fs].
  destruct (validate_all disk new_validator) as [is_valid v1].
  destruct (fix_mode && negb is_valid).
  2:{ cbn [exit_with after log fs]. split; [apply sublist_nil_l|auto]. }
  destruct (get_cargo_version disk v1) as [cargo_version v2].
  set (w0 := {| fs := disk; log := [] |}).
  assert (exists st l1,
            (if truthy (get_mise_rust_version disk)
             then fix_rust_versions re_template (str_of (get_mise_rust_version disk)) w0
             else (Returned false, w0)) = st
            /\ log (snd st) = l1
            /\ l1 `sublist_of` [Wrote "Cargo.toml"; Wrote "Dockerfile"]
            /\ forall other, other <> "Cargo.toml" -> other <> "Dockerfile" ->
                 read (fs (snd st)) other = read disk other)
    as (st & l1 & -> & H1 & Hl1 & Hr1).
  { destruct (truthy (get_mise_rust_version disk)).
    - destruct (fix_rust_versions_effect (str_of (get_mise_rust_version disk)) w0)
        as (l & Hl & Hsub & Hr).
      do 2 eexists. split; [reflexivity|]. split; [exact Hl|]. split; [exact Hsub|exact Hr].
    - do 2 eexists. split; [reflexivity|]. split; [reflexivity|].
      split; [repeat constructor|auto]. }
  assert (forall other, other ∉ fix_targets net ->
            other <> "Cargo.toml" /\ other <> "Dockerfile"
            /\ other ∉ map (fun entry => output_path (fst entry)) (generators net)) as Hout.
  { intros other H. unfold fix_targets in H. rewrite !not_elem_of_cons in H. tauto. }
  destruct st as [[fixed_any|] w1]; cbn [snd] in *.
  - destruct (truthy cargo_version).
    + destruct (fix_package_versions_effect (str_of cargo_version) w1)
        as (l2 & H2 & Hl2 & Hr2).
      destruct (validate_all _ (clear v2)) as [is_valid' v3].
      cbn [exit_with after]. rewrite H2, H1. split.
      * unfold fix_effects.
        change [Wrote "Cargo.toml"; Wrote "Dockerfile"; Ran [generate_script]]
          with ([Wrote "Cargo.toml"; Wrote "Dockerfile"] ++ [Ran [generate_script]]).
        apply sublist_app; assumption.
      * intros other H. destruct (Hout other H) as (Hc & Hd & Hg).
        rewrite (Hr2 other Hg). apply (Hr1 other Hc Hd).
    + destruct (validate_all _ (clear v2)) as [is_valid' v3].
      cbn [exit_with after]. rewrite H1. split.
      * unfold fix_effects. etransitivity; [exact Hl1|]. repeat constructor.
      * intros other H. destruct (Hout other H) as (Hc & Hd & Hg). apply (Hr1 other Hc Hd).
  - cbn [after]. rewrite H1. split.
    + unfold fix_effects. etransitivity; [exact Hl1|]. repeat constructor.
    + intros other H. destruct (Hout other H) as (Hc & Hd & Hg). apply (Hr1 other Hc Hd).
Qed.

(** X15.  Without the fix flag the Checker changes no file and runs
    nothing.  With it, the Checker writes at most Cargo.toml, then the
    Dockerfile, then runs at most the generator, each at most once. *)
Theorem checker_effects (fix_mode : bool) (disk : fsys) :
  after (checker_main false disk) = {| fs := disk; log := [] |}
  /\ log (after (checker_main fix_mode disk)) `sublist_of` fix_effects.
Proof.
  split; [|apply checker_main_effect].
  unfold ValidateVersions.main. cbn [fs].
  destruct (validate_all disk new_validator) as [is_valid v1]. reflexivity.
Qed.

(** X16.  Whatever the flag, a file that is neither Cargo.toml, nor the
    Dockerfile, nor one of the six outputs of the generator is left as
    it was: .mise.toml in particular. *)
Theorem checker_keeps_other_files (fix_mode : bool) (disk : fsys) (path : string) :
  path ∉ fix_targets net ->
  read (fs (after (checker_main fix_mode disk))) path = read disk path.
Proof.
  intros H.
  destruct (checker_main_effect fix_mode disk) as [_ Hkeep]. apply Hkeep, H.
Qed.

(** *** The report *)

Lemma expand_template_plain (template : string) :
  mem bslash template = false ->
  expand_template re_template template = Some (fun _ => template).
Proof. intros H. unfold expand_template. rewrite H. reflexivity. Qed.

Lemma fix_file_plain (path : string) (pattern : re) (template : string)
    (fixed_any : bool) (w : world) :
  mem bslash template = false ->
  exists fixed_any' w',
    fix_file re_template path pattern template (Returned fixed_any, w)
    = (Returned fixed_any', w').
Proof.
  intros H. unfold fix_file. rewrite (expand_template_plain _ H).
  destruct (read (fs w) path); [|eauto]. destruct (negb _); eauto.
Qed.



End Effects.

Lemma checker_keeps_other_files_witness :
  read (fs (after (ValidateVersions.main no_template offline true drifted_disk)))
    ".mise.toml"
  = read drifted_disk ".mise.toml".
Proof.
  apply (checker_keeps_other_files no_template offline true drifted_disk ".mise.toml").
  unfold fix_targets, generators. cbn [map fst].
  rewrite !not_elem_of_cons. repeat split; try discriminate. apply not_elem_of_nil.
Defined.


(** ** Lines *)

Lemma lines_not_nil {A : Type} (l : list A) (x : A) (l' : list A) : l ++ x :: l' <> [].
Proof. destruct l; discriminate. Qed.

Lemma unlines_flatten (before : list string) (l : string) (rest : list string) :
  GeneratePackages.unlines (before ++ l :: rest)
  = GeneratePackages.unlines (before ++ [GeneratePackages.unlines (l :: rest)]).
Proof.
  induction before as [|b before IH]; [reflexivity|].
  cbn [app]. rewrite !unlines_cons by apply lines_not_nil. rewrite IH. reflexivity.
Qed.

Section Lines.

Variable subject : string.
Variable r : re.
Variable t : string.

Hypothesis starts_with_t :
  forall s o, match_at subject r s = Some o -> startswith t s = true.
Hypothesis one_line : mem lf t = false.

Lemma search_skip_lines (before : list string) (w : string) :
  Forall (fun l => contains t l = false) before ->
  search_from subject r (GeneratePackages.unlines (before ++ [w]))
  = search_from subject r w.
Proof.
  induction 1 as [|b before Hb _ IH]; [reflexivity|].
  cbn [app]. rewrite unlines_cons by apply lines_not_nil.
  rewrite (search_skip subject r t starts_with_t lf _ _ one_line Hb). exact IH.
Qed.

Variable repl : string -> string.

Lemma sub_skip (x : ascii) (a w : string) :
  mem x t = false -> contains t a = false ->
  sub_from subject r repl 0 (a +:+ String x w)
  = a +:+ String x (sub_from subject r repl 0 w).
Proof.
  intros Hx. induction a as [|c a IH]; intros Ha.
  - cbn [String.append]. apply sub_from_miss, (match_at_miss subject r t starts_with_t).
    destruct t as [|c t']; [discriminate Ha|].
    simpl in Hx. apply orb_false_elim in Hx as [Hx _].
    simpl. rewrite Ascii.eqb_sym, Hx. reflexivity.
  - simpl in Ha. apply orb_false_elim in Ha as [Hs Ha].
    change (String c a +:+ String x w) with (String c (a +:+ String x w)).
    rewrite sub_from_miss.
    + rewrite (IH Ha). reflexivity.
    + apply (match_at_miss subject r t starts_with_t).
      destruct (startswith t (String c (a +:+ String x w))) eqn:E; [|reflexivity].
      change (String c (a +:+ String x w)) with (String c a +:+ String x w) in E.
      apply (startswith_before _ _ _ _ Hx) in E. congruence.
Qed.

Lemma sub_skip_lines (before : list string) (w : string) :
  Forall (fun l => contains t l = false) before ->
  sub_from subject r repl 0 (GeneratePackages.unlines (before ++ [w]))
  = GeneratePackages.unlines (before ++ [sub_from subject r repl 0 w]).
Proof.
  induction 1 as [|b before Hb _ IH]; [reflexivity|].
  cbn [app]. rewrite !unlines_cons by apply lines_not_nil.
  rewrite (sub_skip lf _ _ one_line Hb), IH. reflexivity.
Qed.

End Lines.

(** ** The toolchain version of the Dockerfile *)

Lemma dockerfile_re_starts (subject s : string) (o : outcome) :
  match_at subject dockerfile_re s = Some o -> startswith "FROM rust:" s = true.
Proof. apply (match_at_lit subject "FROM rust:" (Seq [Group (Plus digit_or_dot)])). Qed.

Lemma docker_from_re_starts (subject s : string) (o : outcome) :
  match_at subject docker_from_re s = Some o -> startswith "FROM rust:" s = true.
Proof. apply (match_at_lit subject "FROM rust:" (Seq [Plus digit_or_dot])). Qed.

Lemma dockerfile_re_line (subject version rest : string) :
  dotted version -> stops digit_or_dot rest = true ->
  match_at subject dockerfile_re (from_rust_line version rest)
  = Some (rest, Some version).
Proof.
  intros [Hne Hall] Hrest. unfold match_at, dockerfile_re, from_rust_line.
  cbn [Seq run]. rewrite run_lit_append.
  rewrite run_plus_greedy; try assumption.
  - unfold accept. rewrite consumed_append. reflexivity.
  - discriminate.
Qed.

Lemma docker_from_re_line (subject version rest : string) :
  dotted version -> stops digit_or_dot rest = true ->
  match_at subject docker_from_re (from_rust_line version rest) = Some (rest, None).
Proof.
  intros [Hne Hall] Hrest. unfold match_at, docker_from_re, from_rust_line.
  cbn [Seq run]. rewrite run_lit_append.
  rewrite run_plus_greedy; try assumption; [reflexivity|discriminate].
Qed.

(** The lines from the one that names the image on are that line with a
    longer rest, which still stops the run of digits and dots. *)
Lemma from_rust_lines (version rest : string) (after : list string) :
  stops digit_or_dot rest = true ->
  exists tail,
    GeneratePackages.unlines (from_rust_line version rest :: after)
    = from_rust_line version tail
    /\ stops digit_or_dot tail = true.
Proof.
  intros Hrest. destruct after as [|l after].
  - exists rest. split; [reflexivity|exact Hrest].
  - exists (rest +:+ String lf (GeneratePackages.unlines (l :: after))). split.
    + rewrite unlines_cons by discriminate. unfold from_rust_line.
      rewrite !append_assoc. reflexivity.
    + destruct rest; [reflexivity|exact Hrest].
Qed.

Lemma dockerfile_first_image (before : list string) (version tail : string) :
  Forall (fun l => contains "FROM rust:" l = false) before ->
  dotted version ->
  stops digit_or_dot tail = true ->
  search_group1 dockerfile_re (unlines (before ++ [from_rust_line version tail]))
  = Some version.
Proof.
  intros Hbefore Hv Htail. unfold search_group1, re_search.
  set (content := unlines (before ++ [from_rust_line version tail])).
  unfold content at 2.
  rewrite (search_skip_lines content dockerfile_re "FROM rust:"
             (dockerfile_re_starts content) eq_refl before _ Hbefore).
  rewrite (search_from_hit _ _ _ _ (dockerfile_re_line content version tail Hv Htail)).
  reflexivity.
Qed.

(** X18.  The Checker reads from the Dockerfile the version of the first
    line that starts an image of the toolchain with a digit or a dot: the
    run of digits and dots after the colon, whatever follows it (a tag
    like 1.75-slim gives 1.75). *)
Theorem dockerfile_version_read (disk : fsys) (before after : list string)
    (version rest : string) :
  read disk "Dockerfile"
    = Some (unlines (before ++ from_rust_line version rest :: after)) ->
  Forall (fun l => contains "FROM rust:" l = false) before ->
  dotted version ->
  stops digit_or_dot rest = true ->
  get_dockerfile_rust_version disk = Some version.
Proof.
  intros Hread Hbefore Hv Hrest.
  unfold get_dockerfile_rust_version. rewrite Hread.
  change unlines with GeneratePackages.unlines. rewrite unlines_flatten.
  destruct (from_rust_lines version rest after Hrest) as (tail & -> & Htail).
  apply dockerfile_first_image; assumption.
Qed.

Lemma dockerfile_version_read_witness :
  get_dockerfile_rust_version slim_dockerfile_disk = Some "1.75".
Proof.
  apply (dockerfile_version_read slim_dockerfile_disk
           [ "# build stage"; "FROM debian:12 AS base" ] [ "RUN cargo build --release" ]
           "1.75" "-slim AS builder").
  - reflexivity.
  - repeat constructor.
  - split; [discriminate|reflexivity].
  - reflexivity.
Defined.

(** ** The Dockerfile after a fix *)

Lemma sub_from_stops (subject : string) (p : ascii -> bool) (target s : string) :
  p "F"%char = false -> stops p s = true ->
  stops p (sub_from subject docker_from_re (fun _ => "FROM rust:" +:+ target) 0 s) = true.
Proof.
  intros HF Hs. destruct s as [|c s]; [reflexivity|].
  cbn [sub_from].
  destruct (match_at subject docker_from_re (String c s)) as [[after cap]|];
    [|exact Hs].
  destruct (String.length (String c s) - String.length after); [exact Hs|].
  simpl. rewrite HF. reflexivity.
Qed.

Lemma dotted_plain (version : string) : dotted version -> mem bslash version = false.
Proof. intros [_ H]. apply (all_not_mem digit_or_dot); [exact H|reflexivity]. Qed.

Lemma re_sub_dockerfile (before after : list string) (version rest target : string) :
  Forall (fun l => contains "FROM rust:" l = false) before ->
  dotted version ->
  stops digit_or_dot rest = true ->
  exists tail,
    re_sub docker_from_re (fun _ => "FROM rust:" +:+ target)
      (unlines (before ++ from_rust_line version rest :: after))
    = unlines (before ++ [from_rust_line target tail])
    /\ stops digit_or_dot tail = true.
Proof.
  intros Hbefore Hv Hrest. unfold re_sub.
  set (content := unlines (before ++ from_rust_line version rest :: after)).
  unfold content at 2.
  change unlines with GeneratePackages.unlines. rewrite unlines_flatten.
  rewrite (sub_skip_lines content docker_from_re "FROM rust:"
             (docker_from_re_starts content) eq_refl _ before _ Hbefore).
  destruct (from_rust_lines version rest after Hrest) as (tail & -> & Htail).
  exists (sub_from content docker_from_re (fun _ => "FROM rust:" +:+ target) 0 tail).
  split; [|apply sub_from_stops; [reflexivity|exact Htail]].
  do 2 f_equal. f_equal.
  pose proof (docker_from_re_line content version tail Hv Htail) as Hm.
  unfold from_rust_line in *. rewrite <- append_assoc in Hm |- *.
  assert ("FROM rust:" +:+ version <> EmptyString) as Hne by discriminate.
  rewrite (sub_from_hit content docker_from_re _ ("FROM rust:" +:+ version) tail None Hne Hm).
  rewrite append_assoc. reflexivity.
Qed.

Section DockerfileFix.

Variable re_template : string -> option (string -> string).

(** X19.  When the Dockerfile names an image of the toolchain with a
    version of digits and dots, [fix_rust_versions] with a target of
    digits and dots leaves the lines above that line as they were, makes
    that line name the target, and the Checker then reads the target from
    the Dockerfile: the pattern that rewrites is the pattern that reads. *)
Theorem fix_rewrites_dockerfile (w : world) (before after : list string)
    (version rest target_version : string) :
  read (fs w) "Dockerfile"
    = Some (unlines (before ++ from_rust_line version rest :: after)) ->
  Forall (fun l => contains "FROM rust:" l = false) before ->
  dotted version ->
  stops digit_or_dot rest = true ->
  dotted target_version ->
  exists fixed_any w' tail,
    fix_rust_versions re_template target_version w = (Returned fixed_any, w')
    /\ read (fs w') "Dockerfile"
       = Some (unlines (before ++ [from_rust_line target_version tail]))
    /\ stops digit_or_dot tail = true
    /\ get_dockerfile_rust_version (fs w') = Some target_version.
Proof.
  intros Hread Hbefore Hv Hrest Ht.
  pose proof (dotted_plain _ Ht) as Hplain.
  destruct (re_sub_dockerfile before after version rest target_version Hbefore Hv Hrest)
    as (tail & Hsub & Htail).
  assert (exists fixed_any w',
            fix_rust_versions re_template target_version w = (Returned fixed_any, w')
            /\ read (fs w') "Dockerfile"
               = Some (unlines (before ++ [from_rust_line target_version tail])))
    as (fixed_any & w' & Hfix & Hread').
  { unfold fix_rust_versions.
    destruct (fix_file_effect re_template "Cargo.toml" cargo_rust_re
                ("rust-version = " +:+ q target_version) (Returned false, w))
      as (_ & _ & _ & Hkeep).
    destruct (fix_file_plain re_template "Cargo.toml" cargo_rust_re
                ("rust-version = " +:+ q target_version) false w) as (b & w1 & E1).
    { unfold q, GeneratePackages.q. rewrite !mem_append, Hplain. reflexivity. }
    rewrite E1 in *. cbn [snd] in Hkeep.
    specialize (Hkeep "Dockerfile" ltac:(discriminate)). rewrite Hread in Hkeep.
    unfold fix_file. rewrite Hkeep.
    rewrite expand_template_plain by (rewrite mem_append, Hplain; reflexivity).
    rewrite Hsub.
    match goal with
    | |- context [String.eqb ?a ?b] => destruct (String.eqb_spec a b) as [E|_]
    end; cbn [negb].
    - exists b, w1. split; [reflexivity|]. rewrite Hkeep, E. reflexivity.
    - do 2 eexists. split; [reflexivity|].
      unfold read, write_file, write. cbn [fs files]. apply lookup_insert_eq. }
  exists fixed_any, w', tail. split; [exact Hfix|]. split; [exact Hread'|].
  split; [exact Htail|].
  unfold get_dockerfile_rust_version. rewrite Hread'.
  apply dockerfile_first_image; assumption.
Qed.

End DockerfileFix.

Lemma fix_rewrites_dockerfile_witness :
  exists fixed_any w' tail,
    fix_rust_versions no_template "1.80.1" {| fs := slim_dockerfile_disk; log := [] |}
    = (Returned fixed_any, w')
    /\ read (fs w') "Dockerfile"
       = Some (unlines ([ "# build stage"; "FROM debian:12 AS base" ]
                        ++ [from_rust_line "1.80.1" tail]))
    /\ stops digit_or_dot tail = true
    /\ get_dockerfile_rust_version (fs w') = Some "1.80.1".
Proof.
  apply (fix_rewrites_dockerfile no_template {| fs := slim_dockerfile_disk; log := [] |}
           [ "# build stage"; "FROM debian:12 AS base" ] [ "RUN cargo build --release" ]
           "1.75" "-slim AS builder" "1.80.1").
  - reflexivity.
  - repeat constructor.
  - split; [discriminate|reflexivity].
  - reflexivity.
  - split; [discriminate|reflexivity].
Defined.

(** ** The toolchain version of .mise.toml *)

Lemma contains_strip (t l : string) :
  contains t l = false -> contains t (strip l) = false.
Proof. intros H. exact (not_contains_part _ _ _ H (strip_by_part _ _)). Qed.

Lemma mise_scan_line (in_tools : bool) (l : string) (rest : list string) :
  contains "rust" l = false ->
  exists in_tools', mise_scan in_tools (l :: rest) = mise_scan in_tools' rest.
Proof.
  intros H. apply contains_strip in H. cbn [mise_scan].
  destruct (String.eqb (strip l) "[tools]"); [eauto|].
  destruct (startswith "[" (strip l) && negb false); [eauto|].
  rewrite H, andb_false_r. cbn [andb]. eauto.
Qed.

Lemma mise_scan_before (before rest : list string) (in_tools : bool) :
  Forall (fun l => contains "rust" l = false) before ->
  exists in_tools', mise_scan in_tools (before ++ rest) = mise_scan in_tools' rest.
Proof.
  intros H. revert in_tools. induction H as [|l before Hl _ IH]; intros in_tools; [eauto|].
  cbn [app]. destruct (mise_scan_line in_tools l (before ++ rest) Hl) as [b ->]. apply IH.
Qed.

Lemma mise_scan_tools (middle rest : list string) :
  Forall (fun l => contains "rust" l = false /\ startswith "[" (strip l) = false) middle ->
  mise_scan true (middle ++ rest) = mise_scan true rest.
Proof.
  induction 1 as [|l middle [Hl Hh] _ IH]; [reflexivity|].
  cbn [app mise_scan]. apply contains_strip in Hl.
  destruct (String.eqb_spec (strip l) "[tools]") as [E|_].
  { rewrite E in Hh. discriminate Hh. }
  rewrite Hh, Hl. cbn [andb]. exact IH.
Qed.

Lemma mise_scan_declaration (version : string) (rest : list string) :
  plain_value version ->
  mise_scan true (declaration "rust" version :: rest) = Some version.
Proof.
  intros Hv.
  assert (bare_key "rust") as Hk by (split; [discriminate|reflexivity]).
  destruct (declaration_parts "rust" version Hk Hv)
    as (H1 & _ & H3 & H4 & H5 & _ & H7 & _).
  cbn [mise_scan]. rewrite H1, H3, H4, H5.
  change ValidateVersions.quotes with GeneratePackages.quotes. rewrite H7.
  assert (String.eqb (declaration "rust" version) "[tools]" = false) as -> by reflexivity.
  assert (contains "rust" (declaration "rust" version) = true) as -> by reflexivity.
  reflexivity.
Qed.

(** X20.  The Checker reads the toolchain version of .mise.toml from the
    first line of the section [tools] that holds the text rust and an
    equals sign: with no such text above it, a line that declares rust
    between double quotes under the header gives the declared version. *)
Theorem mise_version_read (disk : fsys) (before middle after : list string)
    (version : string) :
  read disk ".mise.toml"
    = Some (unlines (before ++ "[tools]" :: middle
                            ++ declaration "rust" version :: after)) ->
  Forall (fun l => mem lf l = false) (before ++ middle ++ after) ->
  Forall (fun l => contains "rust" l = false) before ->
  Forall (fun l => contains "rust" l = false /\ startswith "[" (strip l) = false) middle ->
  plain_value version ->
  get_mise_rust_version disk = Some version.
Proof.
  intros Hread Hlf Hbefore Hmiddle Hv.
  unfold get_mise_rust_version. rewrite Hread.
  rewrite split_unlines.
  - destruct (mise_scan_before before
                ("[tools]" :: middle ++ declaration "rust" version :: after) false Hbefore)
      as [b ->].
    change (mise_scan b ("[tools]" :: middle ++ declaration "rust" version :: after))
      with (mise_scan true (middle ++ declaration "rust" version :: after)).
    rewrite (mise_scan_tools _ _ Hmiddle). apply mise_scan_declaration, Hv.
  - apply lines_not_nil.
  - rewrite !Forall_app in Hlf. destruct Hlf as (H1 & H2 & H3).
    assert (bare_key "rust") as Hk by (split; [discriminate|reflexivity]).
    rewrite Forall_app. split; [exact H1|]. constructor; [reflexivity|].
    rewrite Forall_app. split; [exact H2|]. constructor; [|exact H3].
    apply (declaration_parts "rust" version Hk Hv).
Qed.

Lemma mise_version_read_witness : get_mise_rust_version mise_disk = Some "1.75.0".
Proof.
  apply (mise_version_read mise_disk [ "[env]"; "RUST_LOG = 'info'" ] [ "node = '20'" ]
           [ "python = '3.12'" ] "1.75.0").
  - reflexivity.
  - repeat constructor.
  - repeat constructor.
  - repeat constructor.
  - repeat split.
Defined.

(** ** Reading the version back from a generated file *)

Lemma all_impl (p p' : ascii -> bool) (s : string) :
  (forall c, p c = true -> p' c = true) -> all p s = true -> all p' s = true.
Proof.
  intros H. induction s as [|c s IH]; [reflexivity|]. simpl.
  intros Hs. apply andb_prop in Hs as [Hc Hs]. rewrite (H c Hc), (IH Hs). reflexivity.
Qed.

Lemma all_none_of (x : ascii) (s : string) :
  mem x s = false -> all (none_of (chr x)) s = true.
Proof.
  induction s as [|c s IH]; [reflexivity|]. cbn [mem all]. intros H.
  apply orb_false_elim in H as [Hc H]. rewrite (IH H), andb_true_r.
  unfold none_of, chr. cbn [mem]. rewrite Ascii.eqb_sym, Hc. reflexivity.
Qed.

Lemma name_chars_not_mem (name : string) (x : ascii) :
  all (fun char => mem char name_chars) name = true ->
  mem x name_chars = false -> mem x name = false.
Proof. intros H Hx. exact (all_not_mem _ _ _ H Hx). Qed.

(** An occurrence of [t] cannot start in a text that lacks the first
    character of [t]. *)
Lemma contains_skip (x : ascii) (t' a w : string) :
  mem x a = false ->
  contains (String x t') (a +:+ w) = contains (String x t') w.
Proof.
  induction a as [|c a IH]; [reflexivity|]. cbn [mem]. intros H.
  apply orb_false_elim in H as [Hc H].
  change (String c a +:+ w) with (String c (a +:+ w)).
  cbn [contains startswith]. rewrite Hc. cbn [andb orb]. exact (IH H).
Qed.

(** Past a character that is not in [t], an occurrence of [t] lies on
    one side. *)
Lemma contains_split (x : ascii) (t a w : string) :
  mem x t = false ->
  contains t (a +:+ String x w) = contains t a || contains t w.
Proof.
  intros Hx.
  destruct (String.eqb_spec t EmptyString) as [->|Hne].
  { destruct a; reflexivity. }
  assert (startswith t (String x w) = false) as Hstart.
  { destruct t as [|c t']; [contradiction|]. cbn [mem] in Hx.
    apply orb_false_elim in Hx as [Hx _]. cbn [startswith].
    rewrite Ascii.eqb_sym, Hx. reflexivity. }
  destruct (contains t a) eqn:Ha; cbn [orb].
  - apply contains_part. apply contains_part in Ha. destruct Ha as (u & v & ->).
    exists u, (v +:+ String x w). rewrite !append_assoc. reflexivity.
  - induction a as [|c a IH].
    + cbn [String.append contains]. rewrite Hstart. reflexivity.
    + cbn [contains] in Ha. apply orb_false_elim in Ha as [Hs Ha].
      change (String c a +:+ String x w) with (String c (a +:+ String x w)).
      cbn [contains]. rewrite (IH Ha).
      destruct (startswith t (String c (a +:+ String x w))) eqn:E; [|reflexivity].
      change (String c (a +:+ String x w)) with (String c a +:+ String x w) in E.
      apply (startswith_before _ _ _ _ Hx) in E. congruence.
Qed.

Lemma stops_lf_rest (p : ascii -> bool) (b rest : string) :
  p lf = false -> stops p b = true -> stops p (b +:+ String lf rest) = true.
Proof. intros Hlf Hb. destruct b; [simpl; rewrite Hlf; reflexivity|exact Hb]. Qed.

(** *** PKGBUILD *)

Lemma pkgver_re_starts (subject s : string) (o : outcome) :
  match_at subject pkgver_re s = Some o -> startswith "pkgver=" s = true.
Proof. apply (match_at_lit subject "pkgver=" (Seq [Group (Plus digit_or_dot)])). Qed.

Lemma pkgver_re_line (subject a b rest : string) :
  dotted a -> stops digit_or_dot b = true ->
  match_at subject pkgver_re (("pkgver=" +:+ (a +:+ b)) +:+ String lf rest)
  = Some (b +:+ String lf rest, Some a).
Proof.
  intros [Hne Hall] Hb. unfold match_at, pkgver_re. cbn [Seq run].
  rewrite append_assoc, run_lit_append, append_assoc.
  rewrite run_plus_greedy; try assumption.
  - unfold accept. rewrite consumed_append. reflexivity.
  - apply stops_lf_rest; [reflexivity|exact Hb].
  - discriminate.
Qed.

Lemma pkgbuild_source_version (md : metadata)
    (author name a b repository homepage sha256_hash : string) :
  contains "pkgver=" author = false ->
  all (fun char => mem char name_chars) name = true ->
  dotted a -> stops digit_or_dot b = true ->
  search_group1 pkgver_re
    (pkgbuild_source_text md author name (a +:+ b) repository homepage sha256_hash)
  = Some a.
Proof.
  intros Hauthor Hname Ha Hb. unfold search_group1, re_search.
  set (subject := pkgbuild_source_text _ _ _ _ _ _ _). unfold subject at 2.
  unfold pkgbuild_source_text.
  do 3 rewrite unlines_cons by discriminate.
  match goal with
  | |- context [GeneratePackages.unlines ?l] =>
      generalize (GeneratePackages.unlines l); intros rest
  end.
  rewrite (search_skip subject pkgver_re "pkgver=" (pkgver_re_starts subject) lf);
    [|reflexivity|exact Hauthor].
  rewrite (search_skip subject pkgver_re "pkgver=" (pkgver_re_starts subject) lf);
    [|reflexivity|].
  2:{ change (contains "pkgver=" name = false).
      apply (contains_mem "="); [reflexivity|].
      apply (name_chars_not_mem name "=" Hname eq_refl). }
  rewrite (search_from_hit _ _ _ _ (pkgver_re_line subject a b rest Ha Hb)).
  reflexivity.
Qed.

Lemma pkgbuild_bin_version (md : metadata)
    (author name a b repository homepage sha256_hash : string) :
  contains "pkgver=" author = false ->
  all (fun char => mem char name_chars) name = true ->
  dotted a -> stops digit_or_dot b = true ->
  search_group1 pkgver_re
    (pkgbuild_bin_text md author name (a +:+ b) repository homepage sha256_hash)
  = Some a.
Proof.
  intros Hauthor Hname Ha Hb. unfold search_group1, re_search.
  set (subject := pkgbuild_bin_text _ _ _ _ _ _ _). unfold subject at 2.
  unfold pkgbuild_bin_text.
  do 3 rewrite unlines_cons by discriminate.
  match goal with
  | |- context [GeneratePackages.unlines ?l] =>
      generalize (GeneratePackages.unlines l); intros rest
  end.
  rewrite (search_skip subject pkgver_re "pkgver=" (pkgver_re_starts subject) lf);
    [|reflexivity|exact Hauthor].
  rewrite (search_skip subject pkgver_re "pkgver=" (pkgver_re_starts subject) lf);
    [|reflexivity|].
  2:{ change (contains "pkgver=" (name +:+ "-bin") = false).
      apply (contains_mem "="); [reflexivity|].
      rewrite mem_append, (name_chars_not_mem name "=" Hname eq_refl). reflexivity. }
  rewrite (search_from_hit _ _ _ _ (pkgver_re_line subject a b rest Ha Hb)).
  reflexivity.
Qed.

(** *** The Chocolatey specification *)

Lemma nuspec_re_starts (subject s : string) (o : outcome) :
  match_at subject nuspec_re s = Some o -> startswith "<version>" s = true.
Proof.
  apply (match_at_lit subject "<version>"
           (Seq [Group (Plus (none_of "<")); Lit "</version>"])).
Qed.

Lemma nuspec_re_line (subject version rest : string) :
  version <> EmptyString -> mem "<" version = false ->
  match_at subject nuspec_re ("<version>" +:+ version +:+ "</version>" +:+ rest)
  = Some (rest, Some version).
Proof.
  intros Hne Hv. unfold match_at, nuspec_re. cbn [Seq run].
  rewrite run_lit_append.
  rewrite run_plus_greedy; [|exact Hne|apply (all_none_of "<"), Hv|reflexivity|].
  - rewrite consumed_append, run_lit_append. reflexivity.
  - rewrite consumed_append, run_lit_append. discriminate.
Qed.

Lemma nuspec_version (md : metadata) (author tags name version repository : string) :
  all (fun char => mem char name_chars) name = true ->
  version <> EmptyString -> mem "<" version = false ->
  search_group1 nuspec_re
    (chocolatey_nuspec_text md author tags name version repository)
  = Some version.
Proof.
  intros Hname Hne Hv. unfold search_group1, re_search.
  set (subject := chocolatey_nuspec_text _ _ _ _ _ _). unfold subject at 2.
  unfold chocolatey_nuspec_text.
  do 5 rewrite unlines_cons by discriminate.
  match goal with
  | |- context [GeneratePackages.unlines ?l] =>
      generalize (GeneratePackages.unlines l); intros rest
  end.
  pose proof (search_skip subject nuspec_re "<version>" (nuspec_re_starts subject) lf)
    as Hskip.
  rewrite Hskip by reflexivity. rewrite Hskip by reflexivity.
  rewrite Hskip by reflexivity. rewrite Hskip; [|reflexivity|].
  2:{ change (contains "<version>" (name +:+ "</id>") = false).
      rewrite (contains_skip "<" "version>" name "</id>"); [reflexivity|].
      apply (name_chars_not_mem name "<" Hname eq_refl). }
  pose proof (search_from_miss subject nuspec_re "<version>" (nuspec_re_starts subject))
    as Hmiss.
  change (("    <version>" +:+ version +:+ "</version>") +:+ String lf rest)
    with (String " " (String " " (String " " (String " "
            (("<version>" +:+ version +:+ "</version>") +:+ String lf rest))))).
  do 4 rewrite Hmiss by reflexivity.
  rewrite !append_assoc.
  rewrite (search_from_hit _ _ _ _ (nuspec_re_line subject version _ Hne Hv)).
  reflexivity.
Qed.

(** *** The Snapcraft manifest *)

Lemma snap_re_starts (subject s : string) (o : outcome) :
  match_at subject snap_re s = Some o -> startswith "version:" s = true.
Proof.
  apply (match_at_lit subject "version:"
           (Seq [Star space; Lit "'"; Group (Plus (none_of "'")); Lit "'"])).
Qed.

Lemma snap_re_line (subject version rest : string) :
  version <> EmptyString -> mem "'" version = false ->
  match_at subject snap_re ("version: '" +:+ version +:+ "'" +:+ rest)
  = Some (rest, Some version).
Proof.
  intros Hne Hv. unfold match_at, snap_re. cbn [Seq run].
  change ("version: '" +:+ version +:+ "'" +:+ rest)
    with ("version:" +:+ String " " ("'" +:+ version +:+ "'" +:+ rest)).
  rewrite run_lit_append.
  assert (run subject (Lit "'") ("'" +:+ version +:+ "'" +:+ rest) None
            (fun s' cap' =>
               run subject (Group (Plus (none_of "'"))) s' cap'
                 (fun s'0 cap'0 =>
                    run subject (Lit "'") s'0 cap'0
                      (fun s'1 cap'1 => run subject Eps s'1 cap'1 accept)))
          = Some (rest, Some version)) as Hk.
  { rewrite run_lit_append. cbn [run].
    rewrite run_plus_greedy; [|exact Hne|apply (all_none_of "'"), Hv|reflexivity|].
    - rewrite consumed_append, run_lit_append. reflexivity.
    - rewrite consumed_append, run_lit_append. discriminate. }
  apply star_greedy_Some. exact Hk.
Qed.

Lemma snap_version (md : metadata) (name version repository : string) :
  all (fun char => mem char name_chars) name = true ->
  version <> EmptyString -> mem "'" version = false ->
  search_group1 snap_re (snapcraft_yaml_text md name version repository)
  = Some version.
Proof.
  intros Hname Hne Hv. unfold search_group1, re_search.
  set (subject := snapcraft_yaml_text _ _ _ _). unfold subject at 2.
  unfold snapcraft_yaml_text.
  do 3 rewrite unlines_cons by discriminate.
  match goal with
  | |- context [GeneratePackages.unlines ?l] =>
      generalize (GeneratePackages.unlines l); intros rest
  end.
  pose proof (search_skip subject snap_re "version:" (snap_re_starts subject) lf)
    as Hskip.
  rewrite Hskip; [|reflexivity|].
  2:{ change (contains "version:" name = false).
      apply (contains_mem ":"); [reflexivity|].
      apply (name_chars_not_mem name ":" Hname eq_refl). }
  rewrite Hskip by reflexivity.
  rewrite !append_assoc.
  rewrite (search_from_hit _ _ _ _ (snap_re_line subject version _ Hne Hv)).
  reflexivity.
Qed.

(** *** The Scoop manifest *)

Lemma scoop_shape (md : metadata) (name version repository homepage sha256_hash : string) :
  exists rest,
    dumps 0 (scoop_manifest md name version repository homepage sha256_hash)
    = "{" +:+ String lf ("    " +:+ ((q "version" +:+ ":") +:+ String " "
        (chr dq +:+ concat_map json_char version +:+ chr dq +:+ rest))).
Proof.
  unfold scoop_manifest. cbn [dumps map]. rewrite join_cons by discriminate.
  match goal with
  | |- context [join ?sep ?l] => generalize (join sep l); intros members
  end.
  unfold json_string at 2. unfold GeneratePackages.q at 1.
  rewrite !append_assoc. eexists. reflexivity.
Qed.

Lemma json_char_plain (c : ascii) : alnum_dash_dot c = true -> json_char c = chr c.
Proof. destruct c as [[] [] [] [] [] [] [] []]; (discriminate || reflexivity). Qed.

Lemma json_plain (s : string) :
  all alnum_dash_dot s = true -> concat_map json_char s = s.
Proof.
  induction s as [|c s IH]; [reflexivity|]. cbn [all concat_map]. intros H.
  apply andb_prop in H as [Hc H]. rewrite (json_char_plain c Hc), (IH H). reflexivity.
Qed.

Lemma scoop_re_starts (subject s : string) (o : outcome) :
  match_at subject scoop_re s = Some o -> startswith (q "version" +:+ ":") s = true.
Proof.
  apply (match_at_lit subject (q "version" +:+ ":")
           (Seq [Star space; Lit (chr dq); Group (Plus (none_of (chr dq))); Lit (chr dq)])).
Qed.

Lemma scoop_re_line (subject version rest : string) :
  version <> EmptyString -> mem dq version = false ->
  match_at subject scoop_re
    ((q "version" +:+ ":") +:+ String " " (chr dq +:+ version +:+ chr dq +:+ rest))
  = Some (rest, Some version).
Proof.
  intros Hne Hv. unfold match_at, scoop_re. cbn [Seq run].
  rewrite run_lit_append.
  assert (run subject (Lit (chr dq)) (chr dq +:+ version +:+ chr dq +:+ rest) None
            (fun s' cap' =>
               run subject (Group (Plus (none_of (chr dq)))) s' cap'
                 (fun s'0 cap'0 =>
                    run subject (Lit (chr dq)) s'0 cap'0
                      (fun s'1 cap'1 => run subject Eps s'1 cap'1 accept)))
          = Some (rest, Some version)) as Hk.
  { rewrite run_lit_append. cbn [run].
    rewrite run_plus_greedy; [|exact Hne|apply (all_none_of dq), Hv|reflexivity|].
    - rewrite consumed_append, run_lit_append. reflexivity.
    - rewrite consumed_append, run_lit_append. discriminate. }
  apply star_greedy_Some. exact Hk.
Qed.

Lemma scoop_version (md : metadata) (name version repository homepage sha256_hash : string) :
  version <> EmptyString -> all alnum_dash_dot version = true ->
  search_group1 scoop_re
    (dumps 0 (scoop_manifest md name version repository homepage sha256_hash))
  = Some version.
Proof.
  intros Hne Hv. unfold search_group1, re_search.
  set (subject := dumps 0 _). unfold subject at 2.
  destruct (scoop_shape md name version repository homepage sha256_hash) as [rest ->].
  rewrite (json_plain version Hv).
  pose proof (search_from_miss subject scoop_re _ (scoop_re_starts subject)) as Hmiss.
  change ("{" +:+ String lf ("    " +:+ ?x)) with (String "{" (String lf ("    " +:+ x))).
  cbn [String.append]. 
  do 6 rewrite Hmiss by reflexivity.
  rewrite (search_from_hit _ _ _ _ (scoop_re_line subject version rest Hne
             (all_not_mem alnum_dash_dot version dq Hv eq_refl))).
  reflexivity.
Qed.

(** *** The Homebrew formula *)

Lemma brew_re_starts (subject s : string) (o : outcome) :
  match_at subject brew_re s = Some o -> startswith ("url " +:+ chr dq) s = true.
Proof.
  apply (match_at_lit subject ("url " +:+ chr dq)
           (Seq [Star dot; Lit "v"; Group (Plus digit_or_dot); Lit (".tar.gz" +:+ chr dq)])).
Qed.

Lemma brew_re_starts_url (subject s : string) (o : outcome) :
  match_at subject brew_re s = Some o -> startswith "url " s = true.
Proof.
  intros H. apply brew_re_starts in H.
  exact (startswith_prefix "url " (chr dq) s H).
Qed.

(** A greedy run gives back a prefix it has taken when what follows
    matches. *)
Lemma star_prefix_Some (p : ascii -> bool) (a s : string)
    (k : string -> option outcome) (o : outcome) :
  all p a = true -> star p s k = Some o -> star p (a +:+ s) k = Some o.
Proof.
  intros Ha Hs. induction a as [|c a IH]; [exact Hs|].
  cbn [all] in Ha. apply andb_prop in Ha as [Hc Ha].
  change (String c a +:+ s) with (String c (a +:+ s)). cbn [star].
  rewrite Hc, (IH Ha). reflexivity.
Qed.

(** A run finds no match in a text where the continuation cannot start. *)
Lemma star_none (p f : ascii -> bool) (a w : string) (k : string -> option outcome) :
  (forall s, stops f s = true -> k s = None) ->
  all (fun c => negb (f c)) a = true ->
  stops p w = true -> stops f w = true ->
  star p (a +:+ w) k = None.
Proof.
  intros Hk Ha Hp Hf. induction a as [|c a IH].
  - cbn [String.append]. destruct w as [|c w]; [apply Hk; reflexivity|].
    cbn [star]. cbn [stops] in Hp. apply negb_true_iff in Hp. rewrite Hp.
    apply Hk, Hf.
  - cbn [all] in Ha. apply andb_prop in Ha as [Hc Ha].
    change (String c a +:+ w) with (String c (a +:+ w)). cbn [star].
    rewrite (IH Ha).
    assert (k (String c (a +:+ w)) = None) as -> by (apply Hk; exact Hc).
    destruct (p c); reflexivity.
Qed.

Lemma digit_or_dot_not_v (c : ascii) :
  digit_or_dot c = true -> negb (Ascii.eqb "v" c) = true.
Proof. destruct c as [[] [] [] [] [] [] [] []]; (discriminate || reflexivity). Qed.

Lemma digit_or_dot_dot (c : ascii) : digit_or_dot c = true -> dot c = true.
Proof. destruct c as [[] [] [] [] [] [] [] []]; (discriminate || reflexivity). Qed.

Lemma brew_re_version (subject version rest : string) :
  dotted version ->
  run subject (Seq [Lit "v"; Group (Plus digit_or_dot); Lit (".tar.gz" +:+ chr dq)])
    ("v" +:+ version +:+ (".tar.gz" +:+ chr dq) +:+ String lf rest) None accept
  = Some (String lf rest, Some version).
Proof.
  intros [Hne Hall]. cbn [Seq run]. rewrite run_lit_append.
  destruct version as [|c version]; [contradiction|].
  cbn [all] in Hall. apply andb_prop in Hall as [Hc Hall].
  unfold Plus. cbn [run].
  change (String c version +:+ (".tar.gz" +:+ chr dq) +:+ String lf rest)
    with (String c (version +:+ (".tar.gz" +:+ chr dq) +:+ String lf rest)).
  cbv beta iota. rewrite Hc.
  apply star_prefix_Some; [exact Hall|].
  change ((".tar.gz" +:+ chr dq) +:+ String lf rest)
    with (String "." (("tar.gz" +:+ chr dq) +:+ String lf rest)).
  cbn [star].
  change (digit_or_dot ".") with true. cbv iota.
  change (("tar.gz" +:+ chr dq) +:+ String lf rest)
    with (String "t" (("ar.gz" +:+ chr dq) +:+ String lf rest)).
  cbn [star]. change (digit_or_dot "t") with false. cbv iota.
  rewrite (run_lit_fail subject (".tar.gz" +:+ chr dq)) by reflexivity.
  change (String "." (String "t" (("ar.gz" +:+ chr dq) +:+ String lf rest)))
    with ((".tar.gz" +:+ chr dq) +:+ String lf rest).
  rewrite run_lit_append. cbn [run]. unfold accept. do 3 f_equal.
  change (String c (version +:+ (".tar.gz" +:+ chr dq) +:+ String lf rest))
    with (String c version +:+ ((".tar.gz" +:+ chr dq) +:+ String lf rest)).
  apply consumed_append.
Qed.

Lemma brew_re_line (subject repository version rest : string) :
  mem lf repository = false -> dotted version ->
  match_at subject brew_re
    (("url " +:+ chr dq) +:+ repository +:+ "/archive/v" +:+ version
     +:+ ".tar.gz" +:+ chr dq +:+ String lf rest)
  = Some (String lf rest, Some version).
Proof.
  intros Hrepo Hv. unfold match_at.
  change brew_re
    with (Cat (Lit ("url " +:+ chr dq))
            (Cat (Star dot)
               (Seq [Lit "v"; Group (Plus digit_or_dot); Lit (".tar.gz" +:+ chr dq)]))).
  cbn [run]. rewrite run_lit_append.
  change ("/archive/v" +:+ version +:+ ".tar.gz" +:+ chr dq +:+ String lf rest)
    with ("/archive/" +:+ ("v" +:+ version +:+ (".tar.gz" +:+ chr dq) +:+ String lf rest)).
  rewrite <- append_assoc.
  apply star_prefix_Some.
  { rewrite all_append. rewrite (proj2 (all_dot repository) Hrepo). reflexivity. }
  change ("v" +:+ version +:+ (".tar.gz" +:+ chr dq) +:+ String lf rest)
    with (String "v" (version +:+ (".tar.gz" +:+ chr dq) +:+ String lf rest)).
  cbn [star]. change (dot "v") with true. cbv iota.
  rewrite <- append_assoc.
  rewrite (star_none dot (Ascii.eqb "v")).
  - change (String "v" ((version +:+ (".tar.gz" +:+ chr dq)) +:+ String lf rest))
      with ("v" +:+ ((version +:+ (".tar.gz" +:+ chr dq)) +:+ String lf rest)).
    rewrite append_assoc. apply brew_re_version, Hv.
  - intros s Hs. cbn [Seq run]. apply run_lit_fail.
    destruct s as [|c s]; [reflexivity|]. cbn [stops] in Hs. cbn [startswith].
    apply negb_true_iff in Hs. rewrite Hs. reflexivity.
  - rewrite all_append. destruct Hv as [_ Hv].
    rewrite (all_impl _ _ _ digit_or_dot_not_v Hv). reflexivity.
  - reflexivity.
  - reflexivity.
Qed.

Lemma capitalize_no_quote (name : string) :
  all (fun char => mem char name_chars) name = true -> mem dq (capitalize name) = false.
Proof.
  assert (forall c, mem c name_chars = true ->
                    Ascii.eqb dq (to_upper c) = false /\ Ascii.eqb dq (to_lower c) = false)
    as Hchar.
  { intros c. destruct c as [[] [] [] [] [] [] [] []]; vm_compute; intros H;
      try discriminate H; split; reflexivity. }
  assert (forall s, all (fun char => mem char name_chars) s = true ->
                    mem dq (map_chars to_lower s) = false) as Hlower.
  { induction s as [|c s IH]; [reflexivity|]. cbn [all map_chars mem]. intros H.
    apply andb_prop in H as [Hc H]. rewrite (proj2 (Hchar c Hc)), (IH H). reflexivity. }
  destruct name as [|c name]; [reflexivity|]. cbn [all capitalize mem]. intros H.
  apply andb_prop in H as [Hc H]. rewrite (proj1 (Hchar c Hc)), (Hlower name H).
  reflexivity.
Qed.

Lemma brew_version (md : metadata) (name version repository homepage sha256_hash : string) :
  all (fun char => mem char name_chars) name = true ->
  contains "url " (fmt (md_description md)) = false ->
  contains "url " homepage = false ->
  mem lf repository = false ->
  dotted version ->
  search_group1 brew_re
    (homebrew_formula_text md name version repository homepage sha256_hash)
  = Some version.
Proof.
  intros Hname Hdesc Hhome Hrepo Hv. unfold search_group1, re_search.
  set (subject := homebrew_formula_text _ _ _ _ _ _). unfold subject at 2.
  unfold homebrew_formula_text. cbv zeta.
  do 4 rewrite unlines_cons by discriminate.
  match goal with
  | |- context [GeneratePackages.unlines ?l] =>
      generalize (GeneratePackages.unlines l); intros rest
  end.
  rewrite (search_skip subject brew_re _ (brew_re_starts subject) lf); [|reflexivity|].
  2:{ apply (contains_mem dq); [reflexivity|].
      rewrite !mem_append, (capitalize_no_quote name Hname). reflexivity. }
  pose proof (search_skip subject brew_re "url " (brew_re_starts_url subject) lf)
    as Hskip.
  rewrite Hskip; [|reflexivity|].
  2:{ unfold q, GeneratePackages.q.
      change (contains "url " (fmt (md_description md) +:+ chr dq) = false).
      unfold chr. rewrite (contains_split dq "url " _ EmptyString eq_refl), Hdesc.
      reflexivity. }
  rewrite Hskip; [|reflexivity|].
  2:{ unfold q, GeneratePackages.q.
      change (contains "url " (homepage +:+ chr dq) = false).
      unfold chr. rewrite (contains_split dq "url " _ EmptyString eq_refl), Hhome.
      reflexivity. }
  pose proof (search_from_miss subject brew_re _ (brew_re_starts subject)) as Hmiss.
  unfold q, GeneratePackages.q. rewrite !append_assoc.
  change ("  url " +:+ ?x) with (String " " (String " " ("url " +:+ x))).
  cbn [String.append].
  do 2 rewrite Hmiss by reflexivity.
  match goal with
  | |- context [search_from subject brew_re ?s] =>
      change s with (("url " +:+ chr dq) +:+ repository +:+ "/archive/v" +:+ version
                     +:+ ".tar.gz" +:+ chr dq +:+ String lf rest)
  end.
  rewrite (search_from_hit _ _ _ _ (brew_re_line subject repository version rest Hrepo Hv)).
  reflexivity.
Qed.

(** ** What the parser reads is on one line *)

Lemma split_no_sep (sep : ascii) (s : string) :
  Forall (fun l => mem sep l = false) (split sep s).
Proof.
  induction s as [|c s IH]; [repeat constructor|].
  cbn [split]. destruct (Ascii.eqb sep c) eqn:E.
  - rewrite Ascii.eqb_sym, E. constructor; [reflexivity|exact IH].
  - rewrite Ascii.eqb_sym, E. destruct (split sep s) as [|w ws].
    + repeat constructor. cbn [chr mem]. rewrite E. reflexivity.
    + inversion IH as [|? ? Hw Hws]. subst. constructor; [|exact Hws].
      cbn [mem]. rewrite E, Hw. reflexivity.
Qed.

Lemma part_mem (c : ascii) (u s : string) :
  part u s -> mem c s = false -> mem c u = false.
Proof.
  intros (a & b & ->). rewrite !mem_append. intros H.
  apply orb_false_elim in H as [_ H]. apply orb_false_elim in H as [H _]. exact H.
Qed.

Lemma value_of_line (raw key value : string) (c : ascii) :
  mem c raw = false ->
  split1 "=" (strip raw) = Some (key, value) ->
  mem c (strip_chars GeneratePackages.quotes (strip value)) = false.
Proof.
  intros Hraw Hsplit. apply split1_append in Hsplit.
  apply (part_mem c _ (strip value)); [apply strip_by_part|].
  apply (part_mem c _ value); [apply strip_by_part|].
  apply (part_mem c _ (strip raw)).
  - exists (key +:+ "="), EmptyString. rewrite Hsplit, append_nil_r, append_assoc. reflexivity.
  - apply (part_mem c _ raw); [apply strip_by_part|exact Hraw].
Qed.

Lemma generator_parse_line_one_line (st : bool * gmap string pyval) (raw : string) :
  mem lf raw = false ->
  (forall key value, snd st !! key = Some (VStr value) -> mem lf value = false) ->
  forall key value,
    snd (GeneratePackages.parse_line st raw) !! key = Some (VStr value) ->
    mem lf value = false.
Proof.
  intros Hraw H. destruct st as [in_package d]. cbn [snd] in H.
  unfold GeneratePackages.parse_line.
  destruct (String.eqb (strip raw) "[package]"); [exact H|].
  destruct (startswith "[" (strip raw) && negb false); [exact H|].
  destruct (in_package && contains "=" (strip raw)); [|exact H].
  destruct (split1 "=" (strip raw)) as [[k v]|] eqn:Hsplit; [|exact H].
  pose proof (value_of_line raw k v lf Hraw Hsplit) as Hv.
  destruct (startswith "[" _ && endswith "]" _).
  - destruct (GeneratePackages.nonempty _); cbn [snd]; intros key value;
      (destruct (decide (key = strip k)) as [->|Hne];
       [rewrite lookup_insert_eq; discriminate|rewrite lookup_insert_ne by congruence; apply H]).
  - cbn [snd]. intros key value. destruct (decide (key = strip k)) as [->|Hne].
    + rewrite lookup_insert_eq. intros E. injection E as <-. exact Hv.
    + rewrite lookup_insert_ne by congruence. apply H.
Qed.

Lemma generator_parse_one_line (content key value : string) :
  GeneratePackages.parse_toml_simple content !! key = Some (VStr value) ->
  mem lf value = false.
Proof.
  unfold GeneratePackages.parse_toml_simple.
  assert (forall ls st,
            Forall (fun l => mem lf l = false) ls ->
            (forall k v, snd st !! k = Some (VStr v) -> mem lf v = false) ->
            forall k v,
              snd (fold_left GeneratePackages.parse_line ls st) !! k = Some (VStr v) ->
              mem lf v = false) as Hfold.
  { induction ls as [|l ls IH]; intros st Hls Hst; [exact Hst|].
    inversion Hls as [|? ? Hl Hls']. subst. cbn [fold_left].
    apply IH; [exact Hls'|]. apply generator_parse_line_one_line; assumption. }
  apply (Hfold _ (false, ∅) (split_no_sep lf content)).
  intros k v. cbn [snd]. rewrite lookup_empty. discriminate.
Qed.

(** ** The generated files under the check of the package versions *)

Lemma main_outputs (net : string -> option string) (argv : list string) (disk : fsys)
    (md : metadata) (author name version repository homepage : string) :
  checked_metadata disk = Ok md ->
  sanitize_input (md_name md) 50 (Some name_chars) = Ok name ->
  validate_version (md_version md) = Ok version ->
  validate_url (md_repository md) = Ok repository ->
  validate_url (md_homepage md) = Ok homepage ->
  first_author md = Ok author ->
  exists h1 h2 h3 h4,
    read (snd (GeneratePackages.main net argv disk)) "packaging/aur/PKGBUILD"
    = written disk "packaging/aur/PKGBUILD"
        (pkgbuild_source_text md author name version repository homepage h1)
    /\ read (snd (GeneratePackages.main net argv disk)) "packaging/aur/PKGBUILD-bin"
       = written disk "packaging/aur/PKGBUILD-bin"
           (pkgbuild_bin_text md author name version repository homepage h2)
    /\ read (snd (GeneratePackages.main net argv disk)) "packaging/homebrew/lazycelery.rb"
       = written disk "packaging/homebrew/lazycelery.rb"
           (homebrew_formula_text md name version repository homepage h3)
    /\ read (snd (GeneratePackages.main net argv disk))
         "packaging/chocolatey/lazycelery.nuspec"
       = written disk "packaging/chocolatey/lazycelery.nuspec"
           (chocolatey_nuspec_text md (strip (hd EmptyString (split "<" author)))
              (tags_of (md_keywords md)) name version repository)
    /\ read (snd (GeneratePackages.main net argv disk)) "packaging/scoop/lazycelery.json"
       = written disk "packaging/scoop/lazycelery.json"
           (dumps 0 (scoop_manifest md name version repository homepage h4))
    /\ read (snd (GeneratePackages.main net argv disk)) "packaging/snap/snapcraft.yaml"
       = written disk "packaging/snap/snapcraft.yaml"
           (snapcraft_yaml_text md name version repository)
    /\ (writable disk "packaging/aur/PKGBUILD" = true ->
        dir_exists (snd (GeneratePackages.main net argv disk)) "packaging" = true)
    /\ read (snd (GeneratePackages.main net argv disk)) "Cargo.toml"
       = read disk "Cargo.toml".
Proof.
  intros Hmd Hn Hv Hr Hh Ha.
  destruct (generators_render net md (hashes_asked argv) author name version repository
              homepage Hn Hv Hr Hh Ha)
    as (h1 & h2 & h3 & h4 & _ & E1 & E2 & E3 & E4 & E5 & E6).
  exists h1, h2, h3, h4.
  pose proof (fun entry out Hin Hout =>
                proj2 (main_written net argv disk md entry out Hmd Hin Hout)) as Hw.
  unfold generators in Hw.
  destruct (Hw ("aur/PKGBUILD", generate_pkgbuild_source net) _
              ltac:(repeat constructor) E1) as [R1 D1].
  destruct (Hw ("aur/PKGBUILD-bin", generate_pkgbuild_bin net) _
              ltac:(repeat constructor) E2) as [R2 _].
  destruct (Hw ("homebrew/lazycelery.rb", generate_homebrew_formula net) _
              ltac:(repeat constructor) E3) as [R3 _].
  destruct (Hw ("chocolatey/lazycelery.nuspec", generate_chocolatey_nuspec) _
              ltac:(repeat constructor) E4) as [R4 _].
  destruct (Hw ("scoop/lazycelery.json", generate_scoop_manifest net) _
              ltac:(repeat constructor) E5) as [R5 _].
  destruct (Hw ("snap/snapcraft.yaml", generate_snapcraft_yaml) _
              ltac:(repeat constructor) E6) as [R6 _].
  split; [exact R1|]. split; [exact R2|]. split; [exact R3|]. split; [exact R4|].
  split; [exact R5|]. split; [exact R6|]. split.
  - intros Hwr. unfold writable in Hwr. apply andb_true_iff in Hwr as [Hb _].
    apply negb_true_iff in Hb. apply bool_decide_eq_true_2.
    apply (D1 Hb). apply elem_of_list_to_set. left.
  - apply generator_main_other. unfold generators. cbn [map fst].
    rewrite !not_elem_of_cons. repeat split; try discriminate. apply not_elem_of_nil.
Qed.

Lemma written_writable (disk : fsys) (path content : string) :
  writable disk path = true -> written disk path content = Some content.
Proof. intros H. unfold written. rewrite H. reflexivity. Qed.

Lemma sanitize_input_all (v : pyval) (n : Z) (chars name : string) :
  sanitize_input v n (Some chars) = Ok name ->
  all (fun char => mem char chars) name = true.
Proof.
  unfold sanitize_input. destruct v as [s|items]; [|discriminate].
  destruct (n <? Z.of_nat (String.length s))%Z; [discriminate|].
  change (default default_allowed_chars (Some chars)) with chars.
  destruct (all (fun char => mem char chars) s) eqn:E; [|discriminate].
  intros H. injection H as <-. exact E.
Qed.

Lemma version_nonempty (v : pyval) (version : string) :
  validate_version v = Ok version -> version <> EmptyString.
Proof.
  intros H ->. pose proof (validate_with_Ok _ _ _ H) as E. subst v.
  vm_compute in H. discriminate H.
Qed.

Lemma digit_or_dot_alnum_dash_dot (c : ascii) :
  digit_or_dot c = true -> alnum_dash_dot c = true.
Proof. destruct c as [[] [] [] [] [] [] [] []]; (discriminate || reflexivity). Qed.

Lemma checker_reads_version (content version : string) :
  GeneratePackages.parse_toml_simple content !! "version" = Some (VStr version) ->
  ValidateVersions.parse_toml_simple content !! "version" = Some version.
Proof.
  intros H.
  assert (agree (GeneratePackages.parse_toml_simple content !! "version")
                (ValidateVersions.parse_toml_simple content !! "version")) as Ha.
  { unfold GeneratePackages.parse_toml_simple, ValidateVersions.parse_toml_simple.
    apply (parse_lines_agree (split lf content) (false, ∅) (false, ∅)); [reflexivity|].
    intros k. cbn [snd]. rewrite !lookup_empty. reflexivity. }
  rewrite H in Ha. apply Ha.
Qed.

Lemma repository_one_line (content repository : string) :
  validate_url (md_repository (metadata_of (GeneratePackages.parse_toml_simple content)))
  = Ok repository ->
  mem lf repository = false.
Proof.
  intros H. apply validate_with_Ok in H. unfold metadata_of, get in H. cbn [md_repository] in H.
  destruct (GeneratePackages.parse_toml_simple content !! "repository") as [x|] eqn:E.
  - change (x = VStr repository) in H. subst x.
    exact (generator_parse_one_line _ _ _ E).
  - change (VStr "https://github.com/Fguedes90/lazycelery" = VStr repository) in H.
    injection H as <-. reflexivity.
Qed.

(** The facts about the metadata a successful run of the generator has
    gone on with. *)
Lemma generator_run (net : string -> option string) (argv : list string) (disk : fsys)
    (content version : string) :
  read disk "Cargo.toml" = Some content ->
  GeneratePackages.parse_toml_simple content !! "version" = Some (VStr version) ->
  fst (GeneratePackages.main net argv disk) = 0%Z ->
  exists name repository homepage author,
    checked_metadata disk = Ok (metadata_of (GeneratePackages.parse_toml_simple content))
    /\ sanitize_input
         (md_name (metadata_of (GeneratePackages.parse_toml_simple content)))
         50 (Some name_chars) = Ok name
    /\ validate_version
         (md_version (metadata_of (GeneratePackages.parse_toml_simple content)))
       = Ok version
    /\ validate_url
         (md_repository (metadata_of (GeneratePackages.parse_toml_simple content)))
       = Ok repository
    /\ validate_url
         (md_homepage (metadata_of (GeneratePackages.parse_toml_simple content)))
       = Ok homepage
    /\ first_author (metadata_of (GeneratePackages.parse_toml_simple content)) = Ok author
    /\ md_homepage (metadata_of (GeneratePackages.parse_toml_simple content))
       = VStr homepage
    /\ all (fun char => mem char name_chars) name = true
    /\ version <> EmptyString
    /\ mem lf repository = false.
Proof.
  intros Hread Hversion Hstatus.
  unfold GeneratePackages.main in Hstatus.
  destruct (negb (file_exists disk "Cargo.toml")); [discriminate Hstatus|].
  destruct (checked_metadata disk) as [md|e] eqn:Hmd; [|discriminate Hstatus].
  destruct (checked_metadata_Ok _ _ Hmd)
    as (content' & name & version' & repository & homepage & author
        & Hread' & -> & Hn & Hv & Hr & Hh & Ha).
  assert (content' = content) as -> by congruence.
  assert (version' = version) as ->.
  { pose proof (validate_with_Ok _ _ _ Hv) as E.
    unfold metadata_of, get in E. cbn [md_version] in E. rewrite Hversion in E.
    change (VStr version = VStr version') in E. congruence. }
  exists name, repository, homepage, author.
  repeat split; try assumption.
  - exact (validate_with_Ok _ _ _ Hh).
  - exact (sanitize_input_all _ _ _ _ Hn).
  - exact (version_nonempty _ _ Hv).
  - exact (repository_one_line _ _ Hr).
Qed.

Lemma check_package_file_passes (disk : fsys) (cargo_version : string)
    (st : bool * validator) (file_path : string) (pattern : re) (content : string) :
  read disk file_path = Some content ->
  search_group1 pattern content = Some cargo_version ->
  check_package_file disk cargo_version st (file_path, pattern) = st.
Proof.
  intros Hread Hfound. unfold check_package_file.
  rewrite Hread, Hfound, String.eqb_refl. reflexivity.
Qed.

Lemma first_author_in (md : metadata) (author : string) :
  first_author md = Ok author -> In author (md_authors md).
Proof.
  unfold first_author. destruct (md_authors md) as [|a rest]; [discriminate|].
  intros H. injection H as ->. left. reflexivity.
Qed.

(** X21.  The files the generator writes pass the check of the package
    versions.  Let Cargo.toml declare a version of digits and dots, let
    each of the six files be one the loop of [main] can write, and let
    the generator end with status 0; let the author not hold the text
    pkgver= and the description and the home page not hold the text url
    followed by a blank.  Then [validate_package_versions], on the files
    the generator has left, returns True and records nothing: each of the
    six files is found, a version is found in it, and it is the version
    of Cargo.toml. *)
Theorem generated_files_pass_version_check (net : string -> option string)
    (argv : list string) (disk : fsys) (content version : string) (v : validator) :
  read disk "Cargo.toml" = Some content ->
  GeneratePackages.parse_toml_simple content !! "version" = Some (VStr version) ->
  all digit_or_dot version = true ->
  Forall (fun entry => writable disk (output_path (fst entry)) = true) (generators net) ->
  fst (GeneratePackages.main net argv disk) = 0%Z ->
  Forall (fun author => contains "pkgver=" author = false)
         (md_authors (metadata_of (GeneratePackages.parse_toml_simple content))) ->
  contains "url "
    (fmt (md_description (metadata_of (GeneratePackages.parse_toml_simple content))))
  = false ->
  contains "url "
    (fmt (md_homepage (metadata_of (GeneratePackages.parse_toml_simple content))))
  = false ->
  validate_package_versions (snd (GeneratePackages.main net argv disk)) v = (true, v).
Proof.
  intros Hread Hversion Hdigits Hwritable Hstatus Hauthors Hdesc Hhome.
  unfold generators in Hwritable.
  inversion Hwritable as [|? ? W1 Hw2]. subst.
  inversion Hw2 as [|? ? W2 Hw3]. subst.
  inversion Hw3 as [|? ? W3 Hw4]. subst.
  inversion Hw4 as [|? ? W4 Hw5]. subst.
  inversion Hw5 as [|? ? W5 Hw6]. subst.
  inversion Hw6 as [|? ? W6 _]. subst.
  clear Hwritable Hw2 Hw3 Hw4 Hw5 Hw6.
  destruct (generator_run net argv disk content version Hread Hversion Hstatus)
    as (name & repository & homepage & author
        & Hmd & Hn & Hv & Hr & Hh & Ha & Hhp & Hname & Hne & Hrepo).
  set (md := metadata_of (GeneratePackages.parse_toml_simple content)) in *.
  rewrite Hhp in Hhome. cbn [fmt] in Hhome.
  assert (contains "pkgver=" author = false) as Hauthor.
  { rewrite Forall_forall in Hauthors. apply Hauthors, list_elem_of_In, first_author_in, Ha. }
  assert (dotted version) as Hdotted by (split; assumption).
  destruct (main_outputs net argv disk md author name version repository homepage
              Hmd Hn Hv Hr Hh Ha)
    as (h1 & h2 & h3 & h4 & R1 & R2 & R3 & R4 & R5 & R6 & Hdir & Hcargo).
  rewrite (written_writable _ _ _ W1) in R1. rewrite (written_writable _ _ _ W2) in R2.
  rewrite (written_writable _ _ _ W3) in R3. rewrite (written_writable _ _ _ W4) in R4.
  rewrite (written_writable _ _ _ W5) in R5. rewrite (written_writable _ _ _ W6) in R6.
  specialize (Hdir W1).
  pose proof (pkgbuild_source_version md author name version EmptyString repository
                homepage h1 Hauthor Hname Hdotted eq_refl) as S1.
  pose proof (pkgbuild_bin_version md author name version EmptyString repository
                homepage h2 Hauthor Hname Hdotted eq_refl) as S2.
  rewrite append_nil_r in S1, S2.
  pose proof (brew_version md name version repository homepage h3
                Hname Hdesc Hhome Hrepo Hdotted) as S3.
  pose proof (nuspec_version md (strip (hd EmptyString (split "<" author)))
                (tags_of (md_keywords md)) name version repository Hname Hne
                (all_not_mem digit_or_dot version "<" Hdigits eq_refl)) as S4.
  pose proof (scoop_version md name version repository homepage h4 Hne
                (all_impl _ _ _ digit_or_dot_alnum_dash_dot Hdigits)) as S5.
  pose proof (snap_version md name version repository Hname Hne
                (all_not_mem digit_or_dot version "'" Hdigits eq_refl)) as S6.
  unfold pkgver_re, brew_re, nuspec_re, scoop_re, snap_re in *.
  unfold validate_package_versions, get_cargo_version.
  rewrite Hcargo, Hread, (checker_reads_version content version Hversion).
  assert (truthy (Some version) = true) as ->.
  { cbn [truthy]. unfold nonempty, GeneratePackages.nonempty.
    destruct (String.eqb_spec version EmptyString); [contradiction|reflexivity]. }
  rewrite Hdir. cbn [negb str_of default]. unfold id.
  unfold package_files. cbn [fold_left].
  rewrite (check_package_file_passes _ _ _ _ _ _ R4 S4).
  rewrite (check_package_file_passes _ _ _ _ _ _ R3 S3).
  rewrite (check_package_file_passes _ _ _ _ _ _ R5 S5).
  rewrite (check_package_file_passes _ _ _ _ _ _ R6 S6).
  rewrite (check_package_file_passes _ _ _ _ _ _ R1 S1).
  rewrite (check_package_file_passes _ _ _ _ _ _ R2 S2).
  reflexivity.
Qed.

Lemma generated_files_pass_version_check_witness :
  validate_package_versions (snd (GeneratePackages.main offline [] consistent_disk))
    new_validator
  = (true, new_validator).
Proof.
  apply (generated_files_pass_version_check offline [] consistent_disk
           consistent_cargo_toml "1.2.3" new_validator).
  - reflexivity.
  - vm_compute. reflexivity.
  - reflexivity.
  - repeat constructor.
  - vm_compute. reflexivity.
  - vm_compute. repeat constructor.
  - vm_compute. reflexivity.
  - vm_compute. reflexivity.
Defined.





(** X23.  From the Chocolatey specification, the Scoop manifest and the
    Snapcraft manifest, the patterns of the Checker read back every
    version of ASCII characters that [validate_version] accepts and that
    does not end in a newline, prerelease part included.  (A digit of
    another script, which [\d] takes as well, is escaped in the Scoop
    manifest and not read back from it.) *)
Theorem manifests_give_back_the_version (md : metadata)
    (author tags name version repository homepage sha256_hash : string) :
  sanitize_input (md_name md) 50 (Some name_chars) = Ok name ->
  validate_version (md_version md) = Ok version ->
  all is_ascii version = true ->
  mem lf version = false ->
  (In ("packaging/chocolatey/lazycelery.nuspec", nuspec_re) package_files
   /\ search_group1 nuspec_re
        (chocolatey_nuspec_text md author tags name version repository)
      = Some version)
  /\ (In ("packaging/scoop/lazycelery.json", scoop_re) package_files
      /\ search_group1 scoop_re
           (dumps 0 (scoop_manifest md name version repository homepage sha256_hash))
         = Some version)
  /\ (In ("packaging/snap/snapcraft.yaml", snap_re) package_files
      /\ search_group1 snap_re (snapcraft_yaml_text md name version repository)
         = Some version).
Proof.
  intros Hn Hv _ Hlf.
  pose proof (sanitize_input_all _ _ _ _ Hn) as Hname.
  pose proof (version_nonempty _ _ Hv) as Hne.
  assert (all alnum_dash_dot version = true) as Hchars.
  { pose proof (validate_with_Ok _ _ _ Hv) as E. rewrite E in Hv.
    destruct (validate_version_Ok version version Hv) as [_ [H|(u & -> & _)]].
    - apply semver_chars, H.
    - rewrite mem_append in Hlf. cbn in Hlf. rewrite orb_true_r in Hlf. discriminate Hlf. }
  split; [|split]; (split; [cbn; tauto|]).
  - apply nuspec_version; [exact Hname|exact Hne|].
    apply (all_not_mem alnum_dash_dot); [exact Hchars|reflexivity].
  - apply scoop_version; assumption.
  - apply snap_version; [exact Hname|exact Hne|].
    apply (all_not_mem alnum_dash_dot); [exact Hchars|reflexivity].
Qed.

Lemma manifests_give_back_the_version_witness :
  (In ("packaging/chocolatey/lazycelery.nuspec", nuspec_re) package_files
   /\ search_group1 nuspec_re
        (chocolatey_nuspec_text default_metadata "Unknown" "celery tui" "lazycelery"
           "0.4.0-beta.2" "https://github.com/Fguedes90/lazycelery")
      = Some "0.4.0-beta.2")
  /\ (In ("packaging/scoop/lazycelery.json", scoop_re) package_files
      /\ search_group1 scoop_re
           (dumps 0 (scoop_manifest default_metadata "lazycelery" "0.4.0-beta.2"
                       "https://github.com/Fguedes90/lazycelery"
                       "https://github.com/Fguedes90/lazycelery" PLACEHOLDER_SHA256))
         = Some "0.4.0-beta.2")
  /\ (In ("packaging/snap/snapcraft.yaml", snap_re) package_files
      /\ search_group1 snap_re
           (snapcraft_yaml_text default_metadata "lazycelery" "0.4.0-beta.2"
              "https://github.com/Fguedes90/lazycelery")
         = Some "0.4.0-beta.2").
Proof.
  apply (manifests_give_back_the_version
           {| md_name := VStr "lazycelery";
              md_version := VStr "0.4.0-beta.2";
              md_description := md_description default_metadata;
              md_authors := md_authors default_metadata;
              md_license := md_license default_metadata;
              md_repository := md_repository default_metadata;
              md_homepage := md_homepage default_metadata;
              md_keywords := md_keywords default_metadata;
              md_categories := md_categories default_metadata |}).
  - reflexivity.
  - reflexivity.
  - reflexivity.
  - reflexivity.
Defined.
